(** * Employee manager: a shallow embedding of [employee_manager.py]

    The program keeps a roster of employee records, a Python list of
    dictionaries, and persists it as pretty-printed JSON in
    [employees.json].  This development embeds the functions of the
    program ([load_data], [save_data], [validate_name], [validate_age],
    [add_employee], [view_all], [find_by_name], [delete_by_id],
    [prompt_search], [prompt_delete], [main]) together with the parts of
    the Python runtime they call: [str.strip], [str.lower], [in], [int],
    [max], [==], [>], [format], [repr], [input], [print], text files
    opened with [encoding="utf-8"], [json.dump] and [json.load].

    Conventions of the embedding.

    - A Python [str] is a [string]; the character [c] stands for the code
      point [N_of_ascii c], so the strings of the model are those over
      U+0000..U+00FF.  A Python [int] is a [Z].
    - A file holds bytes.  Reading decodes them as UTF-8 and translates
      the ends of lines; writing encodes the text and writes line feeds as
      they are (as on a POSIX system).  What is printed is kept as text.
    - A computation returns, or raises an exception, or leaves the
      fragment of Python data the model covers ([Unmodelled]: a float, or
      a code point above U+00FF, met while reading a file).  An exception
      that the program does not catch ends the process; no state is kept
      for it.
    - Limits of the interpreter (recursion depth, the cap on the number of
      digits when an integer is converted from or to text, memory) are not
      part of the model.
    - The title of the menu has a dash, U+2014, that is no character of
      these strings: the menu is defined for any text in its place.  The
      loop of the menu is bounded by the number of lines to read, and shown
      never to reach the bound.

    The file has four parts: the embedding, the vocabulary in which the
    properties are stated, the properties the specification states, and
    the properties of the other paths of the functions, of the search
    prompt and of the menu. *)

From Stdlib Require Import ZArith NArith Ascii String List Bool Lia.
From Stdlib Require Import Decimal DecimalString DecimalZ DecimalPos DecimalFacts.
From Stdlib.Strings Require Import Byte.
From stdpp Require Import base option list gmap strings.

Local Open Scope string_scope.
Local Open Scope Z_scope.
#[local] Set Warnings "-register-all".

(** ** Outcomes of a computation *)

Inductive exn : Type :=
  | EOFError
  | ValueError
  | TypeError
  | AttributeError
  | OSError
  | UnicodeDecodeError
  | JSONDecodeError
  | RecursionError.

Inductive result (A : Type) : Type :=
  | Ok (a : A)
  | Raise (e : exn)
  | Unmodelled.

Arguments Ok {A} a.
Arguments Raise {A} e.
Arguments Unmodelled {A}.

#[export] Instance result_ret : MRet result := fun A a => Ok a.

#[export] Instance result_bind : MBind result := fun A B k r =>
  match r with
  | Ok a => k a
  | Raise e => Raise e
  | Unmodelled => Unmodelled
  end.

(** ** Python strings *)

Module Str.

Definition code (c : ascii) : N := N_of_ascii c.

Definition between (lo hi n : N) : bool := ((lo <=? n) && (n <=? hi))%N.

(** [str.isspace] on one character, for the code points below U+0100. *)
Definition isspace (c : ascii) : bool :=
  let n := code c in
  between 9 13 n || between 28 32 n || (n =? 133)%N || (n =? 160)%N.

(** The whitespace [int] skips around a literal: the C-locale set on
    ASCII, and the Unicode whitespace above it. *)
Definition int_isspace (c : ascii) : bool :=
  let n := code c in
  between 9 13 n || (n =? 32)%N || (n =? 133)%N || (n =? 160)%N.

Definition isdigit (c : ascii) : bool := between 48 57 (code c).

Fixpoint drop_while (p : ascii -> bool) (s : string) : string :=
  match s with
  | EmptyString => EmptyString
  | String c r => if p c then drop_while p r else s
  end.

Fixpoint drop_end_while (p : ascii -> bool) (s : string) : string :=
  match s with
  | EmptyString => EmptyString
  | String c r =>
      match drop_end_while p r with
      | EmptyString => if p c then EmptyString else String c EmptyString
      | r' => String c r'
      end
  end.

Definition trim (p : ascii -> bool) (s : string) : string :=
  drop_end_while p (drop_while p s).

(** [s.strip()] *)
Definition strip (s : string) : string := trim isspace s.

Definition lower_char (c : ascii) : ascii :=
  let n := code c in
  if between 65 90 n || between 192 214 n || between 216 222 n
  then ascii_of_N (n + 32) else c.

(** [s.lower()] *)
Fixpoint lower (s : string) : string :=
  match s with
  | EmptyString => EmptyString
  | String c r => String (lower_char c) (lower r)
  end.

(** [needle in hay] *)
Fixpoint contains (needle hay : string) : bool :=
  String.prefix needle hay ||
  match hay with
  | EmptyString => false
  | String _ r => contains needle r
  end.

(** [' ' * n] *)
Fixpoint spaces (n : nat) : string :=
  match n with
  | O => EmptyString
  | S m => String " " (spaces m)
  end.

Fixpoint repeat_char (c : ascii) (n : nat) : string :=
  match n with
  | O => EmptyString
  | S m => String c (repeat_char c m)
  end.

(** Left alignment in a field of [width] characters (format spec [<width]):
    padded on the right, never cut. *)
Definition ljust (width : nat) (s : string) : string :=
  s +:+ spaces (width - String.length s).

(** The body of an integer literal: decimal digits, single underscores
    allowed between digits only.  Returns the digits. *)
Fixpoint int_body (after_digit : bool) (s : string) : option string :=
  match s with
  | EmptyString => if after_digit then Some EmptyString else None
  | String c r =>
      if isdigit c then String c <$> int_body true r
      else if Ascii.eqb c "_" then
        (if after_digit then int_body false r else None)
      else None
  end.

Definition digits_value (ds : string) : option Z :=
  Z.of_uint <$> NilEmpty.uint_of_string ds.

(** An optional sign: whether it is a minus, and what follows. *)
Definition split_sign (t : string) : bool * string :=
  match t with
  | String c r =>
      if Ascii.eqb c "-" then (true, r)
      else if Ascii.eqb c "+" then (false, r)
      else (false, t)
  | EmptyString => (false, t)
  end.

(** [int(s)] for a string [s]: base 10, optional sign, surrounding
    whitespace ignored. *)
Definition int (s : string) : result Z :=
  let '(neg, body) := split_sign (trim int_isspace s) in
  match int_body false body ≫= digits_value with
  | Some v => Ok (if neg then - v else v)
  | None => Raise ValueError
  end.

(** [repr(z)] / [str(z)] for an integer. *)
Definition of_int (z : Z) : string := NilZero.string_of_int (Z.to_int z).

End Str.

(** ** Python values

    The values a roster can hold: what [json.load] produces (apart from
    floats) and what [add_employee] builds.  A [dict] keeps its items in
    insertion order, with one item per key. *)

Inductive value : Type :=
  | VNone
  | VBool (b : bool)
  | VInt (z : Z)
  | VStr (s : string)
  | VList (l : list value)
  | VDict (d : list (string * value)).

Module Dict.

(** [d[k]], when present *)
Fixpoint get {A : Type} (d : list (string * A)) (k : string) : option A :=
  match d with
  | [] => None
  | (k', v) :: r => if String.eqb k' k then Some v else get r k
  end.

(** [d[k] = v]: an existing key keeps its position. *)
Fixpoint set {A : Type} (d : list (string * A)) (k : string) (v : A)
  : list (string * A) :=
  match d with
  | [] => [(k, v)]
  | (k', v') :: r =>
      if String.eqb k' k then (k', v) :: r else (k', v') :: set r k v
  end.

End Dict.

Module Py.

(** [a == b] *)
Fixpoint eq (a b : value) {struct a} : bool :=
  match a, b with
  | VNone, VNone => true
  | VBool x, VBool y => Bool.eqb x y
  | VBool x, VInt y => Z.b2z x =? y
  | VInt x, VBool y => x =? Z.b2z y
  | VInt x, VInt y => x =? y
  | VStr x, VStr y => String.eqb x y
  | VList la, VList lb =>
      (fix items (la lb : list value) {struct la} : bool :=
         match la, lb with
         | [], [] => true
         | x :: la', y :: lb' => eq x y && items la' lb'
         | _, _ => false
         end) la lb
  | VDict da, VDict db =>
      (length da =? length db)%nat &&
      (fix items (da : list (string * value)) : bool :=
         match da with
         | [] => true
         | (k, v) :: da' =>
             match Dict.get db k with
             | Some w => eq v w
             | None => false
             end && items da'
         end) da
  | _, _ => false
  end.

(** [a > b]; ordering is defined between numbers, between strings and
    between lists. *)
Fixpoint gt (a b : value) {struct a} : result bool :=
  match a, b with
  | VBool x, VBool y => Ok (Z.b2z x >? Z.b2z y)
  | VBool x, VInt y => Ok (Z.b2z x >? y)
  | VInt x, VBool y => Ok (x >? Z.b2z y)
  | VInt x, VInt y => Ok (x >? y)
  | VStr x, VStr y => Ok (String.ltb y x)
  | VList la, VList lb =>
      (fix items (la lb : list value) {struct la} : result bool :=
         match la, lb with
         | [], _ => Ok false
         | _ :: _, [] => Ok true
         | x :: la', y :: lb' => if eq x y then items la' lb' else gt x y
         end) la lb
  | _, _ => Raise TypeError
  end.

(** [1 + v]: an [int], when [v] is a number. *)
Definition add1 (v : value) : result Z :=
  match v with
  | VInt z => Ok (1 + z)
  | VBool b => Ok (1 + Z.b2z b)
  | _ => Raise TypeError
  end.

(** [format(v, "<width")], the [{v:<width}] of an f-string. *)
Definition format_left (width : nat) (v : value) : result string :=
  match v with
  | VStr s => Ok (Str.ljust width s)
  | VInt z => Ok (Str.ljust width (Str.of_int z))
  | VBool b => Ok (Str.ljust width (if b then "1" else "0"))
  | VNone | VList _ | VDict _ => Raise TypeError
  end.

(** [e.get(k, default)]: only a [dict] has the method. *)
Definition get (e : value) (k : string) (default : value) : result value :=
  match e with
  | VDict d => Ok (from_option id default (Dict.get d k))
  | _ => Raise AttributeError
  end.

(** [s.lower()] on a value: only a [str] has the method. *)
Definition lower (v : value) : result string :=
  match v with
  | VStr s => Ok (Str.lower s)
  | _ => Raise AttributeError
  end.

(** The loop of [max(f(e) for e in es)] once a first item is held: the
    generator yields one item at a time, and an item replaces the held
    one when it compares greater. *)
Fixpoint max_from (f : value -> result value) (held : value)
    (es : list value) : result value :=
  match es with
  | [] => Ok held
  | e :: r =>
      x ← f e;
      g ← gt x held;
      max_from f (if g : bool then x else held) r
  end.

(** [max((f(e) for e in es), default=d)] *)
Definition max_default (f : value -> result value) (es : list value)
    (d : value) : result value :=
  match es with
  | [] => Ok d
  | e :: r => x ← f e; max_from f x r
  end.

End Py.

#[export] Instance result_fmap : FMap result := fun A B f r =>
  match r with
  | Ok a => Ok (f a)
  | Raise e => Raise e
  | Unmodelled => Unmodelled
  end.

(** ** The environment: files, standard input and standard output *)

Inductive node : Type :=
  | File (content : list byte)
  | Directory.

Record world : Type := World {
  fs : gmap string node;      (* the working directory, by file name *)
  stdin : list string;        (* the lines still to be read *)
  stdout : list string        (* what was written, oldest first *)
}.

(** A statement of the program: it runs in a [world] and returns with a new
    one, or does not return. *)
Definition M (A : Type) : Type := world -> result (A * world).

#[export] Instance M_ret : MRet M := fun A a w => Ok (a, w).

#[export] Instance M_bind : MBind M := fun A B k m w =>
  match m w with
  | Ok (a, w') => k a w'
  | Raise e => Raise e
  | Unmodelled => Unmodelled
  end.

Definition lift {A : Type} (r : result A) : M A := fun w =>
  match r with
  | Ok a => Ok (a, w)
  | Raise e => Raise e
  | Unmodelled => Unmodelled
  end.

(** [try: body except classes: handler].  The handler starts from the world
    at the entry of the block: the only guarded block of the program reads
    a file and writes nothing. *)
Definition try_except {A : Type} (body : M A) (caught : exn -> bool)
    (handler : M A) : M A := fun w =>
  match body w with
  | Raise e => if caught e then handler w else Raise e
  | r => r
  end.

Module Utf8.

Definition byte_of_N (n : N) : byte := byte_of_ascii (ascii_of_N n).

Definition encode_char (c : ascii) : list byte :=
  let n := Str.code c in
  if (n <? 128)%N then [byte_of_N n]
  else [byte_of_N (192 + n / 64); byte_of_N (128 + n mod 64)].

(** [s.encode("utf-8")] *)
Fixpoint encode (s : string) : list byte :=
  match s with
  | EmptyString => []
  | String c r => encode_char c ++ encode r
  end.

Definition cont (b : byte) : bool := Str.between 128 191 (Byte.to_N b).

(** The range of the second byte, which depends on the first one
    (no overlong form, no surrogate, nothing above U+10FFFF). *)
Definition second_ok (n0 : N) (b1 : byte) : bool :=
  let n1 := Byte.to_N b1 in
  if (n0 =? 224)%N then Str.between 160 191 n1
  else if (n0 =? 237)%N then Str.between 128 159 n1
  else if (n0 =? 240)%N then Str.between 144 191 n1
  else if (n0 =? 244)%N then Str.between 128 143 n1
  else Str.between 128 191 n1.

(** A well-formed sequence for a code point the model has no character
    for: the text is outside the model, unless a later byte is invalid. *)
Definition above (r : result string) : result string :=
  match r with
  | Ok _ => Unmodelled
  | _ => r
  end.

(** [b.decode("utf-8")], strict *)
Fixpoint decode (bs : list byte) : result string :=
  match bs with
  | [] => Ok EmptyString
  | b0 :: r =>
      let n0 := Byte.to_N b0 in
      if (n0 <? 128)%N then String (ascii_of_byte b0) <$> decode r
      else if Str.between 194 223 n0 then
        match r with
        | b1 :: r1 =>
            if cont b1 then
              let cp := ((n0 - 192) * 64 + (Byte.to_N b1 - 128))%N in
              if (cp <=? 255)%N then String (ascii_of_N cp) <$> decode r1
              else above (decode r1)
            else Raise UnicodeDecodeError
        | _ => Raise UnicodeDecodeError
        end
      else if Str.between 224 239 n0 then
        match r with
        | b1 :: b2 :: r2 =>
            if second_ok n0 b1 && cont b2 then above (decode r2)
            else Raise UnicodeDecodeError
        | _ => Raise UnicodeDecodeError
        end
      else if Str.between 240 244 n0 then
        match r with
        | b1 :: b2 :: b3 :: r3 =>
            if second_ok n0 b1 && cont b2 && cont b3 then above (decode r3)
            else Raise UnicodeDecodeError
        | _ => Raise UnicodeDecodeError
        end
      else Raise UnicodeDecodeError
  end.

End Utf8.

Module IO.

Definition LF : ascii := "010"%char.
Definition CR : ascii := "013"%char.

(** Reading in text mode with the default [newline=None]: a carriage
    return, alone or before a line feed, is read as a line feed. *)
Fixpoint universal_newlines (s : string) : string :=
  match s with
  | EmptyString => EmptyString
  | String c r =>
      if Ascii.eqb c CR then
        match r with
        | String c' r' =>
            if Ascii.eqb c' LF then String LF (universal_newlines r')
            else String LF (universal_newlines r)
        | EmptyString => String LF EmptyString
        end
      else String c (universal_newlines r)
  end.

(** [os.path.exists(path)] *)
Definition exists_ (path : string) : M bool := fun w =>
  Ok (bool_decide (is_Some (fs w !! path)), w).

(** [open(path, "r", encoding="utf-8")] followed by [f.read()] *)
Definition read_text (path : string) : M string := fun w =>
  match fs w !! path with
  | Some (File bs) =>
      s ← Utf8.decode bs;
      Ok (universal_newlines s, w)
  | Some Directory | None => Raise OSError
  end.

(** [open(path, "w", encoding="utf-8")] followed by [f.write(text)] and
    the closing of the file (line feeds are written as they are). *)
Definition write_text (path : string) (text : string) : M unit := fun w =>
  match fs w !! path with
  | Some Directory => Raise OSError
  | _ =>
      Ok (tt, {| fs := <[path := File (Utf8.encode text)]> (fs w);
                 stdin := stdin w; stdout := stdout w |})
  end.

(** What [print(s)] writes: [s] and the end of the line. *)
Definition line (s : string) : string := s +:+ String LF EmptyString.

(** [print(s)] *)
Definition print (s : string) : M unit := fun w =>
  Ok (tt, {| fs := fs w; stdin := stdin w; stdout := stdout w ++ [line s] |}).

(** [input(prompt)] *)
Definition input (prompt : string) : M string := fun w =>
  match stdin w with
  | [] => Raise EOFError
  | line :: rest =>
      Ok (line, {| fs := fs w; stdin := rest;
                   stdout := stdout w ++ [prompt] |})
  end.

End IO.

(** ** The [json] module *)

Module Json.

Definition QUOTE : ascii := "034"%char.
Definition BACKSLASH : ascii := "092"%char.

Definition hex_digit (n : N) : ascii :=
  if (n <? 10)%N then ascii_of_N (48 + n) else ascii_of_N (87 + n).

(** The escape of one character of a string ([ensure_ascii=False]): the
    quote, the backslash and the control characters below U+0020. *)
Definition escape_char (c : ascii) : string :=
  let n := Str.code c in
  if Ascii.eqb c QUOTE then String BACKSLASH (String QUOTE EmptyString)
  else if Ascii.eqb c BACKSLASH then String BACKSLASH (String BACKSLASH EmptyString)
  else if (n =? 8)%N then String BACKSLASH "b"
  else if (n =? 12)%N then String BACKSLASH "f"
  else if (n =? 10)%N then String BACKSLASH "n"
  else if (n =? 13)%N then String BACKSLASH "r"
  else if (n =? 9)%N then String BACKSLASH "t"
  else if (n <? 32)%N then
    String BACKSLASH
      (String "u" (String "0" (String "0"
         (String (hex_digit (n / 16)) (String (hex_digit (n mod 16)) EmptyString)))))
  else String c EmptyString.

Fixpoint escape (s : string) : string :=
  match s with
  | EmptyString => EmptyString
  | String c r => escape_char c +:+ escape r
  end.

Definition quote (s : string) : string :=
  String QUOTE (escape s +:+ String QUOTE EmptyString).

(** The line break and indentation before an item at nesting [level]
    ([indent=2]). *)
Definition newline_indent (level : nat) : string :=
  String IO.LF (Str.spaces (2 * level)).

(** [json.dumps(v, indent=2, ensure_ascii=False)], at nesting [level]: the
    items of a non-empty container go on lines of their own, one level
    deeper, with a comma between them. *)
Fixpoint encode (level : nat) (v : value) : string :=
  match v with
  | VNone => "null"
  | VBool true => "true"
  | VBool false => "false"
  | VInt z => Str.of_int z
  | VStr s => quote s
  | VList [] => "[]"
  | VList l =>
      "[" +:+ newline_indent (S level) +:+
      String.concat ("," +:+ newline_indent (S level))
        (map (encode (S level)) l) +:+
      newline_indent level +:+ "]"
  | VDict [] => "{}"
  | VDict d =>
      "{" +:+ newline_indent (S level) +:+
      String.concat ("," +:+ newline_indent (S level))
        (map (fun kv => quote kv.1 +:+ ": " +:+ encode (S level) kv.2) d) +:+
      newline_indent level +:+ "}"
  end.

Definition dumps (v : value) : string := encode 0 v.

(** *** Decoding *)

Definition is_ws (c : ascii) : bool :=
  let n := Str.code c in
  (n =? 32)%N || (n =? 9)%N || (n =? 10)%N || (n =? 13)%N.

Definition skip_ws (s : string) : string := Str.drop_while is_ws s.

Definition hex_value (c : ascii) : option N :=
  let n := Str.code c in
  if Str.between 48 57 n then Some (n - 48)%N
  else if Str.between 97 102 n then Some (n - 87)%N
  else if Str.between 65 70 n then Some (n - 55)%N
  else None.

Definition hex4 (a b c d : ascii) : option N :=
  x ← hex_value a; y ← hex_value b; z ← hex_value c; t ← hex_value d;
  Some (((x * 16 + y) * 16 + z) * 16 + t)%N.

(** The character after a backslash, other than [u]. *)
Definition unescape (c : ascii) : option ascii :=
  if Ascii.eqb c QUOTE then Some QUOTE
  else if Ascii.eqb c BACKSLASH then Some BACKSLASH
  else if Ascii.eqb c "/" then Some "/"%char
  else if Ascii.eqb c "b" then Some "008"%char
  else if Ascii.eqb c "f" then Some "012"%char
  else if Ascii.eqb c "n" then Some "010"%char
  else if Ascii.eqb c "r" then Some "013"%char
  else if Ascii.eqb c "t" then Some "009"%char
  else None.

(** What a scan returns: the decoded item, the text after it, and whether
    something outside the model was met on the way (a float, or an escape
    above U+00FF, for which a placeholder stands in the item). *)
Definition scanned (A : Type) : Type := result (A * string * bool).

(** The body of a string, after the opening quote (strict mode: no raw
    control character). *)
Fixpoint scanstring (s : string) : scanned string :=
  match s with
  | EmptyString => Raise JSONDecodeError
  | String c r =>
      if Ascii.eqb c QUOTE then Ok (EmptyString, r, false)
      else if Ascii.eqb c BACKSLASH then
        match r with
        | String e r' =>
            if Ascii.eqb e "u" then
              match r' with
              | String h1 (String h2 (String h3 (String h4 r''))) =>
                  match hex4 h1 h2 h3 h4 with
                  | Some n =>
                      '(t, rest, out) ← scanstring r'';
                      Ok (String (ascii_of_N n) t, rest, out || (255 <? n)%N)
                  | None => Raise JSONDecodeError
                  end
              | _ => Raise JSONDecodeError
              end
            else
              match unescape e with
              | Some c' =>
                  '(t, rest, out) ← scanstring r';
                  Ok (String c' t, rest, out)
              | None => Raise JSONDecodeError
              end
        | EmptyString => Raise JSONDecodeError
        end
      else if (Str.code c <? 32)%N then Raise JSONDecodeError
      else
        '(t, rest, out) ← scanstring r;
        Ok (String c t, rest, out)
  end.

(** The longest run of digits at the head of [s], and what follows. *)
Fixpoint span_digits (s : string) : string * string :=
  match s with
  | EmptyString => (EmptyString, EmptyString)
  | String c r =>
      if Str.isdigit c then
        let '(ds, rest) := span_digits r in (String c ds, rest)
      else (EmptyString, s)
  end.

(** The integer part of a number: [0], or a digit other than [0]
    followed by digits. *)
Definition int_part (s : string) : option (string * string) :=
  match s with
  | String c r =>
      if Ascii.eqb c "0" then Some ("0", r)
      else if Str.isdigit c then
        let '(ds, rest) := span_digits r in Some (String c ds, rest)
      else None
  | EmptyString => None
  end.

(** A fraction: a point and at least one digit.  Returns what follows. *)
Definition frac_part (s : string) : option string :=
  match s with
  | String p (String c r) =>
      if Ascii.eqb p "." && Str.isdigit c then Some (span_digits r).2 else None
  | _ => None
  end.

(** An exponent: [e] or [E], an optional sign, at least one digit. *)
Definition exp_part (s : string) : option string :=
  match s with
  | String e r =>
      if Ascii.eqb e "e" || Ascii.eqb e "E" then
        let r1 :=
          match r with
          | String sg r' =>
              if Ascii.eqb sg "+" || Ascii.eqb sg "-" then r' else r
          | EmptyString => r
          end in
        match r1 with
        | String c r2 => if Str.isdigit c then Some (span_digits r2).2 else None
        | EmptyString => None
        end
      else None
  | EmptyString => None
  end.

(** A number at the head of [s].  Without fraction and exponent it is an
    [int], converted by [int()]; otherwise it is a float. *)
Definition match_number (s : string) : scanned value :=
  let '(sign, s1) :=
    match s with
    | String c r => if Ascii.eqb c "-" then ("-", r) else (EmptyString, s)
    | EmptyString => (EmptyString, s)
    end in
  match int_part s1 with
  | None => Raise JSONDecodeError
  | Some (ds, r0) =>
      let '(frac, r1) :=
        match frac_part r0 with
        | Some r => (true, r)
        | None => (false, r0)
        end in
      let '(exp, r2) :=
        match exp_part r1 with
        | Some r => (true, r)
        | None => (false, r1)
        end in
      if frac || exp then Ok (VNone, r2, true)
      else z ← Str.int (sign +:+ ds); Ok (VInt z, r2, false)
  end.

(** [s] without its first [n] characters *)
Fixpoint skip (n : nat) (s : string) : string :=
  match n, s with
  | S m, String _ r => skip m r
  | _, _ => s
  end.

(** The scanner.  [fuel] bounds the number of nested calls; a call hands
    strictly less text to the calls it makes, so the length of the text
    is enough ([loads] below), and running out stands for the
    interpreter giving up on the depth of the recursion. *)
Fixpoint scan_once (fuel : nat) (s : string) : scanned value :=
  match fuel with
  | O => Raise RecursionError
  | S fuel' =>
      match s with
      | EmptyString => Raise JSONDecodeError
      | String c r =>
          if Ascii.eqb c QUOTE then
            '(t, rest, out) ← scanstring r; Ok (VStr t, rest, out)
          else if Ascii.eqb c "{" then
            match skip_ws r with
            | EmptyString => Raise JSONDecodeError
            | String c1 rest as r1 =>
                if Ascii.eqb c1 "}" then Ok (VDict [], rest, false)
                else
                  '(d, rest, out) ← scan_members fuel' r1 [];
                  Ok (VDict d, rest, out)
            end
          else if Ascii.eqb c "[" then
            match skip_ws r with
            | EmptyString => Raise JSONDecodeError
            | String c1 rest as r1 =>
                if Ascii.eqb c1 "]" then Ok (VList [], rest, false)
                else
                  '(l, rest, out) ← scan_items fuel' r1;
                  Ok (VList l, rest, out)
            end
          else if Ascii.eqb c "n" && String.prefix "null" s then
            Ok (VNone, skip 4 s, false)
          else if Ascii.eqb c "t" && String.prefix "true" s then
            Ok (VBool true, skip 4 s, false)
          else if Ascii.eqb c "f" && String.prefix "false" s then
            Ok (VBool false, skip 5 s, false)
          else if Ascii.eqb c "N" && String.prefix "NaN" s then
            Ok (VNone, skip 3 s, true)
          else if Ascii.eqb c "I" && String.prefix "Infinity" s then
            Ok (VNone, skip 8 s, true)
          else if Ascii.eqb c "-" && String.prefix "-Infinity" s then
            Ok (VNone, skip 9 s, true)
          else match_number s
      end
  end

(** The items of a non-empty array, from the first one to the closing
    bracket. *)
with scan_items (fuel : nat) (s : string) : scanned (list value) :=
  match fuel with
  | O => Raise RecursionError
  | S fuel' =>
      '(v, rest, out) ← scan_once fuel' s;
      match skip_ws rest with
      | String c rest' =>
          if Ascii.eqb c "]" then Ok ([v], rest', out)
          else if Ascii.eqb c "," then
            '(l, rest'', out') ← scan_items fuel' (skip_ws rest');
            Ok (v :: l, rest'', out || out')
          else Raise JSONDecodeError
      | EmptyString => Raise JSONDecodeError
      end
  end

(** The members of a non-empty object, from the first key to the closing
    brace; [acc] holds the members read so far, a repeated key keeping
    its first position and taking the last value. *)
with scan_members (fuel : nat) (s : string) (acc : list (string * value))
    : scanned (list (string * value)) :=
  match fuel with
  | O => Raise RecursionError
  | S fuel' =>
      match s with
      | String c r =>
          if Ascii.eqb c QUOTE then
            '(k, rest, out) ← scanstring r;
            match skip_ws rest with
            | String c1 rest1 =>
                if Ascii.eqb c1 ":" then
                  '(v, rest2, out') ← scan_once fuel' (skip_ws rest1);
                  let acc' := Dict.set acc k v in
                  match skip_ws rest2 with
                  | String c2 rest3 =>
                      if Ascii.eqb c2 "}" then Ok (acc', rest3, out || out')
                      else if Ascii.eqb c2 "," then
                        '(d, rest4, out'') ← scan_members fuel' (skip_ws rest3) acc';
                        Ok (d, rest4, out || out' || out'')
                      else Raise JSONDecodeError
                  | EmptyString => Raise JSONDecodeError
                  end
                else Raise JSONDecodeError
            | EmptyString => Raise JSONDecodeError
            end
          else Raise JSONDecodeError
      | EmptyString => Raise JSONDecodeError
      end
  end.

(** [json.loads(s)] *)
Definition loads (s : string) : result value :=
  let s0 := skip_ws s in
  '(v, rest, out) ← scan_once (S (2 * String.length s0)) s0;
  match skip_ws rest with
  | EmptyString => if out : bool then Unmodelled else Ok v
  | _ => Raise JSONDecodeError
  end.

End Json.

(** ** The program *)

Definition DATA_FILE : string := "employees.json".

(** The exceptions the handler of [load_data] names:
    [except (json.JSONDecodeError, IOError)]. *)
Definition load_caught (e : exn) : bool :=
  match e with
  | JSONDecodeError | OSError => true
  | _ => false
  end.

Definition load_data (filename : string) : M (list value) :=
  present ← IO.exists_ filename;
  if negb present then mret []
  else
    try_except
      (text ← IO.read_text filename;
       data ← lift (Json.loads text);
       match data with
       | VList l => mret l
       | _ => mret []
       end)
      load_caught
      (mret []).

Definition save_data (employees : list value) (filename : string) : M unit :=
  IO.write_text filename (Json.dumps (VList employees)).

Definition validate_name (name : string) : bool :=
  let name := Str.strip name in
  (1 <=? String.length name)%nat.

Definition validate_age (age_str : string) : result (option Z) :=
  match Str.int age_str with
  | Ok age => if (15 <=? age) && (age <=? 100) then Ok (Some age) else Ok None
  | Raise ValueError => Ok None
  | Raise e => Raise e
  | Unmodelled => Unmodelled
  end.

(** [1 + max((e.get("id", 0) for e in employees), default=0)] *)
Definition next_id (employees : list value) : result Z :=
  m ← Py.max_default (fun e => Py.get e "id" (VInt 0)) employees (VInt 0);
  Py.add1 m.

(** The list is changed in place by the program; here the function returns
    the list as it stands when the call returns. *)
Definition add_employee (employees : list value) : M (list value) :=
  line ← IO.input "Enter name: ";
  let name := Str.strip line in
  if negb (validate_name name) then
    _ ← IO.print "Invalid name. Try again.";
    mret employees
  else
    line ← IO.input "Enter age (15-100): ";
    let age_str := Str.strip line in
    age ← lift (validate_age age_str);
    match age with
    | None =>
        _ ← IO.print "Invalid age. Must be number between 15 and 100.";
        mret employees
    | Some age =>
        line ← IO.input "Enter department: ";
        let dept := Str.strip line in
        let dept := if String.eqb dept EmptyString then "General" else dept in
        next_id ← lift (next_id employees);
        let emp := VDict [("id", VInt next_id); ("name", VStr name);
                          ("age", VInt age); ("department", VStr dept)] in
        let employees := (employees ++ [emp])%list in
        _ ← save_data employees DATA_FILE;
        _ ← IO.print ("Added employee " +:+ name +:+ " (id=" +:+
                        Str.of_int next_id +:+ ").");
        mret employees
    end.

Definition RULE : string := Str.repeat_char "-" 50.

Definition HEADER : string :=
  Str.ljust 4 "ID" +:+ " " +:+ Str.ljust 20 "Name" +:+ " " +:+
  Str.ljust 4 "Age" +:+ " " +:+ Str.ljust 15 "Department".

(** One replacement field of the row, [{e.get(k, ''):<width}]: the field is
    looked up, then formatted. *)
Definition cell (e : value) (k : string) (width : nat) : result string :=
  v ← Py.get e k (VStr EmptyString);
  Py.format_left width v.

(** One line of the table, its fields evaluated from left to right. *)
Definition table_row (e : value) : result string :=
  c1 ← cell e "id" 4;
  c2 ← cell e "name" 20;
  c3 ← cell e "age" 4;
  c4 ← cell e "department" 15;
  Ok (c1 +:+ " " +:+ c2 +:+ " " +:+ c3 +:+ " " +:+ c4).

Fixpoint print_rows (employees : list value) : M unit :=
  match employees with
  | [] => mret tt
  | e :: r =>
      line ← lift (table_row e);
      _ ← IO.print line;
      print_rows r
  end.

Definition view_all (employees : list value) : M unit :=
  match employees with
  | [] => IO.print "No employees."
  | _ =>
      _ ← IO.print RULE;
      _ ← IO.print HEADER;
      _ ← IO.print RULE;
      _ ← print_rows employees;
      IO.print RULE
  end.

(** [[e for e in es if p(e)]] *)
Fixpoint comprehension (p : value -> result bool) (es : list value)
    : result (list value) :=
  match es with
  | [] => Ok []
  | e :: r =>
      b ← p e;
      l ← comprehension p r;
      Ok (if b : bool then e :: l else l)
  end.

Definition find_by_name (employees : list value) (name_query : string)
    : result (list value) :=
  let name_query := Str.lower (Str.strip name_query) in
  comprehension
    (fun e =>
       n ← Py.get e "name" (VStr EmptyString);
       l ← Py.lower n;
       Ok (Str.contains name_query l))
    employees.

(** The loop of [delete_by_id]: [i] and [todo] are the index and the
    items [enumerate] has still to yield. *)
Fixpoint delete_loop (employees : list value) (i : nat) (todo : list value)
    (id_to_delete : Z) : M (list value * bool) :=
  match todo with
  | [] => mret (employees, false)
  | e :: r =>
      v ← lift (Py.get e "id" VNone);
      if Py.eq v (VInt id_to_delete) then
        let employees := delete i employees in
        _ ← save_data employees DATA_FILE;
        mret (employees, true)
      else delete_loop employees (S i) r id_to_delete
  end.

(** Returns the list as it stands on return, and the returned flag. *)
Definition delete_by_id (employees : list value) (id_to_delete : Z)
    : M (list value * bool) :=
  delete_loop employees 0 employees id_to_delete.

Definition prompt_delete (employees : list value) : M (list value) :=
  line ← IO.input "Enter id to delete: ";
  let sid := Str.strip line in
  match Str.int sid with
  | Raise ValueError =>
      _ ← IO.print "Invalid id.";
      mret employees
  | Raise e => fun _ => Raise e
  | Unmodelled => fun _ => Unmodelled
  | Ok sid_int =>
      '(employees, ok) ← delete_by_id employees sid_int;
      _ ← (if ok : bool
           then IO.print ("Deleted employee id=" +:+ Str.of_int sid_int +:+ ".")
           else IO.print "No employee with that id.");
      mret employees
  end.

(** ** The search prompt *)

Module Text.

Definition APOSTROPHE : ascii := "039"%char.

(** [str.isprintable] on one character, for the code points below U+0100:
    the controls, the no-break space and the soft hyphen are not. *)
Definition printable (c : ascii) : bool :=
  let n := Str.code c in
  Str.between 32 126 n || Str.between 161 172 n || Str.between 174 255 n.

Fixpoint has (q : ascii) (s : string) : bool :=
  match s with
  | EmptyString => false
  | String c r => Ascii.eqb c q || has q r
  end.

(** The quote [repr] puts around a string: the apostrophe, unless the
    string has one and has no double quote. *)
Definition quote_of (s : string) : ascii :=
  if has APOSTROPHE s && negb (has Json.QUOTE s) then Json.QUOTE else APOSTROPHE.

Definition repr_char (q c : ascii) : string :=
  let n := Str.code c in
  if Ascii.eqb c q || Ascii.eqb c Json.BACKSLASH then
    String Json.BACKSLASH (String c EmptyString)
  else if (n =? 9)%N then String Json.BACKSLASH "t"
  else if (n =? 10)%N then String Json.BACKSLASH "n"
  else if (n =? 13)%N then String Json.BACKSLASH "r"
  else if printable c then String c EmptyString
  else
    String Json.BACKSLASH
      (String "x" (String (Json.hex_digit (n / 16))
         (String (Json.hex_digit (n mod 16)) EmptyString))).

Fixpoint repr_body (q : ascii) (s : string) : string :=
  match s with
  | EmptyString => EmptyString
  | String c r => repr_char q c +:+ repr_body q r
  end.

(** [repr(s)] for a string *)
Definition repr_str (s : string) : string :=
  let q := quote_of s in
  String q (repr_body q s +:+ String q EmptyString).

(** [repr(v)] *)
Fixpoint repr (v : value) : string :=
  match v with
  | VNone => "None"
  | VBool true => "True"
  | VBool false => "False"
  | VInt z => Str.of_int z
  | VStr s => repr_str s
  | VList l => "[" +:+ String.concat ", " (map repr l) +:+ "]"
  | VDict d =>
      "{" +:+
      String.concat ", " (map (fun kv => repr_str kv.1 +:+ ": " +:+ repr kv.2) d) +:+
      "}"
  end.

(** [format(v, "")], the [{v}] of an f-string: [str(v)]. *)
Definition str (v : value) : string :=
  match v with
  | VStr s => s
  | _ => repr v
  end.

End Text.

(** The records a search finds are read with [e['id']], which raises
    [KeyError] on a record without the key: an exception that none of the
    functions above raises.  The outcomes of the search prompt and of the
    menu are those of the functions above, this exception, and
    [Unfinished] for a loop that was cut short (see [main_loop]). *)
Inductive outcome (A : Type) : Type :=
  | Plain (r : result A)
  | KeyError (key : string)
  | Unfinished.

Arguments Plain {A} r.
Arguments KeyError {A} key.
Arguments Unfinished {A}.

Definition P (A : Type) : Type := world -> outcome (A * world).

#[export] Instance P_ret : MRet P := fun A a w => Plain (Ok (a, w)).

#[export] Instance P_bind : MBind P := fun A B k m w =>
  match m w with
  | Plain (Ok (a, w')) => k a w'
  | Plain (Raise e) => Plain (Raise e)
  | Plain Unmodelled => Plain Unmodelled
  | KeyError key => KeyError key
  | Unfinished => Unfinished
  end.

(** A statement of the functions above, among these outcomes. *)
Definition plain {A : Type} (c : M A) : P A := fun w => Plain (c w).

(** [e[k]]: the item of a [dict]; the other values of a roster take no
    string as a subscript. *)
Definition subscript (e : value) (k : string) : P value := fun w =>
  match e with
  | VDict d =>
      match Dict.get d k with
      | Some v => Plain (Ok (v, w))
      | None => KeyError k
      end
  | _ => Plain (Raise TypeError)
  end.

(** The line printed for a record found, its fields read from left to
    right. *)
Definition found_line (e : value) : P string :=
  id ← subscript e "id";
  name ← subscript e "name";
  age ← subscript e "age";
  department ← subscript e "department";
  mret ("  id=" +:+ Text.str id +:+ " name=" +:+ Text.str name +:+
        " age=" +:+ Text.str age +:+ " dept=" +:+ Text.str department).

Fixpoint print_found (results : list value) : P unit :=
  match results with
  | [] => mret tt
  | e :: r =>
      line ← found_line e;
      _ ← plain (IO.print line);
      print_found r
  end.

Definition prompt_search (employees : list value) : P unit :=
  line ← plain (IO.input "Enter name to search (partial allowed): ");
  let q := Str.strip line in
  results ← plain (lift (find_by_name employees q));
  match results with
  | [] => plain (IO.print "No matches.")
  | _ =>
      _ ← plain (IO.print ("Found " +:+ Str.of_int (Z.of_nat (length results)) +:+ ":"));
      print_found results
  end.

(** ** The menu *)

Section Menu.

(** The title of the menu has a dash, U+2014, for which the strings of
    this development have no character.  The menu is defined for any text
    [dash] in its place; nothing in the program reads the title. *)
Variable dash : string.

Definition print_menu : M unit :=
  _ ← IO.print (String IO.LF ("Employee Manager " +:+ dash +:+ " Choose an option:"));
  _ ← IO.print "1. Add employee";
  _ ← IO.print "2. View all";
  _ ← IO.print "3. Search by name";
  _ ← IO.print "4. Delete by id";
  IO.print "5. Exit".

(** The loop of [main], from the roster held on entry to the roster held
    when [break] leaves it.  Every turn reads a line, so the loop ends with
    the input at the latest; [fuel] bounds the number of turns, and [main]
    gives one turn more than there are lines to read. *)
Fixpoint main_loop (fuel : nat) (employees : list value) : P (list value) :=
  match fuel with
  | O => fun _ => Unfinished
  | S fuel' =>
      _ ← plain print_menu;
      line ← plain (IO.input "Choice: ");
      let choice := Str.strip line in
      if String.eqb choice "1" then
        employees ← plain (add_employee employees);
        main_loop fuel' employees
      else if String.eqb choice "2" then
        _ ← plain (view_all employees);
        main_loop fuel' employees
      else if String.eqb choice "3" then
        _ ← prompt_search employees;
        main_loop fuel' employees
      else if String.eqb choice "4" then
        employees ← plain (prompt_delete employees);
        main_loop fuel' employees
      else if String.eqb choice "5" then
        _ ← plain (IO.print "Exiting. Goodbye.");
        mret employees
      else
        _ ← plain (IO.print "Invalid choice. Enter 1-5.");
        main_loop fuel' employees
  end.

Definition main : P unit := fun w =>
  (employees ← plain (load_data DATA_FILE);
   _ ← main_loop (S (length (stdin w))) employees;
   mret tt) w.

End Menu.

(** * Vocabulary of the specification *)

(** The identifier [add_employee] and [delete_by_id] see in a record:
    [id_view e i] when [e] is a dictionary whose ["id"] is the integer [i],
    or a dictionary without ["id"] and [i] is 0, the default of
    [e.get("id", 0)]. *)
Definition id_view (e : value) (i : Z) : Prop :=
  exists d, e = VDict d /\
    (Dict.get d "id" = Some (VInt i) \/ (Dict.get d "id" = None /\ i = 0)).

(** A record with an integer identifier. *)
Definition has_int_id (e : value) (i : Z) : Prop :=
  exists d, e = VDict d /\ Dict.get d "id" = Some (VInt i).

(** [m] is the greatest element of [ids], or 0 when there is none. *)
Definition greatest (ids : list Z) (m : Z) : Prop :=
  match ids with
  | [] => m = 0
  | _ => In m ids /\ Forall (fun i => i <= m) ids
  end.

(** The record [add_employee] builds. *)
Definition employee (id : Z) (name : string) (age : Z) (department : string)
    : value :=
  VDict [("id", VInt id); ("name", VStr name); ("age", VInt age);
         ("department", VStr department)].

(** A world that differs from [w] by the content of one file, by the lines
    read and by the text written. *)
Definition after (w : world) (path : string) (content : list byte)
    (unread : list string) (written : list string) : world :=
  {| fs := <[path := File content]> (fs w);
     stdin := unread;
     stdout := (stdout w ++ written)%list |}.

(** What [save_data] leaves in the file. *)
Definition saved (employees : list value) : list byte :=
  Utf8.encode (Json.dumps (VList employees)).

(** What the annotation [List[Dict]] asks of an item of the roster. *)
Definition is_dict (e : value) : Prop := exists d, e = VDict d.

(** [e.get("id") == target] *)
Definition id_is (e : value) (target : Z) : bool :=
  match e with
  | VDict d =>
      match Dict.get d "id" with
      | Some v => Py.eq v (VInt target)
      | None => false
      end
  | _ => false
  end.

(** A record of the data model in which any field may be missing: a
    field that is present has the type of the data model. *)
Definition is_int (v : value) : Prop := exists z, v = VInt z.
Definition is_str (v : value) : Prop := exists s, v = VStr s.

Definition field_has (p : value -> Prop) (d : list (string * value))
    (k : string) : Prop :=
  forall v, Dict.get d k = Some v -> p v.

Definition partial_record (e : value) : Prop :=
  exists d, e = VDict d /\
    field_has is_int d "id" /\ field_has is_str d "name" /\
    field_has is_int d "age" /\ field_has is_str d "department".

(** The text of a field of a record: the digits of an integer, the
    characters of a string, nothing for a missing field. *)
Definition field_text (e : value) (k : string) : string :=
  match e with
  | VDict d =>
      match Dict.get d k with
      | Some (VInt z) => Str.of_int z
      | Some (VStr s) => s
      | _ => EmptyString
      end
  | _ => EmptyString
  end.

(** The listing of the specification: the columns ID, Name, Age and
    Department, of widths 4, 20, 4 and 15, one space apart. *)
Definition rendered_row (e : value) : string :=
  Str.ljust 4 (field_text e "id") +:+ " " +:+
  Str.ljust 20 (field_text e "name") +:+ " " +:+
  Str.ljust 4 (field_text e "age") +:+ " " +:+
  Str.ljust 15 (field_text e "department").

Definition rendered_table (employees : list value) : list string :=
  ([IO.line RULE; IO.line HEADER; IO.line RULE] ++
   map (fun e => IO.line (rendered_row e)) employees ++
   [IO.line RULE])%list.

(** The world [w] after [out] was written. *)
Definition written (w : world) (out : list string) : world :=
  {| fs := fs w; stdin := stdin w; stdout := (stdout w ++ out)%list |}.

(** A record whose name, when it has one, is a string. *)
Definition named (e : value) : Prop :=
  exists d, e = VDict d /\ field_has is_str d "name".

(** The name of a record, empty when it has none. *)
Definition name_of (e : value) : string :=
  match e with
  | VDict d =>
      match Dict.get d "name" with
      | Some (VStr s) => s
      | _ => EmptyString
      end
  | _ => EmptyString
  end.

(** [q] is a substring of [s] when the case of the letters is ignored. *)
Definition occurs_ignoring_case (q s : string) : Prop :=
  exists before after, Str.lower s = before +:+ Str.lower q +:+ after.

(** [selected P l l']: [l'] holds exactly the items of [l] that satisfy [P],
    in the order of [l]. *)
Inductive selected (P : value -> Prop) : list value -> list value -> Prop :=
  | selected_nil : selected P [] []
  | selected_keep e l l' : P e -> selected P l l' -> selected P (e :: l) (e :: l')
  | selected_drop e l l' : ~ P e -> selected P l l' -> selected P (e :: l) l'.







(** The operations of the menu, on the roster. *)
Inductive operation : Type :=
  | Add
  | Delete (id : Z)
  | View
  | Search (query : string).

(** One operation: the roster as it stands when the operation returns. *)
Definition perform (op : operation) (employees : list value) : M (list value) :=
  match op with
  | Add => add_employee employees
  | Delete id => '(employees, _) ← delete_by_id employees id; mret employees
  | View => _ ← view_all employees; mret employees
  | Search query => _ ← lift (find_by_name employees query); mret employees
  end.

(** A request to change the roster: an addition, with the three lines the
    user types, or a deletion. *)
Inductive request : Type :=
  | AddRequest (name age department : string)
  | DeleteRequest (id : Z).

Definition serve (r : request) (employees : list value) : M (list value) :=
  match r with
  | AddRequest name age department => fun w =>
      add_employee employees
        {| fs := fs w; stdin := [name; age; department]; stdout := stdout w |}
  | DeleteRequest id => '(employees, _) ← delete_by_id employees id; mret employees
  end.

(** A step of a history: the roster before a request, the request, and the
    roster after it. *)
Definition step : Type := list value * request * list value.

(** The requests served in turn, from a roster; the history is returned. *)
Fixpoint run (requests : list request) (employees : list value)
    : M (list step) :=
  match requests with
  | [] => mret []
  | r :: rest =>
      employees' ← serve r employees;
      history ← run rest employees';
      mret ((employees, r, employees') :: history)
  end.

(** The step assigns the identifier [n]: a record with this identifier was
    appended. *)
Definition assigns (s : step) (n : Z) : Prop :=
  let '(before, r, after) := s in
  exists name age department e,
    r = AddRequest name age department /\
    after = (before ++ [e])%list /\ has_int_id e n.

(** The step deletes the record of identifier [n]. *)
Definition deletes (s : step) (n : Z) : Prop :=
  let '(before, r, after) := s in
  r = DeleteRequest n /\ after <> before.

(** No identifier is assigned after a step that deleted it. *)
Definition never_reused (history : list step) : Prop :=
  forall i j si sj n,
    history !! i = Some si -> history !! j = Some sj -> (i < j)%nat ->
    deletes si n -> ~ assigns sj n.

(** Every identifier assigned is greater than the identifiers of the
    records present when it is assigned. *)
Definition assigned_above_present (history : list step) : Prop :=
  forall s n, In s history -> assigns s n ->
    forall e i, In e s.1.1 -> has_int_id e i -> i < n.

(** A value as a Python program holds it: the keys of a dictionary are
    distinct.  The records [add_employee] builds are of this kind. *)
Fixpoint valid (v : value) : Prop :=
  match v with
  | VList l =>
      (fix all (l : list value) : Prop :=
         match l with
         | [] => True
         | x :: r => valid x /\ all r
         end) l
  | VDict d =>
      NoDup d.*1 /\
      (fix all (d : list (string * value)) : Prop :=
         match d with
         | [] => True
         | kv :: r => valid kv.2 /\ all r
         end) d
  | _ => True
  end.

(** ** Notions used in the proofs of the round trip *)

(** No carriage return in the text. *)
Fixpoint no_cr (s : string) : bool :=
  match s with
  | EmptyString => true
  | String c r => negb (Ascii.eqb c IO.CR) && no_cr r
  end.

(** The characters a JSON value can start with in what the encoder writes. *)
Definition value_head (c : ascii) : bool :=
  Ascii.eqb c Json.QUOTE || Ascii.eqb c "{" || Ascii.eqb c "[" ||
  Ascii.eqb c "n" || Ascii.eqb c "t" || Ascii.eqb c "f" ||
  Ascii.eqb c "-" || Str.isdigit c.

Fixpoint all_chars (q : ascii -> bool) (s : string) : bool :=
  match s with
  | EmptyString => true
  | String c r => q c && all_chars q r
  end.

(** What may follow a number for it to be read whole. *)
Definition ends_number (rest : string) : bool :=
  match rest with
  | EmptyString => true
  | String c _ =>
      negb (Str.isdigit c || Ascii.eqb c "." || Ascii.eqb c "e" || Ascii.eqb c "E")
  end.

(** The scanner reads [x] back from its encoding, whatever follows it. *)
Definition reads_back (x : value) : Prop :=
  forall level rest fuel,
    valid x -> ends_number rest = true ->
    (2 * String.length (Json.encode level x +:+ rest) < fuel)%nat ->
    Json.scan_once fuel (Json.encode level x +:+ rest) = Ok (x, rest, false).

Definition items_text (level : nat) (l : list value) : string :=
  String.concat ("," +:+ Json.newline_indent (S level))
    (map (Json.encode (S level)) l).

Definition members_text (level : nat) (d : list (string * value)) : string :=
  String.concat ("," +:+ Json.newline_indent (S level))
    (map (fun kv => Json.quote kv.1 +:+ ": " +:+ Json.encode (S level) kv.2) d).

(** ** Notions used in the study of the decoders *)

(** The characters of an integer literal. *)
Definition literal_char (c : ascii) : bool :=
  Str.isdigit c || Ascii.eqb c "_" || Ascii.eqb c "-" || Ascii.eqb c "+".

(** A scan that ends well: it returns with less text than it was given, or
    it raises [JSONDecodeError]. *)
Definition scan_ok {A : Type} (s : string) (r : Json.scanned A) : Prop :=
  match r with
  | Ok (_, rest, _) => (String.length rest < String.length s)%nat
  | Raise e => e = JSONDecodeError
  | Unmodelled => False
  end.

(** With [fuel], the three scanners end well on every text that is short
    enough for it. *)
Definition fuel_enough (fuel : nat) : Prop :=
  (forall s, (2 * String.length s < fuel)%nat -> scan_ok s (Json.scan_once fuel s)) /\
  (forall s, (2 * String.length s + 1 < fuel)%nat ->
     scan_ok s (Json.scan_items fuel s)) /\
  (forall s acc, (2 * String.length s + 1 < fuel)%nat ->
     scan_ok s (Json.scan_members fuel s acc)).

(** A decoding of bytes that ends well: only [UnicodeDecodeError] is
    raised. *)
Definition decode_ok (r : result string) : Prop :=
  match r with
  | Ok _ | Unmodelled => True
  | Raise e => e = UnicodeDecodeError
  end.

(** ** Notions used for the prompts, the listing and the menu *)

(** The identifiers increase along the list, from [lo] at least. *)
Fixpoint increasing_from (lo : Z) (ids : list Z) : Prop :=
  match ids with
  | [] => True
  | i :: r => lo <= i /\ increasing_from (i + 1) r
  end.

(** The lines end before [add_employee] has read its three answers: there
    is no line, or an accepted name and nothing else, or an accepted name,
    an accepted age and nothing else. *)
Definition answers_cut_short (lines : list string) : Prop :=
  match lines with
  | [] => True
  | [name_line] => validate_name (Str.strip name_line) = true
  | [name_line; age_line] =>
      validate_name (Str.strip name_line) = true /\
      exists age, validate_age (Str.strip age_line) = Ok (Some age)
  | _ => False
  end.

(** The keys [view_all] and [prompt_search] read in a record. *)
Definition COLUMNS : list string := ["id"; "name"; "age"; "department"].

(** The values the format spec [<width] applies to: strings and numbers. *)
Definition formattable (v : value) : bool :=
  match v with
  | VStr _ | VInt _ | VBool _ => true
  | VNone | VList _ | VDict _ => false
  end.

(** The text with its line feeds written as carriage return and line feed,
    as a text file has them on Windows. *)
Fixpoint crlf (s : string) : string :=
  match s with
  | EmptyString => EmptyString
  | String c r =>
      if Ascii.eqb c IO.LF then String IO.CR (String IO.LF (crlf r))
      else String c (crlf r)
  end.

(** A record of the data model: the four fields, with their types. *)
Definition full_record (e : value) : Prop :=
  exists d id name age department,
    e = VDict d /\
    Dict.get d "id" = Some (VInt id) /\ Dict.get d "name" = Some (VStr name) /\
    Dict.get d "age" = Some (VInt age) /\
    Dict.get d "department" = Some (VStr department).

(** The line of the search for a record of the data model. *)
Definition found_text (e : value) : string :=
  "  id=" +:+ field_text e "id" +:+ " name=" +:+ field_text e "name" +:+
  " age=" +:+ field_text e "age" +:+ " dept=" +:+ field_text e "department".

(** The first of the four keys that a record does not have. *)
Definition missing_key (e : value) : option string :=
  match e with
  | VDict d =>
      List.find (fun k => match Dict.get d k with None => true | Some _ => false end)
        COLUMNS
  | _ => None
  end.

(** What a call that returns leaves: the files as they were, the lines
    [unread] still to read, and [out] written. *)
Definition read_and_written (w : world) (unread out : list string) : world :=
  {| fs := fs w; stdin := unread; stdout := (stdout w ++ out)%list |}.

(** [w'] comes after [w] in a run of the program: the lines still to read
    in [w'] are the last ones of [w], what was written in [w] is still
    there, and no file but the data file differs. *)
Definition follows (w w' : world) : Prop :=
  (exists read, stdin w = (read ++ stdin w')%list) /\
  (exists out, stdout w' = (stdout w ++ out)%list) /\
  (forall path, path <> DATA_FILE -> fs w' !! path = fs w !! path).

(** What [print_menu] writes. *)
Definition menu_text (dash : string) : list string :=
  [IO.line (String IO.LF ("Employee Manager " +:+ dash +:+ " Choose an option:"));
   IO.line "1. Add employee"; IO.line "2. View all"; IO.line "3. Search by name";
   IO.line "4. Delete by id"; IO.line "5. Exit"].

(** The line, once trimmed, is the choice [c] of the menu. *)
Definition chooses (c : string) (line : string) : Prop := Str.strip line = c.

(** The world after the menu was printed and a choice was read, [unread]
    being the lines left. *)
Definition asked (dash : string) (w : world) (unread : list string) : world :=
  read_and_written w unread (menu_text dash ++ ["Choice: "]).

(** A turn of the loop of [main] that does not leave it: the roster and the
    world at the beginning of the turn, and at its end. *)
Inductive turn (dash : string) (employees : list value) (w : world)
    : list value -> world -> Prop :=
  | turn_add line unread employees' w' :
      stdin w = line :: unread -> chooses "1" line ->
      add_employee employees (asked dash w unread) = Ok (employees', w') ->
      turn dash employees w employees' w'
  | turn_view line unread w' :
      stdin w = line :: unread -> chooses "2" line ->
      view_all employees (asked dash w unread) = Ok (tt, w') ->
      turn dash employees w employees w'
  | turn_search line unread w' :
      stdin w = line :: unread -> chooses "3" line ->
      prompt_search employees (asked dash w unread) = Plain (Ok (tt, w')) ->
      turn dash employees w employees w'
  | turn_delete line unread employees' w' :
      stdin w = line :: unread -> chooses "4" line ->
      prompt_delete employees (asked dash w unread) = Ok (employees', w') ->
      turn dash employees w employees' w'
  | turn_invalid line unread :
      stdin w = line :: unread ->
      ~ In (Str.strip line) ["1"; "2"; "3"; "4"; "5"] ->
      turn dash employees w employees
        (written (asked dash w unread) [IO.line "Invalid choice. Enter 1-5."]).

(** An outcome that is no return: an exception, or data outside the
    model. *)
Definition failed {A : Type} (o : outcome A) : Prop :=
  match o with
  | Plain (Ok _) | Unfinished => False
  | _ => True
  end.

(** [add_employee] called [n] times in a row. *)
Fixpoint add_repeatedly (n : nat) (employees : list value) : M (list value) :=
  match n with
  | O => mret employees
  | S m => employees ← add_employee employees; add_repeatedly m employees
  end.

(** Three lines that [add_employee] accepts: a name, an age, a
    department. *)
Definition accepted (lines : string * string * string) : Prop :=
  let '(name, age, department) := lines in
  Str.strip name <> EmptyString /\
  exists n, Str.int (Str.strip age) = Ok n /\ 15 <= n <= 100.

(** The lines of the answers, in the order they are typed. *)
Definition typed (answers : list (string * string * string)) : list string :=
  flat_map (fun '(name, age, department) => [name; age; department]) answers.

(** The identifiers from [k + 1] to [k + n]. *)
Definition numbered_from (k n : nat) : list Z := map Z.of_nat (seq (S k) n).

(** What the three scanners return holds dictionaries with distinct keys
    only. *)
Definition scans_valid (fuel : nat) : Prop :=
  (forall s v rest out, Json.scan_once fuel s = Ok (v, rest, out) -> valid v) /\
  (forall s l rest out, Json.scan_items fuel s = Ok (l, rest, out) -> Forall valid l) /\
  (forall s acc d rest out,
     NoDup acc.*1 -> Forall (fun kv => valid kv.2) acc ->
     Json.scan_members fuel s acc = Ok (d, rest, out) ->
     NoDup d.*1 /\ Forall (fun kv => valid kv.2) d).

(** * Properties *)

#[local] Arguments String.append !_ _ / : simpl nomatch.

(** ** The runtime functions on examples *)

Example strip_example :
  Str.strip ("  Bob Ray" +:+ String "009" " ") = "Bob Ray" /\
  Str.strip "   " = EmptyString /\
  Str.lower "Alice O'Neil" = "alice o'neil".
Proof. repeat split. Qed.

Example int_example :
  Str.int " +1_0 " = Ok 10 /\ Str.int "1__0" = Raise ValueError /\
  Str.int "-0" = Ok 0 /\ Str.int "007" = Ok 7 /\ Str.int "" = Raise ValueError /\
  Str.int "- 5" = Raise ValueError /\ Str.int "-17" = Ok (-17) /\
  Str.int "12.5" = Raise ValueError /\
  Str.of_int (-5) = "-5" /\ Str.of_int 0 = "0" /\ Str.of_int 120 = "120".
Proof. repeat split. Qed.

Example loads_example :
  Json.loads "not json" = Raise JSONDecodeError /\
  Json.loads "{}" = Ok (VDict []) /\
  Json.loads " [1, [true, null], -20] " =
    Ok (VList [VInt 1; VList [VBool true; VNone]; VInt (-20)]) /\
  Json.loads "[1,]" = Raise JSONDecodeError /\
  Json.loads "[1.5]" = Unmodelled /\
  Json.loads (Json.dumps (VDict [("name", VStr "Bob"); ("id", VInt 1)]))
    = Ok (VDict [("name", VStr "Bob"); ("id", VInt 1)]).
Proof. repeat split; vm_compute; reflexivity. Qed.

(** The scenario of the specification: Bob and Amy are added to the empty
    roster, Amy without a department; Bob is deleted, then asked for
    again. *)
Example scenario :
  match
    run [AddRequest "Bob" "30" "Eng"; AddRequest "Amy" "25" "";
         DeleteRequest 1; DeleteRequest 1] []
      {| fs := ∅; stdin := []; stdout := [] |}
  with
  | Ok (history, w') =>
      history
      = [([], AddRequest "Bob" "30" "Eng", [employee 1 "Bob" 30 "Eng"]);
         ([employee 1 "Bob" 30 "Eng"], AddRequest "Amy" "25" "",
          [employee 1 "Bob" 30 "Eng"; employee 2 "Amy" 25 "General"]);
         ([employee 1 "Bob" 30 "Eng"; employee 2 "Amy" 25 "General"],
          DeleteRequest 1, [employee 2 "Amy" 25 "General"]);
         ([employee 2 "Amy" 25 "General"], DeleteRequest 1,
          [employee 2 "Amy" 25 "General"])] /\
      load_data DATA_FILE w' = Ok ([employee 2 "Amy" 25 "General"], w')
  | _ => False
  end.
Proof. vm_compute. split; reflexivity. Qed.

(** ** Age validation *)

Lemma int_returns_or_value_error (s : string) :
  (exists n, Str.int s = Ok n) \/ Str.int s = Raise ValueError.
Proof.
  unfold Str.int.
  destruct (Str.split_sign (Str.trim Str.int_isspace s)) as [neg body].
  destruct (Str.int_body false body ≫= Str.digits_value); eauto.
Qed.

(** C4. [validate_age] returns an age exactly for the strings that [int]
    reads as an integer between 15 and 100, both included; for every other
    string it returns [None], whether the string is no integer or the
    integer is out of range.  It never raises.  In particular "17" and "18"
    are accepted, and "14", "101" and "abc" are not. *)
Theorem validate_age_spec (age_str : string) :
  (forall n, validate_age age_str = Ok (Some n) <->
             Str.int age_str = Ok n /\ 15 <= n <= 100) /\
  (validate_age age_str = Ok None <->
     ~ exists n, Str.int age_str = Ok n /\ 15 <= n <= 100) /\
  (validate_age age_str = Ok None \/ exists n, validate_age age_str = Ok (Some n)) /\
  validate_age "17" = Ok (Some 17) /\ validate_age "18" = Ok (Some 18) /\
  validate_age "14" = Ok None /\ validate_age "101" = Ok None /\
  validate_age "abc" = Ok None.
Proof.
  assert (Hrange : forall n, (15 <=? n) && (n <=? 100) = true <-> 15 <= n <= 100).
  { intros n. rewrite andb_true_iff, !Z.leb_le. tauto. }
  split; [|split; [|split]]; [| | |repeat split].
  - intros n. unfold validate_age.
    destruct (int_returns_or_value_error age_str) as [[m Hm] | Hm]; rewrite Hm.
    + destruct ((15 <=? m) && (m <=? 100)) eqn:Hb.
      * apply Hrange in Hb. split.
        -- intros [= <-]. auto.
        -- intros [[= <-] _]. reflexivity.
      * split; [discriminate|].
        intros [[= <-] Hr]. apply Hrange in Hr. congruence.
    + split; [discriminate | intros [[=] _]].
  - unfold validate_age.
    destruct (int_returns_or_value_error age_str) as [[m Hm] | Hm]; rewrite Hm.
    + destruct ((15 <=? m) && (m <=? 100)) eqn:Hb.
      * apply Hrange in Hb. split; [discriminate|].
        intros Hn. exfalso. apply Hn. eauto.
      * split; [|reflexivity].
        intros _ [n [[= <-] Hr]]. apply Hrange in Hr. congruence.
    + split; [|reflexivity]. intros _ [n [[=] _]].
  - unfold validate_age.
    destruct (int_returns_or_value_error age_str) as [[m Hm] | Hm]; rewrite Hm.
    + destruct ((15 <=? m) && (m <=? 100)); eauto.
    + auto.
Qed.

(** ** Trimming *)

Lemma drop_end_while_idem (p : ascii -> bool) (s : string) :
  Str.drop_end_while p (Str.drop_end_while p s) = Str.drop_end_while p s.
Proof.
  induction s as [|c r IH]; simpl; [reflexivity|].
  destruct (Str.drop_end_while p r) as [|c' r'] eqn:Hr.
  - destruct (p c) eqn:Hc; simpl; [reflexivity|]. now rewrite Hc.
  - simpl in *. now rewrite IH.
Qed.

Lemma drop_end_while_head (p : ascii -> bool) (c : ascii) (r : string) :
  p c = false -> exists r', Str.drop_end_while p (String c r) = String c r'.
Proof.
  intros Hc. simpl. destruct (Str.drop_end_while p r); rewrite ?Hc; eauto.
Qed.

Lemma drop_while_head (p : ascii -> bool) (s : string) (c : ascii) (r : string) :
  Str.drop_while p s = String c r -> p c = false.
Proof.
  induction s as [|c' r' IH]; simpl; [discriminate|].
  destruct (p c') eqn:Hc; [exact IH|]. intros [= -> _]. exact Hc.
Qed.

Lemma trim_idem (p : ascii -> bool) (s : string) :
  Str.trim p (Str.trim p s) = Str.trim p s.
Proof.
  unfold Str.trim.
  destruct (Str.drop_while p s) as [|c r] eqn:Hs; [reflexivity|].
  apply drop_while_head in Hs.
  destruct (drop_end_while_head p c r Hs) as [r' Hr'].
  rewrite Hr'. simpl Str.drop_while. rewrite Hs, <- Hr'.
  apply drop_end_while_idem.
Qed.

Lemma strip_idem (s : string) : Str.strip (Str.strip s) = Str.strip s.
Proof. apply trim_idem. Qed.

Lemma validate_name_stripped (line : string) :
  validate_name (Str.strip line) = true <-> Str.strip line <> EmptyString.
Proof.
  unfold validate_name. rewrite strip_idem.
  destruct (Str.strip line); simpl; split; congruence.
Qed.

(** ** The next identifier *)

Lemma get_id_view (e : value) (i : Z) :
  id_view e i -> Py.get e "id" (VInt 0) = Ok (VInt i).
Proof.
  intros (d & -> & [H | [H ->]]); simpl; now rewrite H.
Qed.

Lemma max_from_ids (es : list value) (ids : list Z) (h : Z) :
  Forall2 id_view es ids ->
  Py.max_from (fun e => Py.get e "id" (VInt 0)) (VInt h) es
  = Ok (VInt (fold_left Z.max ids h)).
Proof.
  intros H. revert h. induction H as [|e i es ids He _ IH]; intros h; simpl.
  - reflexivity.
  - rewrite (get_id_view e i He). simpl.
    replace (if i >? h then VInt i else VInt h) with (VInt (Z.max h i)).
    + apply IH.
    + destruct (Z.gtb_spec i h); f_equal; lia.
Qed.

Lemma fold_max_greatest (ids : list Z) (h : Z) :
  (fold_left Z.max ids h = h \/ In (fold_left Z.max ids h) ids) /\
  h <= fold_left Z.max ids h /\
  Forall (fun i => i <= fold_left Z.max ids h) ids.
Proof.
  revert h. induction ids as [|i ids IH]; intros h; simpl.
  - repeat split; [auto | lia | constructor].
  - destruct (IH (Z.max h i)) as (Hin & Hle & Hall).
    repeat split.
    + destruct Hin as [Heq | Hin]; [|auto].
      rewrite Heq. destruct (Z.max_spec h i) as [[_ ->] | [_ ->]]; auto.
    + lia.
    + constructor; [lia | exact Hall].
Qed.

Lemma next_id_spec (es : list value) (ids : list Z) :
  Forall2 id_view es ids ->
  exists m, greatest ids m /\ next_id es = Ok (1 + m).
Proof.
  intros H. unfold next_id, Py.max_default.
  destruct H as [|e i es ids He Hes].
  - exists 0. split; reflexivity.
  - exists (fold_left Z.max ids i).
    destruct (fold_max_greatest ids i) as (Hin & Hle & Hall).
    split.
    + split; [|constructor; assumption].
      destruct Hin as [-> | Hin]; [left; reflexivity | right; exact Hin].
    + simpl. rewrite (get_id_view e i He). simpl.
      rewrite (max_from_ids es ids i Hes). reflexivity.
Qed.

(** ** Adding an employee *)

Lemma has_int_id_view (e : value) (i : Z) : has_int_id e i -> id_view e i.
Proof. intros (d & -> & H). exists d. auto. Qed.

(** The run of [add_employee] on valid input, for a roster whose records
    are dictionaries with an integer identifier or none. *)
Lemma add_employee_returns (employees : list value) (ids : list Z)
    (name_line age_line dept_line : string) (age : Z) (w : world)
    (unread : list string) :
  Forall2 id_view employees ids ->
  Str.strip name_line <> EmptyString ->
  Str.int (Str.strip age_line) = Ok age -> 15 <= age <= 100 ->
  stdin w = name_line :: age_line :: dept_line :: unread ->
  fs w !! DATA_FILE <> Some Directory ->
  exists m, greatest ids m /\
    let dept := if String.eqb (Str.strip dept_line) EmptyString
                then "General" else Str.strip dept_line in
    let employees' :=
      (employees ++ [employee (1 + m) (Str.strip name_line) age dept])%list in
    add_employee employees w
    = Ok (employees',
          after w DATA_FILE (saved employees') unread
            ["Enter name: "; "Enter age (15-100): "; "Enter department: ";
             IO.line ("Added employee " +:+ Str.strip name_line +:+ " (id=" +:+
                        Str.of_int (1 + m) +:+ ").")]).
Proof.
  intros Hids Hname Hint Hage Hin Hfs.
  destruct (next_id_spec employees ids Hids) as (m & Hm & Hnext).
  exists m. split; [exact Hm|].
  destruct w as [fs0 in0 out0]. simpl in Hin, Hfs. subst in0.
  apply validate_name_stripped in Hname.
  assert (Hrange : (15 <=? age) && (age <=? 100) = true).
  { apply andb_true_iff. rewrite !Z.leb_le. lia. }
  unfold add_employee, mbind, M_bind, IO.input. cbn [stdin fs stdout].
  rewrite Hname. cbn [negb stdin fs stdout].
  unfold validate_age, lift. rewrite Hint, Hrange, Hnext.
  unfold save_data, IO.write_text, IO.print, mret, M_ret. cbn [stdin fs stdout].
  unfold employee, after, saved. cbn [stdin fs stdout].
  destruct (fs0 !! DATA_FILE) as [[]|]; [| congruence |];
    cbn [stdin fs stdout]; rewrite <- !app_assoc; reflexivity.
Qed.

(** C1. On a roster of records with integer identifiers, with a name whose
    trimmed form is not empty, an age line whose trimmed form [int] reads as
    an integer between 15 and 100 (every line that [int] reads is such a
    line, see [int_strip]), and any department line, [add_employee]
    returns with exactly one record appended at the end: its identifier is
    one more than the greatest identifier of the roster (1 for the empty
    roster), its name is the trimmed name, its age the integer read, its
    department the trimmed department, or "General" when that is empty.
    The new roster is what the data file then holds, and the identifier is
    reported. *)
Theorem add_employee_appends (employees : list value) (ids : list Z)
    (name_line age_line dept_line : string) (age : Z) (w : world)
    (unread : list string) :
  Forall2 has_int_id employees ids ->
  Str.strip name_line <> EmptyString ->
  Str.int (Str.strip age_line) = Ok age -> 15 <= age <= 100 ->
  stdin w = name_line :: age_line :: dept_line :: unread ->
  fs w !! DATA_FILE <> Some Directory ->
  exists m, greatest ids m /\
    let dept := if String.eqb (Str.strip dept_line) EmptyString
                then "General" else Str.strip dept_line in
    let employees' :=
      (employees ++ [employee (1 + m) (Str.strip name_line) age dept])%list in
    add_employee employees w
    = Ok (employees',
          after w DATA_FILE (saved employees') unread
            ["Enter name: "; "Enter age (15-100): "; "Enter department: ";
             IO.line ("Added employee " +:+ Str.strip name_line +:+ " (id=" +:+
                        Str.of_int (1 + m) +:+ ").")]).
Proof.
  intros Hids. apply add_employee_returns.
  eapply Forall2_impl; [exact Hids|]. apply has_int_id_view.
Qed.

Lemma add_employee_appends_witness :
  exists m, greatest [1; 4] m /\
    add_employee [employee 1 "Bob" 30 "Eng"; employee 4 "Cy" 41 "Ops"]
      {| fs := ∅; stdin := [" Amy "; " 25"; "  "; "2"]; stdout := [] |}
    = Ok ([employee 1 "Bob" 30 "Eng"; employee 4 "Cy" 41 "Ops";
           employee (1 + m) "Amy" 25 "General"],
          after {| fs := ∅; stdin := [" Amy "; " 25"; "  "; "2"]; stdout := [] |}
            DATA_FILE
            (saved [employee 1 "Bob" 30 "Eng"; employee 4 "Cy" 41 "Ops";
                    employee (1 + m) "Amy" 25 "General"])
            ["2"]
            ["Enter name: "; "Enter age (15-100): "; "Enter department: ";
             IO.line ("Added employee Amy (id=" +:+ Str.of_int (1 + m) +:+ ").")]).
Proof.
  apply (add_employee_appends
           [employee 1 "Bob" 30 "Eng"; employee 4 "Cy" 41 "Ops"] [1; 4]
           " Amy " " 25" "  " 25
           {| fs := ∅; stdin := [" Amy "; " 25"; "  "; "2"]; stdout := [] |}
           ["2"]).
  - repeat constructor; eexists; (split; [reflexivity|reflexivity]).
  - vm_compute. discriminate.
  - reflexivity.
  - lia.
  - reflexivity.
  - simpl. rewrite lookup_empty. discriminate.
Defined.

(** ** Deleting by identifier *)

Lemma get_id_is (e : value) (target : Z) :
  is_dict e ->
  exists v, Py.get e "id" VNone = Ok v /\ Py.eq v (VInt target) = id_is e target.
Proof.
  intros [d ->]. simpl. destruct (Dict.get d "id"); simpl; eauto.
Qed.

Lemma has_int_id_is (e : value) (i target : Z) :
  has_int_id e i -> id_is e target = (i =? target).
Proof. intros (d & -> & H). simpl. now rewrite H. Qed.

Lemma delete_loop_found (w : world) (target : Z) (e : value)
    (post pre done : list value) :
  Forall is_dict pre -> Forall (fun x => id_is x target = false) pre ->
  is_dict e -> id_is e target = true ->
  fs w !! DATA_FILE <> Some Directory ->
  delete_loop (done ++ pre ++ e :: post) (length done) (pre ++ e :: post) target w
  = Ok ((done ++ pre ++ post)%list, true,
        after w DATA_FILE (saved (done ++ pre ++ post)) (stdin w) []).
Proof.
  intros Hd Hpre He Hm Hfs. revert done.
  induction pre as [|x pre IH]; intros done.
  - cbn [app delete_loop]. unfold mbind, M_bind, lift.
    destruct (get_id_is e target He) as (v & -> & ->). rewrite Hm.
    rewrite delete_middle.
    unfold save_data, IO.write_text, mret, M_ret, after, saved.
    destruct w as [fs0 in0 out0]. cbn [fs stdin stdout] in *.
    rewrite app_nil_r.
    destruct (fs0 !! DATA_FILE) as [[]|]; [reflexivity | congruence | reflexivity].
  - inversion Hd as [|? ? Hx Hd']; subst. inversion Hpre as [|? ? Hx' Hpre']; subst.
    cbn [app delete_loop]. unfold mbind at 1, M_bind at 1, lift.
    destruct (get_id_is x target Hx) as (v & -> & ->). rewrite Hx'.
    specialize (IH Hd' Hpre' (done ++ [x])%list).
    rewrite <- !app_assoc, length_app in IH. cbn [app length] in IH.
    rewrite Nat.add_1_r in IH. exact IH.
Qed.

Lemma delete_loop_not_found (w : world) (target : Z) (employees todo : list value)
    (i : nat) :
  Forall is_dict todo -> Forall (fun x => id_is x target = false) todo ->
  delete_loop employees i todo target w = Ok (employees, false, w).
Proof.
  intros Hd. revert i. induction Hd as [|x todo Hx _ IH]; intros i Hno.
  - reflexivity.
  - inversion Hno as [|? ? Hx' Hno']; subst.
    cbn [delete_loop]. unfold mbind, M_bind, lift.
    destruct (get_id_is x target Hx) as (v & -> & ->). rewrite Hx'.
    apply IH, Hno'.
Qed.

(** C8. On a roster of dictionaries: when some record has the target
    identifier, [delete_by_id] removes the first such record and no other
    (the records before and after it are kept, in order), writes the new
    roster to the data file and returns [True]; when no record has it, the
    call returns [False] with the roster and the files as they were. *)
Theorem delete_by_id_spec (employees : list value) (target : Z) (w : world) :
  Forall is_dict employees ->
  (forall pre e post,
     employees = (pre ++ e :: post)%list ->
     Forall (fun x => id_is x target = false) pre ->
     id_is e target = true ->
     fs w !! DATA_FILE <> Some Directory ->
     delete_by_id employees target w
     = Ok ((pre ++ post)%list, true,
           after w DATA_FILE (saved (pre ++ post)) (stdin w) [])) /\
  (Forall (fun x => id_is x target = false) employees ->
   delete_by_id employees target w = Ok (employees, false, w)).
Proof.
  intros Hd. split.
  - intros pre e post -> Hpre Hm Hfs.
    apply Forall_app in Hd as [Hd1 Hd2]. inversion Hd2; subst.
    apply (delete_loop_found w target e post pre []); assumption.
  - intros Hno. apply delete_loop_not_found; assumption.
Qed.

Lemma delete_by_id_spec_witness :
  delete_by_id [employee 1 "Bob" 30 "Eng"; employee 2 "Amy" 25 "General";
                employee 3 "Cy" 41 "Ops"] 2
    {| fs := ∅; stdin := []; stdout := [] |}
  = Ok ([employee 1 "Bob" 30 "Eng"; employee 3 "Cy" 41 "Ops"], true,
        after {| fs := ∅; stdin := []; stdout := [] |} DATA_FILE
          (saved [employee 1 "Bob" 30 "Eng"; employee 3 "Cy" 41 "Ops"]) [] []) /\
  delete_by_id [employee 1 "Bob" 30 "Eng"; employee 3 "Cy" 41 "Ops"] 2
    {| fs := ∅; stdin := []; stdout := [] |}
  = Ok ([employee 1 "Bob" 30 "Eng"; employee 3 "Cy" 41 "Ops"], false,
        {| fs := ∅; stdin := []; stdout := [] |}).
Proof.
  split.
  - apply (proj1 (delete_by_id_spec
             [employee 1 "Bob" 30 "Eng"; employee 2 "Amy" 25 "General";
              employee 3 "Cy" 41 "Ops"] 2
             {| fs := ∅; stdin := []; stdout := [] |}
             ltac:(repeat constructor; eexists; reflexivity))
           [employee 1 "Bob" 30 "Eng"] (employee 2 "Amy" 25 "General")
           [employee 3 "Cy" 41 "Ops"]).
    + reflexivity.
    + repeat constructor.
    + reflexivity.
    + simpl. rewrite lookup_empty. discriminate.
  - apply (proj2 (delete_by_id_spec
             [employee 1 "Bob" 30 "Eng"; employee 3 "Cy" 41 "Ops"] 2
             {| fs := ∅; stdin := []; stdout := [] |}
             ltac:(repeat constructor; eexists; reflexivity))).
    repeat constructor.
Defined.

(** The menu entry: an identifier that [int] does not read, and an
    identifier no record has, are reported and change nothing. *)
Lemma prompt_delete_invalid_id (employees : list value) (w : world)
    (line : string) (unread : list string) :
  stdin w = line :: unread ->
  Str.int (Str.strip line) = Raise ValueError ->
  prompt_delete employees w
  = Ok (employees,
        {| fs := fs w; stdin := unread;
           stdout := stdout w ++ ["Enter id to delete: "; IO.line "Invalid id."] |}).
Proof.
  intros Hin Hint. destruct w as [f i o]. cbn [stdin] in Hin. subst i.
  unfold prompt_delete, mbind, M_bind, IO.input. cbn [stdin fs stdout].
  rewrite Hint. unfold IO.print, mret, M_ret. cbn [stdin fs stdout].
  now rewrite <- app_assoc.
Qed.

Lemma prompt_delete_not_found (employees : list value) (w : world)
    (line : string) (unread : list string) (target : Z) :
  Forall is_dict employees ->
  stdin w = line :: unread ->
  Str.int (Str.strip line) = Ok target ->
  Forall (fun x => id_is x target = false) employees ->
  prompt_delete employees w
  = Ok (employees,
        {| fs := fs w; stdin := unread;
           stdout := stdout w ++ ["Enter id to delete: ";
                                  IO.line "No employee with that id."] |}).
Proof.
  intros Hd Hin Hint Hno. destruct w as [f i o]. cbn [stdin] in Hin. subst i.
  unfold prompt_delete, mbind, M_bind, IO.input. cbn [stdin fs stdout].
  rewrite Hint. unfold delete_by_id.
  rewrite (delete_loop_not_found _ target employees employees 0 Hd Hno).
  unfold IO.print, mret, M_ret. cbn [stdin fs stdout].
  now rewrite <- app_assoc.
Qed.

(** Outside the rosters of dictionaries the scan fails, and the equality
    of identifiers is that of Python, for which [True] is 1. *)
Example delete_by_id_not_dict (w : world) :
  delete_by_id [VInt 5] 1 w = Raise AttributeError.
Proof. reflexivity. Qed.

Example delete_by_id_true_is_one :
  id_is (VDict [("id", VBool true)]) 1 = true.
Proof. reflexivity. Qed.

(** ** Listing *)

Lemma written_nil (w : world) : written w [] = w.
Proof. destruct w. unfold written. simpl. now rewrite app_nil_r. Qed.

Lemma written_written (w : world) (o1 o2 : list string) :
  written (written w o1) o2 = written w (o1 ++ o2).
Proof. unfold written. simpl. now rewrite app_assoc. Qed.

Lemma print_written (s : string) (w : world) :
  IO.print s w = Ok (tt, written w [IO.line s]).
Proof. reflexivity. Qed.

Lemma cell_text (d : list (string * value)) (k : string) (width : nat)
    (p : value -> Prop) :
  field_has p d k -> (p = is_int \/ p = is_str) ->
  cell (VDict d) k width = Ok (Str.ljust width (field_text (VDict d) k)).
Proof.
  intros Hf Hp. unfold cell, field_text, field_has in *. simpl.
  destruct (Dict.get d k) as [v|]; [|reflexivity].
  destruct Hp as [-> | ->]; destruct (Hf v eq_refl) as [x ->]; reflexivity.
Qed.

Lemma table_row_rendered (e : value) :
  partial_record e -> table_row e = Ok (rendered_row e).
Proof.
  intros (d & -> & H1 & H2 & H3 & H4). unfold table_row.
  rewrite (cell_text d "id" 4 is_int H1 (or_introl eq_refl)).
  rewrite (cell_text d "name" 20 is_str H2 (or_intror eq_refl)).
  rewrite (cell_text d "age" 4 is_int H3 (or_introl eq_refl)).
  rewrite (cell_text d "department" 15 is_str H4 (or_intror eq_refl)).
  reflexivity.
Qed.

Lemma print_rows_rendered (employees : list value) (w : world) :
  Forall partial_record employees ->
  print_rows employees w
  = Ok (tt, written w (map (fun e => IO.line (rendered_row e)) employees)).
Proof.
  intros H. revert w. induction H as [|e es He _ IH]; intros w.
  - simpl. unfold mret, M_ret. now rewrite written_nil.
  - cbn [print_rows map]. unfold mbind, M_bind, lift.
    rewrite (table_row_rendered e He), print_written, IH, written_written.
    reflexivity.
Qed.

(** C9. [view_all] does not fail on records with missing fields: for a
    roster of records in which any of the four fields may be missing, it
    returns and has written the listing of the specification, in which a
    missing field is an empty text in its column; for the empty roster it
    writes "No employees." and no table. *)
Theorem view_all_renders (employees : list value) (w : world) :
  Forall partial_record employees ->
  view_all employees w
  = Ok (tt, written w match employees with
                      | [] => [IO.line "No employees."]
                      | _ => rendered_table employees
                      end) /\
  (forall d k, Dict.get d k = None ->
     field_text (VDict d) k = EmptyString /\
     forall width, Str.ljust width (field_text (VDict d) k) = Str.spaces width).
Proof.
  intros H. split.
  - destruct employees as [|e es]; [reflexivity|].
    unfold view_all, mbind, M_bind.
    rewrite !print_written, (print_rows_rendered _ _ H), print_written.
    rewrite !written_written. reflexivity.
  - intros d k Hk. unfold field_text. rewrite Hk. split; [reflexivity|].
    intros width. unfold Str.ljust. simpl. now rewrite Nat.sub_0_r.
Qed.

Lemma view_all_renders_witness :
  view_all [VDict []; VDict [("name", VStr "Amy"); ("id", VInt 7)]]
    {| fs := ∅; stdin := []; stdout := [] |}
  = Ok (tt, {| fs := ∅; stdin := [];
               stdout := [IO.line RULE; IO.line HEADER; IO.line RULE;
                          IO.line (Str.spaces 46);
                          IO.line ("7    Amy" +:+ Str.spaces 38);
                          IO.line RULE] |}).
Proof.
  apply (proj1 (view_all_renders
                  [VDict []; VDict [("name", VStr "Amy"); ("id", VInt 7)]]
                  {| fs := ∅; stdin := []; stdout := [] |}
                  ltac:(repeat constructor; eexists; (split; [reflexivity|]);
                        repeat split; intros v [=]; subst; eexists; reflexivity))).
Defined.

(** A field that is present with another type is not covered: [None]
    cannot be formatted with a width. *)
Example view_all_null_field (w : world) :
  view_all [VDict [("id", VNone)]] w = Raise TypeError.
Proof. reflexivity. Qed.

(** ** Searching by name *)

Lemma prefix_spec (n h : string) :
  String.prefix n h = true <-> exists post, h = n +:+ post.
Proof.
  revert h. induction n as [|a n IH]; intros h; simpl.
  - split; [intros _; exists h; reflexivity | intros _; destruct h; reflexivity].
  - destruct h as [|b h]; simpl.
    + split; [discriminate | intros [post [=]]].
    + destruct (ascii_dec a b) as [-> | Hab].
      * rewrite IH. split; intros [post Hp]; exists post;
          [subst; reflexivity | simpl in Hp; congruence].
      * split; [discriminate | intros [post Hp]; simpl in Hp; congruence].
Qed.

Lemma contains_spec (n h : string) :
  Str.contains n h = true <-> exists pre post, h = pre +:+ n +:+ post.
Proof.
  induction h as [|c h IH]; cbn [Str.contains].
  - rewrite orb_false_r, prefix_spec. split.
    + intros [post ->]. exists EmptyString, post. reflexivity.
    + intros (pre & post & H). destruct pre; [eauto | discriminate].
  - rewrite orb_true_iff, prefix_spec, IH. split.
    + intros [[post ->] | (pre & post & ->)].
      * exists EmptyString, post. reflexivity.
      * exists (String c pre), post. reflexivity.
    + intros (pre & post & H). destruct pre as [|c' pre]; simpl in H.
      * left. eauto.
      * right. injection H as _ ->. eauto.
Qed.


Lemma selected_unique (P : value -> Prop) (l l1 l2 : list value) :
  selected P l l1 -> selected P l l2 -> l1 = l2.
Proof.
  intros H1. revert l2.
  induction H1; intros l2 H2; inversion H2; subst;
    try reflexivity; try contradiction; try (f_equal; auto); auto.
Qed.

Lemma selected_elem (P : value -> Prop) (l l' : list value) :
  selected P l l' -> forall e, In e l' <-> In e l /\ P e.
Proof.
  induction 1 as [|e l l' He _ IH|e l l' He _ IH]; intros x; simpl.
  - tauto.
  - rewrite IH. split.
    + intros [<- | [? ?]]; auto.
    + intros [[<- | ?] ?]; auto.
  - rewrite IH. split.
    + intros [? ?]; auto.
    + intros [[<- | ?] ?]; [contradiction | auto].
Qed.


Lemma name_test (e : value) (q : string) :
  named e ->
  (n ← Py.get e "name" (VStr EmptyString);
   l ← Py.lower n;
   Ok (Str.contains (Str.lower q) l))
  = Ok (Str.contains (Str.lower q) (Str.lower (name_of e))).
Proof.
  intros (d & -> & Hf). unfold name_of. simpl. unfold field_has in Hf.
  destruct (Dict.get d "name") as [v|]; [|reflexivity].
  destruct (Hf v eq_refl) as [s ->]. reflexivity.
Qed.

(** *** Letters and their lower case *)





















(** A name that is not a string is not covered: it has no [lower]. *)
Example find_by_name_number_name :
  find_by_name [VDict [("name", VInt 5)]] EmptyString = Raise AttributeError.
Proof. reflexivity. Qed.

(** ** Identifiers stay distinct *)

Lemma add_employee_cases (employees : list value) (ids : list Z) (w : world)
    (employees' : list value) (w' : world) :
  Forall2 id_view employees ids ->
  add_employee employees w = Ok (employees', w') ->
  employees' = employees \/
  exists m name age dept,
    greatest ids m /\ employees' = (employees ++ [employee (1 + m) name age dept])%list.
Proof.
  intros Hids H.
  destruct (next_id_spec employees ids Hids) as (m & Hm & Hnext).
  destruct w as [f i o].
  unfold add_employee, mbind, M_bind, IO.input, IO.print, lift, mret, M_ret in H.
  cbn [stdin fs stdout] in H.
  destruct i as [|l1 i]; [discriminate|].
  destruct (validate_name (Str.strip l1)); cbn [negb stdin fs stdout] in H.
  2:{ injection H as <- _. auto. }
  destruct i as [|l2 i]; [discriminate|].
  destruct (validate_age (Str.strip l2)) as [[age|]| |]; try discriminate.
  2:{ injection H as <- _. auto. }
  cbn [stdin fs stdout] in H.
  destruct i as [|l3 i]; [discriminate|].
  rewrite Hnext in H.
  destruct (save_data _ _ _) as [[[] w1]| |]; try discriminate.
  injection H as <- _. right. eauto 10.
Qed.

Lemma add_employee_total (employees : list value) (ids : list Z) (w : world)
    (l1 l2 l3 : string) (unread : list string) :
  Forall2 id_view employees ids ->
  stdin w = l1 :: l2 :: l3 :: unread ->
  fs w !! DATA_FILE <> Some Directory ->
  exists employees' w',
    add_employee employees w = Ok (employees', w') /\
    fs w' !! DATA_FILE <> Some Directory.
Proof.
  intros Hids Hin Hfs.
  destruct (next_id_spec employees ids Hids) as (m & Hm & Hnext).
  destruct w as [f i o]. cbn [stdin fs] in Hin, Hfs. subst i.
  unfold add_employee, mbind, M_bind, IO.input, IO.print, lift, mret, M_ret.
  cbn [stdin fs stdout].
  destruct (validate_name (Str.strip l1)); cbn [negb stdin fs stdout].
  2:{ eauto. }
  unfold validate_age.
  destruct (int_returns_or_value_error (Str.strip l2)) as [[n ->] | ->].
  2:{ eauto. }
  destruct ((15 <=? n) && (n <=? 100)); cbn [stdin fs stdout].
  2:{ eauto. }
  rewrite Hnext. unfold save_data, IO.write_text. cbn [stdin fs stdout].
  destruct (f !! DATA_FILE) as [[]|] eqn:Hf; [| congruence |];
    cbn [stdin fs stdout]; do 2 eexists; (split; [reflexivity|]);
    cbn [fs]; rewrite lookup_insert_eq; discriminate.
Qed.

Lemma delete_loop_cases (employees todo : list value) (i : nat) (target : Z)
    (w : world) (employees' : list value) (b : bool) (w' : world) :
  delete_loop employees i todo target w = Ok (employees', b, w') ->
  employees' = employees \/ exists j, employees' = delete j employees.
Proof.
  revert i. induction todo as [|e todo IH]; intros i H.
  - injection H as <- _ _. auto.
  - cbn [delete_loop] in H. unfold mbind, M_bind, lift in H.
    destruct (Py.get e "id" VNone) as [v| |]; try discriminate.
    destruct (Py.eq v (VInt target)).
    + destruct (save_data _ _ _) as [[[] w1]| |]; try discriminate.
      injection H as <- _ _. eauto.
    + eapply IH, H.
Qed.

Lemma delete_loop_total (employees todo : list value) (i : nat) (target : Z)
    (w : world) :
  Forall is_dict todo ->
  fs w !! DATA_FILE <> Some Directory ->
  exists employees' b w',
    delete_loop employees i todo target w = Ok (employees', b, w') /\
    fs w' !! DATA_FILE <> Some Directory.
Proof.
  intros Hd Hfs. revert i. induction Hd as [|e todo He _ IH]; intros i.
  - do 3 eexists. split; [reflexivity | exact Hfs].
  - cbn [delete_loop]. unfold mbind, M_bind, lift.
    destruct (get_id_is e target He) as (v & -> & ->).
    destruct (id_is e target); [|apply IH].
    unfold save_data, IO.write_text, mret, M_ret.
    destruct (fs w !! DATA_FILE) as [[]|]; [| congruence |];
      do 3 eexists; (split; [reflexivity|]);
      cbn [fs]; rewrite lookup_insert_eq; discriminate.
Qed.

Lemma has_int_id_dict (es : list value) (ids : list Z) :
  Forall2 has_int_id es ids -> Forall is_dict es.
Proof.
  induction 1 as [|e i es ids (d & -> & _) _ IH]; constructor;
    [eexists; reflexivity | exact IH].
Qed.

Lemma greatest_fresh (ids : list Z) (m : Z) :
  greatest ids m -> forall i, In i ids -> i < 1 + m.
Proof.
  destruct ids as [|i0 ids]; [intros _ i []|].
  intros [_ Hall] i Hi. rewrite Forall_forall in Hall.
  specialize (Hall i). rewrite list_elem_of_In in Hall.
  specialize (Hall Hi). lia.
Qed.

Lemma distinct_after_append (es : list value) (ids : list Z) (m : Z)
    (name : string) (age : Z) (dept : string) :
  Forall2 has_int_id es ids -> NoDup ids -> greatest ids m ->
  Forall2 has_int_id (es ++ [employee (1 + m) name age dept]) (ids ++ [1 + m]) /\
  NoDup (ids ++ [1 + m]).
Proof.
  intros Hids Hnd Hm. split.
  - apply Forall2_app; [exact Hids|].
    constructor; [|constructor]. eexists. split; reflexivity.
  - apply NoDup_app. split; [exact Hnd|]. split; [|apply NoDup_singleton].
    intros i Hi Hin. apply list_elem_of_singleton in Hin. subst i.
    apply list_elem_of_In in Hi.
    pose proof (greatest_fresh ids m Hm _ Hi). lia.
Qed.

Lemma distinct_after_delete (es : list value) (ids : list Z) (j : nat) :
  Forall2 has_int_id es ids -> NoDup ids ->
  Forall2 has_int_id (delete j es) (delete j ids) /\ NoDup (delete j ids).
Proof.
  intros Hids Hnd. split.
  - apply Forall2_delete, Hids.
  - eapply sublist_NoDup; [exact Hnd | apply sublist_delete].
Qed.

(** C3. On a roster whose records have integer identifiers that are
    pairwise distinct, whatever operation returns (an addition, a deletion
    by identifier, the listing or a search) leaves a roster whose records
    have integer identifiers that are pairwise distinct.  The two
    operations that change the roster do return, when the data file can be
    written and, for the addition, three lines can be read. *)
Theorem ids_stay_distinct (op : operation) (employees : list value)
    (ids : list Z) (w : world) :
  Forall2 has_int_id employees ids -> NoDup ids ->
  (forall employees' w',
     perform op employees w = Ok (employees', w') ->
     exists ids', Forall2 has_int_id employees' ids' /\ NoDup ids') /\
  (fs w !! DATA_FILE <> Some Directory -> (3 <= length (stdin w))%nat ->
   match op with
   | Add | Delete _ => exists employees' w', perform op employees w = Ok (employees', w')
   | View | Search _ => True
   end).
Proof.
  intros Hids Hnd.
  assert (Hv : Forall2 id_view employees ids).
  { eapply Forall2_impl; [exact Hids | apply has_int_id_view]. }
  split.
  - intros employees' w' H. destruct op as [|id| |query]; cbn [perform] in H.
    + destruct (add_employee_cases _ _ _ _ _ Hv H)
        as [-> | (m & name & age & dept & Hm & ->)]; [eauto|].
      exists (ids ++ [1 + m])%list. now apply distinct_after_append.
    + unfold mbind, M_bind, delete_by_id in H.
      destruct (delete_loop _ _ _ _ _) as [[[es1 b] w1]| |] eqn:Hdel;
        try discriminate.
      injection H as <- _.
      destruct (delete_loop_cases _ _ _ _ _ _ _ _ Hdel) as [-> | [j ->]]; [eauto|].
      exists (delete j ids). now apply distinct_after_delete.
    + unfold mbind, M_bind in H.
      destruct (view_all employees w) as [[[] w1]| |]; try discriminate.
      injection H as <- _. eauto.
    + unfold mbind, M_bind, lift in H.
      destruct (find_by_name employees query); try discriminate.
      injection H as <- _. eauto.
  - intros Hfs Hin. destruct op as [|id| |query]; cbn [perform]; [| |exact I|exact I].
    + destruct (stdin w) as [|l1 [|l2 [|l3 unread]]] eqn:Hstdin;
        try (simpl in Hin; lia).
      destruct (add_employee_total employees ids w l1 l2 l3 unread Hv Hstdin Hfs)
        as (employees' & w' & Hrun & _). eauto.
    + destruct (delete_loop_total employees employees 0 id w
                  (has_int_id_dict _ _ Hids) Hfs) as (es' & b & w' & Hrun & _).
      exists es', w'. unfold mbind, M_bind, delete_by_id. now rewrite Hrun.
Qed.

Lemma ids_stay_distinct_witness :
  exists employees' w',
    perform Add [employee 1 "Bob" 30 "Eng"; employee 4 "Cy" 41 "Ops"]
      {| fs := ∅; stdin := ["Amy"; "25"; ""]; stdout := [] |}
    = Ok (employees', w') /\
    exists ids', Forall2 has_int_id employees' ids' /\ NoDup ids'.
Proof.
  destruct (ids_stay_distinct Add
              [employee 1 "Bob" 30 "Eng"; employee 4 "Cy" 41 "Ops"] [1; 4]
              {| fs := ∅; stdin := ["Amy"; "25"; ""]; stdout := [] |})
    as [Hkept Hreturns].
  - repeat constructor; eexists; (split; reflexivity).
  - repeat constructor; rewrite ?list_elem_of_In; simpl; intuition lia.
  - destruct Hreturns as (employees' & w' & Hrun).
    + simpl. rewrite lookup_empty. discriminate.
    + simpl. lia.
    + exists employees', w'. split; [exact Hrun|]. exact (Hkept _ _ Hrun).
Defined.

(** ** Identifiers over a history of requests *)

Lemma has_int_id_fun (e : value) (i j : Z) :
  has_int_id e i -> has_int_id e j -> i = j.
Proof. intros (d & -> & H1) (d' & [= <-] & H2). congruence. Qed.

Lemma ids_of_present (es : list value) (ids : list Z) (e : value) (i : Z) :
  Forall2 has_int_id es ids -> In e es -> has_int_id e i -> In i ids.
Proof.
  induction 1 as [|e0 i0 es ids H0 _ IH]; [intros []|].
  intros [<- | Hin] Hi.
  - left. eapply has_int_id_fun; eassumption.
  - right. auto.
Qed.

Lemma serve_step (r : request) (es : list value) (ids : list Z) (w : world) :
  Forall2 has_int_id es ids ->
  fs w !! DATA_FILE <> Some Directory ->
  exists es' w',
    serve r es w = Ok (es', w') /\
    fs w' !! DATA_FILE <> Some Directory /\
    (exists ids', Forall2 has_int_id es' ids') /\
    (forall n, assigns (es, r, es') n ->
       forall e i, In e es -> has_int_id e i -> i < n).
Proof.
  intros Hids Hfs. destruct r as [name age dept | id]; cbn [serve].
  - assert (Hv : Forall2 id_view es ids).
    { eapply Forall2_impl; [exact Hids | apply has_int_id_view]. }
    destruct (add_employee_total es ids
                {| fs := fs w; stdin := [name; age; dept]; stdout := stdout w |}
                name age dept [] Hv eq_refl Hfs) as (es' & w' & Hrun & Hfs').
    exists es', w'. split; [exact Hrun|]. split; [exact Hfs'|].
    destruct (add_employee_cases _ _ _ _ _ Hv Hrun)
      as [-> | (m & nm & a & d & Hm & ->)].
    + split; [eauto|].
      intros n (? & ? & ? & e0 & _ & Heq & _).
      apply (f_equal length) in Heq. rewrite length_app in Heq.
      simpl in Heq. lia.
    + split.
      * exists (ids ++ [1 + m])%list. apply Forall2_app; [exact Hids|].
        constructor; [|constructor]. eexists. split; reflexivity.
      * intros n (? & ? & ? & e0 & _ & Heq & Hn) e i He Hi.
        apply app_inj_tail in Heq as [_ <-].
        assert (n = 1 + m) as ->.
        { eapply has_int_id_fun; [exact Hn|]. eexists. split; reflexivity. }
        eapply greatest_fresh; [exact Hm|].
        eapply ids_of_present; eassumption.
  - destruct (delete_loop_total es es 0 id w (has_int_id_dict _ _ Hids) Hfs)
      as (es' & b & w' & Hrun & Hfs').
    exists es', w'. unfold mbind, M_bind, delete_by_id. rewrite Hrun.
    split; [reflexivity|]. split; [exact Hfs'|]. split.
    + destruct (delete_loop_cases _ _ _ _ _ _ _ _ Hrun) as [-> | [j ->]]; [eauto|].
      exists (delete j ids). apply Forall2_delete, Hids.
    + intros n (? & ? & ? & ? & [=] & _).
Qed.

Lemma run_from (requests : list request) (es : list value) (ids : list Z)
    (w : world) :
  Forall2 has_int_id es ids ->
  fs w !! DATA_FILE <> Some Directory ->
  exists history w',
    run requests es w = Ok (history, w') /\ assigned_above_present history.
Proof.
  revert es ids w. induction requests as [|r rest IH]; intros es ids w Hids Hfs.
  - exists [], w. split; [reflexivity|]. intros s n [].
  - destruct (serve_step r es ids w Hids Hfs)
      as (es' & w1 & Hserve & Hfs1 & [ids' Hids'] & Hstep).
    destruct (IH es' ids' w1 Hids' Hfs1) as (history & w' & Hrun & Habove).
    exists ((es, r, es') :: history), w'. split.
    + cbn [run]. unfold mbind at 1, M_bind at 1. rewrite Hserve.
      unfold mbind, M_bind. rewrite Hrun. reflexivity.
    + intros s n [<- | Hs] Hn; [apply Hstep, Hn | apply (Habove s n Hs Hn)].
Qed.

(** C2, as the program behaves.  Whatever additions and deletions are
    requested from the empty roster, they all return (the data file being
    writable), and every identifier assigned is greater than the
    identifiers of the records present at that moment, hence equal to
    none of them. *)
Theorem assigned_ids_above_present (requests : list request) (w : world) :
  fs w !! DATA_FILE <> Some Directory ->
  exists history w',
    run requests [] w = Ok (history, w') /\ assigned_above_present history.
Proof. intros Hfs. apply (run_from requests [] [] w); [constructor | exact Hfs]. Qed.

Lemma assigned_ids_above_present_witness :
  exists history w',
    run [AddRequest "Bob" "30" "Eng"; AddRequest "Amy" "25" ""; DeleteRequest 2;
         AddRequest "Cy" "41" "Ops"] []
      {| fs := ∅; stdin := []; stdout := [] |}
    = Ok (history, w') /\ assigned_above_present history.
Proof.
  apply (assigned_ids_above_present
           [AddRequest "Bob" "30" "Eng"; AddRequest "Amy" "25" ""; DeleteRequest 2;
            AddRequest "Cy" "41" "Ops"]
           {| fs := ∅; stdin := []; stdout := [] |}).
  simpl. rewrite lookup_empty. discriminate.
Defined.

(** C2, as stated, fails: after Bob and Amy are added and Amy (identifier 2)
    is deleted, the next addition is given the identifier 2 again. *)
Lemma identifier_reused_after_deletion :
  exists history w',
    run [AddRequest "Bob" "30" "Eng"; AddRequest "Amy" "25" ""; DeleteRequest 2;
         AddRequest "Cy" "41" "Ops"] []
      {| fs := ∅; stdin := []; stdout := [] |}
    = Ok (history, w') /\
    history !! 1%nat
    = Some ([employee 1 "Bob" 30 "Eng"], AddRequest "Amy" "25" "",
            [employee 1 "Bob" 30 "Eng"; employee 2 "Amy" 25 "General"]) /\
    history !! 2%nat
    = Some ([employee 1 "Bob" 30 "Eng"; employee 2 "Amy" 25 "General"],
            DeleteRequest 2, [employee 1 "Bob" 30 "Eng"]) /\
    history !! 3%nat
    = Some ([employee 1 "Bob" 30 "Eng"], AddRequest "Cy" "41" "Ops",
            [employee 1 "Bob" 30 "Eng"; employee 2 "Cy" 41 "Ops"]) /\
    ~ never_reused history.
Proof.
  eexists. eexists. split; [vm_compute; reflexivity|].
  split; [reflexivity|]. split; [reflexivity|]. split; [reflexivity|].
  intros H.
  apply (H 2%nat 3%nat _ _ 2 eq_refl eq_refl); [lia | split; [reflexivity | discriminate] |].
  exists "Cy", "41", "Ops", (employee 2 "Cy" 41 "Ops").
  split; [reflexivity|]. split; [reflexivity|].
  eexists. split; reflexivity.
Qed.

(** ** Rosters on which the next identifier cannot be computed *)

(** C10. [add_employee] does not return on every roster [load_data] can
    return: a data file holding one record whose identifier is a string is
    loaded as it is, and adding an employee to the roster loaded, with
    valid input, ends in a [TypeError].  On a roster of dictionaries whose
    identifier is an integer or is missing, a missing identifier counting
    for 0, the addition returns. *)
Theorem add_employee_needs_integer_ids :
  (let employees := [VDict [("id", VStr "7"); ("name", VStr "Zed")]] in
   let w := {| fs := {[DATA_FILE := File (saved employees)]};
               stdin := ["Bob"; "30"; "Eng"]; stdout := [] |} in
   load_data DATA_FILE w = Ok (employees, w) /\
   next_id employees = Raise TypeError /\
   add_employee employees w = Raise TypeError) /\
  (forall employees ids name_line age_line dept_line age w unread,
     Forall2 id_view employees ids ->
     Str.strip name_line <> EmptyString ->
     Str.int (Str.strip age_line) = Ok age -> 15 <= age <= 100 ->
     stdin w = name_line :: age_line :: dept_line :: unread ->
     fs w !! DATA_FILE <> Some Directory ->
     exists m employees' w',
       greatest ids m /\
       next_id employees = Ok (1 + m) /\
       add_employee employees w = Ok (employees', w') /\
       exists e, employees' = (employees ++ [e])%list /\ has_int_id e (1 + m)).
Proof.
  split.
  - split; [vm_compute; reflexivity|]. split; reflexivity.
  - intros employees ids name_line age_line dept_line age w unread
      Hids Hname Hint Hage Hin Hfs.
    destruct (add_employee_returns employees ids name_line age_line dept_line
                age w unread Hids Hname Hint Hage Hin Hfs) as (m & Hm & Hrun).
    destruct (next_id_spec employees ids Hids) as (m' & Hm' & Hnext).
    assert (m' = m) as ->.
    { destruct ids as [|i ids]; [simpl in *; congruence|].
      destruct Hm as [Hin1 Hall1], Hm' as [Hin2 Hall2].
      rewrite Forall_forall in Hall1, Hall2.
      apply list_elem_of_In in Hin1, Hin2.
      specialize (Hall1 _ Hin2). specialize (Hall2 _ Hin1). simpl in *. lia. }
    exists m. do 2 eexists. split; [exact Hm|]. split; [exact Hnext|].
    split; [exact Hrun|].
    eexists. split; [reflexivity|]. eexists. split; reflexivity.
Qed.

Lemma add_employee_needs_integer_ids_witness :
  exists m employees' w',
    greatest [0; 3] m /\
    next_id [VDict [("name", VStr "Ann")]; employee 3 "Bob" 30 "Eng"]
    = Ok (1 + m) /\
    add_employee [VDict [("name", VStr "Ann")]; employee 3 "Bob" 30 "Eng"]
      {| fs := ∅; stdin := ["Cy"; "41"; "Ops"]; stdout := [] |}
    = Ok (employees', w') /\
    exists e,
      employees'
      = ([VDict [("name", VStr "Ann")]; employee 3 "Bob" 30 "Eng"] ++ [e])%list /\
      has_int_id e (1 + m).
Proof.
  apply (proj2 add_employee_needs_integer_ids
           [VDict [("name", VStr "Ann")]; employee 3 "Bob" 30 "Eng"] [0; 3]
           "Cy" "41" "Ops" 41
           {| fs := ∅; stdin := ["Cy"; "41"; "Ops"]; stdout := [] |} []).
  - repeat constructor; eexists; (split; [reflexivity|]); auto.
  - vm_compute. discriminate.
  - reflexivity.
  - lia.
  - reflexivity.
  - simpl. rewrite lookup_empty. discriminate.
Defined.

(** Not every identifier that is no [VInt] stops the addition: for
    Python [True] is the integer 1. *)
Example next_id_boolean : next_id [VDict [("id", VBool true)]] = Ok 2.
Proof. reflexivity. Qed.

(** ** Text *)

Lemma append_assoc (a b c : string) : (a +:+ b) +:+ c = a +:+ (b +:+ c).
Proof. induction a as [|x a IH]; simpl; [reflexivity | now rewrite IH]. Qed.

Lemma append_nil_r (a : string) : a +:+ EmptyString = a.
Proof. induction a as [|x a IH]; simpl; [reflexivity | now rewrite IH]. Qed.

Lemma length_append (a b : string) :
  String.length (a +:+ b) = (String.length a + String.length b)%nat.
Proof. induction a as [|x a IH]; simpl; [reflexivity | now rewrite IH]. Qed.

Ltac lengths :=
  repeat first [ progress cbn [String.length String.append] in *
               | rewrite length_append in * ];
  lia.

(** ** UTF-8 *)

Lemma decode_encode_char (c : ascii) (bs : list byte) :
  Utf8.decode (Utf8.encode_char c ++ bs) = String c <$> Utf8.decode bs.
Proof. destruct c as [[] [] [] [] [] [] [] []]; reflexivity. Qed.

Lemma decode_encode (s : string) : Utf8.decode (Utf8.encode s) = Ok s.
Proof.
  induction s as [|c s IH]; [reflexivity|].
  cbn [Utf8.encode]. rewrite decode_encode_char, IH. reflexivity.
Qed.

Lemma value_nested_ind (P : value -> Prop) :
  P VNone -> (forall b, P (VBool b)) -> (forall z, P (VInt z)) ->
  (forall s, P (VStr s)) ->
  (forall l, Forall P l -> P (VList l)) ->
  (forall d, Forall (fun kv => P kv.2) d -> P (VDict d)) ->
  forall v, P v.
Proof.
  intros HN HB HI HS HL HD. fix IH 1. intros [| b | z | s | l | d].
  - exact HN.
  - apply HB.
  - apply HI.
  - apply HS.
  - apply HL. induction l as [|x l IHl]; constructor; [apply IH | exact IHl].
  - apply HD. induction d as [|[k x] d IHd]; constructor; [apply IH | exact IHd].
Qed.

Lemma valid_list (l : list value) : valid (VList l) <-> Forall valid l.
Proof.
  induction l as [|x l IH]; simpl.
  - split; auto.
  - rewrite Forall_cons. simpl in IH. rewrite IH. reflexivity.
Qed.

Lemma valid_dict (d : list (string * value)) :
  valid (VDict d) <-> NoDup d.*1 /\ Forall (fun kv => valid kv.2) d.
Proof.
  simpl. apply and_iff_compat_l.
  induction d as [|kv d IH]; simpl.
  - split; auto.
  - rewrite Forall_cons, IH. reflexivity.
Qed.

Lemma no_cr_app (a b : string) : no_cr (a +:+ b) = no_cr a && no_cr b.
Proof.
  induction a as [|c a IH]; simpl; [reflexivity|].
  now rewrite IH, andb_assoc.
Qed.

Lemma universal_newlines_id (s : string) :
  no_cr s = true -> IO.universal_newlines s = s.
Proof.
  induction s as [|c s IH]; simpl; [reflexivity|].
  intros [Hc Hs]%andb_true_iff. apply negb_true_iff in Hc. rewrite Hc.
  now rewrite IH.
Qed.

Lemma no_cr_escape (s : string) : no_cr (Json.escape s) = true.
Proof.
  induction s as [|c s IH]; [reflexivity|].
  cbn [Json.escape]. rewrite no_cr_app, IH, andb_true_r.
  destruct c as [[] [] [] [] [] [] [] []]; reflexivity.
Qed.

Lemma no_cr_quote (s : string) : no_cr (Json.quote s) = true.
Proof.
  unfold Json.quote. cbn [no_cr]. rewrite no_cr_app, no_cr_escape. reflexivity.
Qed.

Lemma no_cr_uint (d : uint) : no_cr (NilEmpty.string_of_uint d) = true.
Proof. induction d; simpl; auto. Qed.

Lemma no_cr_of_int (z : Z) : no_cr (Str.of_int z) = true.
Proof.
  unfold Str.of_int, NilZero.string_of_int, NilZero.string_of_uint.
  destruct (Z.to_int z) as [d | d]; destruct d; try reflexivity;
    simpl; apply no_cr_uint.
Qed.

Lemma no_cr_newline_indent (level : nat) : no_cr (Json.newline_indent level) = true.
Proof.
  unfold Json.newline_indent. cbn [no_cr]. simpl.
  induction (level + (level + 0))%nat; simpl; auto.
Qed.

Lemma concat_cons (sep x y : string) (l : list string) :
  String.concat sep (x :: y :: l) = x +:+ sep +:+ String.concat sep (y :: l).
Proof. reflexivity. Qed.

Lemma no_cr_concat (sep : string) (l : list string) :
  no_cr sep = true -> Forall (fun s => no_cr s = true) l ->
  no_cr (String.concat sep l) = true.
Proof.
  intros Hsep H. induction H as [|x l Hx Hl IH]; [reflexivity|].
  destruct l as [|y l]; [exact Hx|].
  rewrite concat_cons, !no_cr_app, Hx, Hsep, IH. reflexivity.
Qed.

Lemma no_cr_encode (v : value) (level : nat) : no_cr (Json.encode level v) = true.
Proof.
  revert level. induction v as [| b | z | s | l IH | d IH] using value_nested_ind;
    intros level.
  - reflexivity.
  - destruct b; reflexivity.
  - apply no_cr_of_int.
  - apply no_cr_quote.
  - destruct l as [|x l]; [reflexivity|].
    cbn [Json.encode]. cbn [no_cr String.append]. simpl negb. cbn [andb].
    rewrite !no_cr_app, !no_cr_newline_indent. cbn [andb].
    rewrite andb_true_r.
    apply no_cr_concat.
    + cbn [String.append no_cr]. apply no_cr_newline_indent.
    + apply Forall_map. eapply Forall_impl; [exact IH|]. intros y Hy. apply Hy.
  - destruct d as [|kv d]; [reflexivity|].
    cbn [Json.encode]. cbn [no_cr String.append]. simpl negb. cbn [andb].
    rewrite !no_cr_app, !no_cr_newline_indent. cbn [andb].
    rewrite andb_true_r.
    apply no_cr_concat.
    + cbn [String.append no_cr]. apply no_cr_newline_indent.
    + apply Forall_map. eapply Forall_impl; [exact IH|]. intros y Hy.
      cbn beta. rewrite no_cr_app, no_cr_quote. simpl. apply Hy.
Qed.

(** ** Scanning what the encoder wrote *)

Lemma skip_ws_head (c : ascii) (r : string) :
  Json.is_ws c = false -> Json.skip_ws (String c r) = String c r.
Proof. intros H. unfold Json.skip_ws. simpl. now rewrite H. Qed.

Lemma skip_ws_spaces (n : nat) (s : string) :
  Json.skip_ws (Str.spaces n +:+ s) = Json.skip_ws s.
Proof. induction n as [|n IH]; [reflexivity | exact IH]. Qed.

Lemma skip_ws_newline_indent (level : nat) (s : string) :
  Json.skip_ws (Json.newline_indent level +:+ s) = Json.skip_ws s.
Proof. unfold Json.newline_indent. simpl. apply skip_ws_spaces. Qed.

Lemma value_head_not_ws (c : ascii) :
  value_head c = true ->
  Json.is_ws c = false /\ Ascii.eqb c "]" = false /\ Ascii.eqb c "}" = false.
Proof. destruct c as [[] [] [] [] [] [] [] []]; try discriminate; auto. Qed.

Lemma scanstring_escape_char (c : ascii) (t x r : string) (o : bool) :
  Json.scanstring t = Ok (x, r, o) ->
  Json.scanstring (Json.escape_char c +:+ t) = Ok (String c x, r, o).
Proof.
  intros H.
  destruct c as [[] [] [] [] [] [] [] []]; simpl; rewrite H; simpl;
    rewrite ?orb_false_r; reflexivity.
Qed.

Lemma scanstring_escape (s rest : string) :
  Json.scanstring (Json.escape s +:+ String Json.QUOTE rest) = Ok (s, rest, false).
Proof.
  induction s as [|c s IH]; [reflexivity|].
  cbn [Json.escape]. rewrite append_assoc.
  apply scanstring_escape_char, IH.
Qed.

Lemma quote_append (s rest : string) :
  Json.quote s +:+ rest
  = String Json.QUOTE (Json.escape s +:+ String Json.QUOTE rest).
Proof. unfold Json.quote. simpl. now rewrite append_assoc. Qed.

(** *** Numbers *)

Lemma isdigit_cases (c : ascii) :
  Str.isdigit c = true ->
  c = "0"%char \/ c = "1"%char \/ c = "2"%char \/ c = "3"%char \/ c = "4"%char \/
  c = "5"%char \/ c = "6"%char \/ c = "7"%char \/ c = "8"%char \/ c = "9"%char.
Proof.
  destruct c as [[] [] [] [] [] [] [] []]; vm_compute; intros H;
    try discriminate H; tauto.
Qed.

Ltac digit_cases c H :=
  destruct (isdigit_cases c H)
    as [-> | [-> | [-> | [-> | [-> | [-> | [-> | [-> | [-> | ->]]]]]]]]].

Lemma all_digits_uint (d : uint) :
  all_chars Str.isdigit (NilEmpty.string_of_uint d) = true.
Proof. induction d; simpl; auto. Qed.

Lemma nzhead_not_D0 (u u' : uint) : nzhead u <> D0 u'.
Proof. induction u; simpl; try discriminate; auto. Qed.

Lemma to_uint_not_D0 (p : positive) (d : uint) : Pos.to_uint p <> D0 d.
Proof.
  intros Hd.
  pose proof (DecimalPos.Unsigned.to_of (Pos.to_uint p)) as H.
  rewrite DecimalPos.Unsigned.of_to in H. cbn [N.to_uint] in H.
  rewrite Hd, unorm_D0 in H. unfold unorm in H.
  destruct (nzhead d) eqn:Hn; try discriminate H.
  - injection H as ->. apply (DecimalPos.Unsigned.to_uint_nonzero p). exact Hd.
  - apply (nzhead_not_D0 d d). congruence.
Qed.

Lemma to_uint_text (p : positive) :
  exists c ds,
    NilEmpty.string_of_uint (Pos.to_uint p) = String c ds /\
    Str.isdigit c = true /\ Ascii.eqb c "0" = false /\
    all_chars Str.isdigit ds = true.
Proof.
  pose proof (all_digits_uint (Pos.to_uint p)) as Hall.
  destruct (Pos.to_uint p) as [|d|d|d|d|d|d|d|d|d|d] eqn:Hd.
  - exfalso. apply (DecimalPos.Unsigned.to_uint_nonnil p). exact Hd.
  - exfalso. apply (to_uint_not_D0 p d). exact Hd.
  - simpl in *. eauto 10.
  - simpl in *. eauto 10.
  - simpl in *. eauto 10.
  - simpl in *. eauto 10.
  - simpl in *. eauto 10.
  - simpl in *. eauto 10.
  - simpl in *. eauto 10.
  - simpl in *. eauto 10.
  - simpl in *. eauto 10.
Qed.

Lemma drop_end_while_all (p : ascii -> bool) (s : string) :
  all_chars (fun c => negb (p c)) s = true -> Str.drop_end_while p s = s.
Proof.
  induction s as [|c s IH]; [reflexivity|].
  simpl. intros [Hc Hs]%andb_true_iff. rewrite (IH Hs).
  apply negb_true_iff in Hc. rewrite Hc. destruct s; reflexivity.
Qed.

Lemma trim_all (p : ascii -> bool) (s : string) :
  all_chars (fun c => negb (p c)) s = true -> Str.trim p s = s.
Proof.
  intros H. unfold Str.trim.
  replace (Str.drop_while p s) with s; [now apply drop_end_while_all|].
  destruct s as [|c s]; [reflexivity|].
  simpl in *. apply andb_true_iff in H as [Hc _].
  apply negb_true_iff in Hc. now rewrite Hc.
Qed.

Lemma all_chars_impl (q q' : ascii -> bool) (s : string) :
  (forall c, q c = true -> q' c = true) ->
  all_chars q s = true -> all_chars q' s = true.
Proof.
  intros Hq. induction s as [|c s IH]; [reflexivity|].
  simpl. intros [Hc Hs]%andb_true_iff. now rewrite (Hq c Hc), IH.
Qed.

Lemma digit_not_int_space (c : ascii) :
  Str.isdigit c = true -> negb (Str.int_isspace c) = true.
Proof. intros H. digit_cases c H; reflexivity. Qed.

Lemma int_body_digits (ds : string) :
  all_chars Str.isdigit ds = true -> Str.int_body true ds = Some ds.
Proof.
  induction ds as [|c ds IH]; [reflexivity|].
  simpl. intros [Hc Hs]%andb_true_iff. now rewrite Hc, (IH Hs).
Qed.

(** [int] reads back a signed run of digits. *)
Lemma int_digits (neg : bool) (c : ascii) (ds : string) (v : Z) :
  Str.isdigit c = true -> all_chars Str.isdigit ds = true ->
  Str.digits_value (String c ds) = Some v ->
  Str.int ((if neg then "-" else EmptyString) +:+ String c ds)
  = Ok (if neg then - v else v).
Proof.
  intros Hc Hds Hv. unfold Str.int.
  rewrite trim_all.
  - assert (Hb : Str.int_body false (String c ds) = Some (String c ds)).
    { simpl. now rewrite Hc, (int_body_digits ds Hds). }
    assert (Hsp : Str.split_sign ((if neg then "-" else EmptyString) +:+ String c ds)
                  = (neg, String c ds)).
    { destruct neg; [reflexivity|]. simpl.
      assert (Ascii.eqb c "-" = false /\ Ascii.eqb c "+" = false) as [-> ->];
        [digit_cases c Hc; auto | reflexivity]. }
    rewrite Hsp, Hb. cbn [mbind option_bind]. now rewrite Hv.
  - assert (Hall : all_chars (fun c => negb (Str.int_isspace c)) (String c ds) = true).
    { apply (all_chars_impl Str.isdigit); [apply digit_not_int_space|].
      simpl. now rewrite Hc, Hds. }
    destruct neg; simpl in *; exact Hall.
Qed.

Lemma span_digits_app (ds rest : string) :
  all_chars Str.isdigit ds = true -> ends_number rest = true ->
  Json.span_digits (ds +:+ rest) = (ds, rest).
Proof.
  intros Hds Hrest. induction ds as [|c ds IH]; simpl.
  - destruct rest as [|c r]; [reflexivity|]. simpl in *.
    apply negb_true_iff in Hrest. rewrite !orb_false_iff in Hrest.
    destruct Hrest as [[[-> _] _] _]. reflexivity.
  - simpl in Hds. apply andb_true_iff in Hds as [Hc Hs].
    now rewrite Hc, (IH Hs).
Qed.

Lemma no_frac_exp (rest : string) :
  ends_number rest = true ->
  Json.frac_part rest = None /\ Json.exp_part rest = None.
Proof.
  destruct rest as [|c r]; [auto|]. simpl.
  intros H. apply negb_true_iff in H. rewrite !orb_false_iff in H.
  destruct H as [[[_ Hp] He] HE]. rewrite He, HE. simpl.
  destruct r; rewrite ?Hp; auto.
Qed.

(** A number written without leading zero, followed by something that
    cannot continue it, is read whole. *)
Lemma match_number_digits (neg : bool) (c : ascii) (ds rest : string) (v : Z) :
  Str.isdigit c = true -> all_chars Str.isdigit ds = true ->
  (Ascii.eqb c "0" = false \/ ds = EmptyString) ->
  ends_number rest = true ->
  Str.digits_value (String c ds) = Some v ->
  Json.match_number ((if neg then "-" else EmptyString) +:+ String c ds +:+ rest)
  = Ok (VInt (if neg then - v else v), rest, false).
Proof.
  intros Hc Hds Hzero Hrest Hv.
  pose proof (int_digits neg c ds v Hc Hds Hv) as Hint.
  destruct (no_frac_exp rest Hrest) as [Hf He].
  assert (Hip : Json.int_part (String c ds +:+ rest) = Some (String c ds, rest)).
  { simpl. destruct (Ascii.eqb c "0") eqn:H0.
    - destruct Hzero as [? | ->]; [discriminate|].
      apply Ascii.eqb_eq in H0. subst c. reflexivity.
    - rewrite Hc, (span_digits_app ds rest Hds Hrest). reflexivity. }
  unfold Json.match_number. destruct neg.
  - cbn [String.append Ascii.eqb Bool.eqb]. cbn iota.
    change (String c (ds +:+ rest)) with (String c ds +:+ rest).
    rewrite Hip, Hf, He. cbn [orb]. 
    change ("-" +:+ String c ds) with (String "-" (String c ds)) in *.
    rewrite Hint. reflexivity.
  - assert (Ascii.eqb c "-" = false) as Hm by (digit_cases c Hc; reflexivity).
    cbn [String.append]. rewrite Hm.
    change (String c (ds +:+ rest)) with (String c ds +:+ rest).
    rewrite Hip, Hf, He. cbn [orb].
    change (EmptyString +:+ String c ds) with (String c ds) in *.
    rewrite Hint. reflexivity.
Qed.

Lemma of_uint_to_uint (p : positive) : Z.of_uint (Pos.to_uint p) = Z.pos p.
Proof.
  unfold Z.of_uint. now rewrite DecimalPos.Unsigned.of_to.
Qed.

Lemma digits_value_to_uint (p : positive) :
  Str.digits_value (NilEmpty.string_of_uint (Pos.to_uint p)) = Some (Z.pos p).
Proof.
  unfold Str.digits_value. rewrite NilEmpty.usu. simpl.
  now rewrite of_uint_to_uint.
Qed.

(** The text of an integer: a sign when negative, then digits without a
    leading zero, which [int] reads as the integer. *)
Lemma of_int_text (z : Z) :
  exists neg c ds v,
    Str.of_int z = (if neg : bool then "-" else EmptyString) +:+ String c ds /\
    Str.isdigit c = true /\ all_chars Str.isdigit ds = true /\
    (Ascii.eqb c "0" = false \/ ds = EmptyString) /\
    Str.digits_value (String c ds) = Some v /\
    z = (if neg then - v else v).
Proof.
  destruct z as [|p|p].
  - exists false, "0"%char, EmptyString, 0. repeat split; auto.
  - destruct (to_uint_text p) as (c & ds & Htext & Hc & H0 & Hds).
    exists false, c, ds, (Z.pos p).
    pose proof (digits_value_to_uint p) as Hv. rewrite Htext in Hv.
    repeat split; auto.
    unfold Str.of_int, NilZero.string_of_int, NilZero.string_of_uint.
    cbn [Z.to_int]. rewrite <- Htext.
    destruct (Pos.to_uint p); try reflexivity. discriminate Htext.
  - destruct (to_uint_text p) as (c & ds & Htext & Hc & H0 & Hds).
    exists true, c, ds, (Z.pos p).
    pose proof (digits_value_to_uint p) as Hv. rewrite Htext in Hv.
    repeat split; auto.
    unfold Str.of_int, NilZero.string_of_int, NilZero.string_of_uint.
    cbn [Z.to_int]. rewrite <- Htext.
    destruct (Pos.to_uint p); try reflexivity. discriminate Htext.
Qed.

Lemma int_of_int (z : Z) : Str.int (Str.of_int z) = Ok z.
Proof.
  destruct (of_int_text z) as (neg & c & ds & v & -> & Hc & Hds & _ & Hv & ->).
  now apply int_digits.
Qed.

Lemma prefix_digit (c : ascii) (t : string) (a : ascii) (n : string) :
  Str.isdigit c = true -> Str.isdigit a = false ->
  String.prefix (String a n) (String c t) = false.
Proof.
  intros Hc Ha. simpl. destruct (ascii_dec a c) as [-> | _]; [congruence | reflexivity].
Qed.

(** A text that starts like a number is handed to [match_number]. *)
Lemma scan_once_number (fuel : nat) (neg : bool) (c : ascii) (t : string) :
  Str.isdigit c = true ->
  Json.scan_once (S fuel) ((if neg then "-" else EmptyString) +:+ String c t)
  = Json.match_number ((if neg then "-" else EmptyString) +:+ String c t).
Proof.
  intros Hc. destruct neg.
  - cbn [String.append Json.scan_once].
    digit_cases c Hc; reflexivity.
  - cbn [String.append Json.scan_once].
    digit_cases c Hc; reflexivity.
Qed.

Lemma scan_once_int (z : Z) (rest : string) (fuel : nat) :
  ends_number rest = true ->
  Json.scan_once (S fuel) (Str.of_int z +:+ rest) = Ok (VInt z, rest, false).
Proof.
  intros Hrest.
  destruct (of_int_text z) as (neg & c & ds & v & -> & Hc & Hds & H0 & Hv & ->).
  rewrite append_assoc.
  change (String c ds +:+ rest) with (String c (ds +:+ rest)).
  rewrite scan_once_number by exact Hc.
  change (String c (ds +:+ rest)) with (String c ds +:+ rest).
  now apply match_number_digits.
Qed.

Lemma encode_head (level : nat) (v : value) :
  exists c r, Json.encode level v = String c r /\ value_head c = true.
Proof.
  destruct v as [| [] | z | s | [|x l] | [|kv d]];
    try (eexists _, _; split; reflexivity).
  destruct (of_int_text z) as (neg & c & ds & v & Ht & Hc & _).
  cbn [Json.encode]. rewrite Ht. unfold value_head.
  destruct neg; simpl; eexists _, _; (split; [reflexivity|]);
    [reflexivity | rewrite Hc; apply orb_true_r].
Qed.

Lemma skip_ws_encode (level : nat) (v : value) (t : string) :
  Json.skip_ws (Json.encode level v +:+ t) = Json.encode level v +:+ t.
Proof.
  destruct (encode_head level v) as (c & r & -> & Hc).
  apply value_head_not_ws in Hc as [Hws _]. simpl. now apply skip_ws_head.
Qed.

Lemma dict_set_fresh (acc : list (string * value)) (k : string) (v : value) :
  k ∉ acc.*1 -> Dict.set acc k v = (acc ++ [(k, v)])%list.
Proof.
  induction acc as [|[k' v'] acc IH]; [reflexivity|].
  intros Hk. apply not_elem_of_cons in Hk as [Hne Hk]. simpl.
  destruct (String.eqb_spec k' k) as [-> | _]; [contradiction|].
  now rewrite (IH Hk).
Qed.

(** *** Containers *)

Lemma encode_list (level : nat) (x : value) (l : list value) :
  Json.encode level (VList (x :: l))
  = "[" +:+ Json.newline_indent (S level) +:+ items_text level (x :: l) +:+
    Json.newline_indent level +:+ "]".
Proof. reflexivity. Qed.

Lemma encode_dict (level : nat) (kv : string * value) (d : list (string * value)) :
  Json.encode level (VDict (kv :: d))
  = "{" +:+ Json.newline_indent (S level) +:+ members_text level (kv :: d) +:+
    Json.newline_indent level +:+ "}".
Proof. reflexivity. Qed.

Lemma items_text_cons (level : nat) (x y : value) (l : list value) :
  items_text level (x :: y :: l)
  = Json.encode (S level) x +:+
    String "," (Json.newline_indent (S level) +:+ items_text level (y :: l)).
Proof. reflexivity. Qed.

Lemma members_text_cons (level : nat) (kv kv' : string * value)
    (d : list (string * value)) :
  members_text level (kv :: kv' :: d)
  = Json.quote kv.1 +:+ ": " +:+ Json.encode (S level) kv.2 +:+
    String "," (Json.newline_indent (S level) +:+ members_text level (kv' :: d)).
Proof.
  unfold members_text. cbn [map]. rewrite concat_cons.
  rewrite !append_assoc. reflexivity.
Qed.

Lemma ends_number_newline (level : nat) (t : string) :
  ends_number (Json.newline_indent level +:+ t) = true.
Proof. reflexivity. Qed.

Lemma items_text_head (level : nat) (x : value) (l : list value) (t : string) :
  exists c r, items_text level (x :: l) +:+ t = String c r /\ value_head c = true.
Proof.
  destruct (encode_head (S level) x) as (c & r & Hx & Hc).
  destruct l as [|y l]; [|rewrite items_text_cons];
    unfold items_text; cbn [map String.concat]; rewrite Hx; simpl; eauto.
Qed.

Lemma scan_items_encoded (level : nat) (l : list value) (rest : string) :
  Forall reads_back l -> Forall valid l -> l <> [] ->
  forall fuel,
    (2 * String.length (items_text level l +:+ Json.newline_indent level +:+
                          String "]" rest) + 1 < fuel)%nat ->
    Json.scan_items fuel
      (items_text level l +:+ Json.newline_indent level +:+ String "]" rest)
    = Ok (l, rest, false).
Proof.
  induction l as [|x l IH]; [congruence|].
  intros Hrb Hv _ fuel Hfuel.
  apply Forall_cons in Hrb as [Hx Hrb]. apply Forall_cons in Hv as [Hvx Hv].
  destruct fuel as [|fuel]; [lia|]. cbn [Json.scan_items].
  destruct l as [|y l].
  - change (items_text level [x]) with (Json.encode (S level) x) in *.
    rewrite (Hx (S level) _ fuel Hvx (ends_number_newline _ _)) by lia.
    cbn [mbind result_bind]. rewrite skip_ws_newline_indent.
    reflexivity.
  - rewrite items_text_cons, append_assoc in *.
    cbn [String.append] in *.
    rewrite Hx; [| exact Hvx | reflexivity | lia].
    cbn [mbind result_bind].
    rewrite skip_ws_head by reflexivity.
    change (Ascii.eqb "," "]") with false. change (Ascii.eqb "," ",") with true.
    cbn iota. rewrite append_assoc, skip_ws_newline_indent.
    destruct (items_text_head level y l
                (Json.newline_indent level +:+ String "]" rest))
      as (c & r & Hhead & Hc).
    apply value_head_not_ws in Hc as [Hws _].
    rewrite Hhead, (skip_ws_head c r Hws), <- Hhead.
    rewrite IH; [reflexivity | exact Hrb | exact Hv | discriminate |].
    clear -Hfuel. lengths.
Qed.

Lemma members_text_head (level : nat) (kv : string * value)
    (d : list (string * value)) (t : string) :
  exists r, members_text level (kv :: d) +:+ t = String Json.QUOTE r.
Proof.
  destruct d as [|kv' d]; [|rewrite members_text_cons];
    unfold members_text; cbn [map String.concat];
    rewrite ?append_assoc, quote_append; simpl; eauto.
Qed.

Lemma scan_members_encoded (level : nat) (d : list (string * value))
    (rest : string) :
  Forall (fun kv => reads_back kv.2) d -> Forall (fun kv => valid kv.2) d ->
  d <> [] ->
  forall acc fuel,
    NoDup (acc.*1 ++ d.*1) ->
    (2 * String.length (members_text level d +:+ Json.newline_indent level +:+
                          String "}" rest) + 1 < fuel)%nat ->
    Json.scan_members fuel
      (members_text level d +:+ Json.newline_indent level +:+ String "}" rest) acc
    = Ok ((acc ++ d)%list, rest, false).
Proof.
  induction d as [|[k x] d IH]; [congruence|].
  intros Hrb Hv _ acc fuel Hnd Hfuel.
  apply Forall_cons in Hrb as [Hx Hrb]. apply Forall_cons in Hv as [Hvx Hv].
  cbn [fst snd] in Hx, Hvx.
  assert (Hk : k ∉ acc.*1).
  { apply NoDup_app in Hnd as (_ & Hdis & _). intros Hin.
    apply (Hdis k Hin). left. }
  destruct fuel as [|fuel]; [lia|]. cbn [Json.scan_members].
  destruct d as [|kv' d].
  - change (members_text level [(k, x)])
      with (Json.quote k +:+ ": " +:+ Json.encode (S level) x) in *.
    rewrite !append_assoc, quote_append in *.
    change (Ascii.eqb Json.QUOTE Json.QUOTE) with true. cbn iota.
    rewrite scanstring_escape. cbn [mbind result_bind String.append].
    rewrite skip_ws_head by reflexivity.
    change (Ascii.eqb ":" ":") with true. cbn iota.
    change (Json.skip_ws (String " " ?t)) with (Json.skip_ws t).
    rewrite skip_ws_encode.
    rewrite Hx; [| exact Hvx | reflexivity |].
    + cbn [mbind result_bind]. rewrite skip_ws_newline_indent.
      rewrite skip_ws_head by reflexivity.
      change (Ascii.eqb "}" "}") with true. cbn iota.
      now rewrite (dict_set_fresh acc k x Hk).
    + clear -Hfuel. lengths.
  - rewrite members_text_cons in *. cbn [fst snd] in *.
    rewrite !append_assoc, quote_append in *.
    change (Ascii.eqb Json.QUOTE Json.QUOTE) with true. cbn iota.
    rewrite scanstring_escape. cbn [mbind result_bind String.append].
    rewrite skip_ws_head by reflexivity.
    change (Ascii.eqb ":" ":") with true. cbn iota.
    change (Json.skip_ws (String " " ?t)) with (Json.skip_ws t).
    rewrite skip_ws_encode.
    rewrite Hx; [| exact Hvx | reflexivity |].
    + cbn [mbind result_bind].
      rewrite skip_ws_head by reflexivity.
      change (Ascii.eqb "," "}") with false. change (Ascii.eqb "," ",") with true.
      cbn iota. rewrite append_assoc, skip_ws_newline_indent.
      destruct (members_text_head level kv' d
                  (Json.newline_indent level +:+ String "}" rest)) as (r & Hhead).
      rewrite Hhead, (skip_ws_head Json.QUOTE r eq_refl), <- Hhead.
      rewrite (dict_set_fresh acc k x Hk).
      rewrite IH; [| exact Hrb | exact Hv | discriminate | |].
      * cbn [mbind result_bind]. now rewrite <- app_assoc.
      * rewrite fmap_app, <- app_assoc. exact Hnd.
      * clear -Hfuel. lengths.
    + clear -Hfuel. lengths.
Qed.

Lemma scan_once_encoded (v : value) : reads_back v.
Proof.
  induction v as [| b | z | s | l IH | d IH] using value_nested_ind;
    intros level rest fuel Hv Hrest Hfuel;
    (destruct fuel as [|fuel]; [lia|]).
  - destruct rest; reflexivity.
  - destruct b, rest; reflexivity.
  - now apply scan_once_int.
  - cbn [Json.encode]. rewrite quote_append. cbn [Json.scan_once].
    change (Ascii.eqb Json.QUOTE Json.QUOTE) with true. cbn iota.
    now rewrite scanstring_escape.
  - destruct l as [|x l]; [reflexivity|].
    apply valid_list in Hv.
    rewrite encode_list in *. rewrite !append_assoc in *.
    cbn [String.append Json.scan_once] in *.
    change (Ascii.eqb "[" Json.QUOTE) with false.
    change (Ascii.eqb "[" "{") with false. change (Ascii.eqb "[" "[") with true.
    cbn iota. rewrite skip_ws_newline_indent.
    destruct (items_text_head level x l
                (Json.newline_indent level +:+ String "]" rest))
      as (c & r & Hhead & Hc).
    apply value_head_not_ws in Hc as (Hws & Hb & _).
    rewrite Hhead, (skip_ws_head c r Hws), Hb, <- Hhead.
    rewrite scan_items_encoded; [reflexivity | exact IH | exact Hv | discriminate |].
    clear -Hfuel. lengths.
  - destruct d as [|kv d]; [reflexivity|].
    apply valid_dict in Hv as [Hnd Hv].
    rewrite encode_dict in *. rewrite !append_assoc in *.
    cbn [String.append Json.scan_once] in *.
    change (Ascii.eqb "{" Json.QUOTE) with false.
    change (Ascii.eqb "{" "{") with true.
    cbn iota. rewrite skip_ws_newline_indent.
    destruct (members_text_head level kv d
                (Json.newline_indent level +:+ String "}" rest)) as (r & Hhead).
    rewrite Hhead, (skip_ws_head Json.QUOTE r eq_refl).
    change (Ascii.eqb Json.QUOTE "}") with false. cbn iota. rewrite <- Hhead.
    rewrite scan_members_encoded;
      [reflexivity | exact IH | exact Hv | discriminate | exact Hnd |].
    clear -Hfuel. lengths.
Qed.

(** [json.loads] reads back what [json.dumps] wrote. *)
Lemma loads_dumps (v : value) : valid v -> Json.loads (Json.dumps v) = Ok v.
Proof.
  intros Hv. unfold Json.loads, Json.dumps.
  pose proof (skip_ws_encode 0 v EmptyString) as Hskip.
  rewrite append_nil_r in Hskip. rewrite Hskip.
  pose proof (scan_once_encoded v 0%nat EmptyString
                (S (2 * String.length (Json.encode 0 v))) Hv eq_refl) as H.
  rewrite append_nil_r in H. rewrite H by lia. reflexivity.
Qed.

(** ** Trimming before [int] *)

Lemma drop_while_split (p : ascii -> bool) (s : string) :
  exists w, s = w +:+ Str.drop_while p s /\ all_chars p w = true.
Proof.
  induction s as [|c s (w & Hw & Hall)].
  - exists EmptyString. auto.
  - simpl. destruct (p c) eqn:Hc.
    + exists (String c w). simpl. rewrite Hc, Hall. split; [congruence | reflexivity].
    + exists EmptyString. auto.
Qed.

Lemma drop_end_while_split (p : ascii -> bool) (s : string) :
  exists w, s = Str.drop_end_while p s +:+ w /\ all_chars p w = true.
Proof.
  induction s as [|c s (w & Hw & Hall)].
  - exists EmptyString. auto.
  - simpl. destruct (Str.drop_end_while p s) as [|c' r] eqn:Hs.
    + destruct (p c) eqn:Hc.
      * exists (String c w). simpl in *. rewrite Hc, Hall. split; [congruence | reflexivity].
      * exists w. simpl in *. split; [congruence | exact Hall].
    + exists w. simpl in *. split; [congruence | exact Hall].
Qed.

Lemma drop_while_all (p : ascii -> bool) (w s : string) :
  all_chars p w = true -> Str.drop_while p (w +:+ s) = Str.drop_while p s.
Proof.
  induction w as [|c w IH]; [reflexivity|].
  simpl. intros [Hc Hw]%andb_true_iff. rewrite Hc. auto.
Qed.

Lemma drop_end_while_spaces (p : ascii -> bool) (w : string) :
  all_chars p w = true -> Str.drop_end_while p w = EmptyString.
Proof.
  induction w as [|c w IH]; [reflexivity|].
  simpl. intros [Hc Hw]%andb_true_iff. now rewrite (IH Hw), Hc.
Qed.

Lemma drop_end_while_app (p : ascii -> bool) (s w : string) :
  all_chars p w = true ->
  Str.drop_end_while p (s +:+ w) = Str.drop_end_while p s.
Proof.
  intros Hw. induction s as [|c s IH]; simpl.
  - now apply drop_end_while_spaces.
  - now rewrite IH.
Qed.

Lemma drop_while_spaces (p : ascii -> bool) (w : string) :
  all_chars p w = true -> Str.drop_while p w = EmptyString.
Proof.
  induction w as [|c w IH]; [reflexivity|].
  simpl. intros [Hc Hw]%andb_true_iff. rewrite Hc. auto.
Qed.

Lemma drop_while_app (p : ascii -> bool) (t w : string) :
  all_chars p w = true ->
  exists w', all_chars p w' = true /\
    Str.drop_while p (t +:+ w) = Str.drop_while p t +:+ w'.
Proof.
  intros Hw. induction t as [|c t IH]; simpl.
  - exists EmptyString. split; [reflexivity | now apply drop_while_spaces].
  - destruct (p c); [exact IH|]. exists w. auto.
Qed.

(** Trimming a text padded with characters to trim gives the trimmed text. *)
Lemma trim_padded (p : ascii -> bool) (w1 t w2 : string) :
  all_chars p w1 = true -> all_chars p w2 = true ->
  Str.trim p (w1 +:+ t +:+ w2) = Str.trim p t.
Proof.
  intros H1 H2. unfold Str.trim. rewrite (drop_while_all p w1 _ H1).
  destruct (drop_while_app p t w2 H2) as (w' & Hw' & ->).
  now apply drop_end_while_app.
Qed.

Lemma trim_split (p : ascii -> bool) (s : string) :
  exists w1 w2,
    s = w1 +:+ Str.trim p s +:+ w2 /\
    all_chars p w1 = true /\ all_chars p w2 = true.
Proof.
  destruct (drop_while_split p s) as (w1 & Hs & H1).
  destruct (drop_end_while_split p (Str.drop_while p s)) as (w2 & Hd & H2).
  exists w1, w2. unfold Str.trim. rewrite <- Hd. auto.
Qed.

Lemma int_space_is_space (c : ascii) :
  Str.int_isspace c = true -> Str.isspace c = true.
Proof. destruct c as [[] [] [] [] [] [] [] []]; vm_compute; congruence. Qed.

Lemma literal_char_not_space (c : ascii) :
  literal_char c = true -> negb (Str.isspace c) = true.
Proof. destruct c as [[] [] [] [] [] [] [] []]; vm_compute; congruence. Qed.

Lemma int_body_chars (b : bool) (s ds : string) :
  Str.int_body b s = Some ds -> all_chars literal_char s = true.
Proof.
  revert b ds. induction s as [|c s IH]; intros b ds; [reflexivity|].
  simpl. unfold literal_char at 1.
  destruct (Str.isdigit c); simpl.
  - destruct (Str.int_body true s) eqn:Hs; [|discriminate]. intros _. eauto.
  - destruct (Ascii.eqb c "_"); [|discriminate]. simpl.
    destruct b; [|discriminate]. eauto.
Qed.

(** A text [int] reads has nothing to trim once its own padding is off. *)
Lemma int_literal_chars (s : string) (z : Z) :
  Str.int s = Ok z ->
  all_chars literal_char (Str.trim Str.int_isspace s) = true.
Proof.
  unfold Str.int, Str.split_sign.
  destruct (Str.trim Str.int_isspace s) as [|c r]; [discriminate|].
  simpl. unfold literal_char at 1.
  destruct (Ascii.eqb c "-") eqn:Hm; [|destruct (Ascii.eqb c "+") eqn:Hp].
  - rewrite orb_true_r. simpl.
    destruct (Str.int_body false r) eqn:Hb; [|discriminate].
    intros _. eapply int_body_chars, Hb.
  - rewrite orb_true_r. simpl.
    destruct (Str.int_body false r) eqn:Hb; [|discriminate].
    intros _. eapply int_body_chars, Hb.
  - destruct (Str.int_body false (String c r)) eqn:Hb; [|discriminate].
    intros _. apply int_body_chars in Hb. simpl in Hb.
    unfold literal_char at 1 in Hb. now rewrite Hm, Hp in Hb.
Qed.

(** What [int] reads before [strip], it reads after it, with the same
    result. *)
Lemma int_strip (s : string) (z : Z) :
  Str.int s = Ok z -> Str.int (Str.strip s) = Ok z.
Proof.
  intros H. pose proof (int_literal_chars s z H) as Hchars.
  destruct (trim_split Str.int_isspace s) as (w1 & w2 & Hs & H1 & H2).
  assert (Hstrip : Str.strip s = Str.trim Str.int_isspace s).
  { unfold Str.strip. rewrite Hs at 1.
    rewrite trim_padded
      by (eapply all_chars_impl; [apply int_space_is_space | eassumption]).
    apply trim_all.
    eapply all_chars_impl; [apply literal_char_not_space | exact Hchars]. }
  unfold Str.int in *. now rewrite Hstrip, trim_idem.
Qed.

(** ** The decoder on any text *)

Lemma scan_ok_shorter {A : Type} (s s' : string) (r : Json.scanned A) :
  (String.length s <= String.length s')%nat -> scan_ok s r -> scan_ok s' r.
Proof. destruct r as [[[a rest] o]|e|]; simpl; [lia | auto | auto]. Qed.

Lemma scan_ok_bind {A B : Type} (s : string) (r : result (A * string * bool))
    (k : A * string * bool -> result (B * string * bool)) :
  scan_ok s r ->
  (forall a rest o, r = Ok (a, rest, o) ->
     (String.length rest < String.length s)%nat -> scan_ok s (k (a, rest, o))) ->
  scan_ok s (r ≫= k).
Proof.
  destruct r as [[[a rest] o]|e|]; simpl; [|auto|auto].
  intros Hlt Hk. now apply Hk.
Qed.

Lemma drop_while_length (p : ascii -> bool) (s : string) :
  (String.length (Str.drop_while p s) <= String.length s)%nat.
Proof.
  induction s as [|c s IH]; simpl; [lia|]. destruct (p c); simpl; lia.
Qed.

Lemma skip_ws_length (s : string) :
  (String.length (Json.skip_ws s) <= String.length s)%nat.
Proof. apply drop_while_length. Qed.

Lemma skip_length (n : nat) (c : ascii) (r : string) :
  (String.length (Json.skip (S n) (String c r)) < String.length (String c r))%nat.
Proof.
  simpl. revert r. induction n as [|n IH]; intros r; simpl; [lia|].
  destruct r as [|c' r]; simpl; [lia|]. specialize (IH r). lia.
Qed.

Lemma scanstring_ok (s : string) : scan_ok s (Json.scanstring s).
Proof.
  remember (String.length s) as n eqn:Hn.
  assert (Hle : (String.length s <= n)%nat) by lia. clear Hn.
  revert s Hle. induction n as [|n IH]; intros s Hle.
  - destruct s; [reflexivity | simpl in Hle; lia].
  - destruct s as [|c r]; [reflexivity|]. simpl in Hle.
    cbn [Json.scanstring].
    destruct (Ascii.eqb c Json.QUOTE); [simpl; lia|].
    destruct (Ascii.eqb c Json.BACKSLASH).
    + destruct r as [|e r']; [reflexivity|].
      destruct (Ascii.eqb e "u").
      * destruct r' as [|h1 [|h2 [|h3 [|h4 r'']]]]; try reflexivity.
        destruct (Json.hex4 h1 h2 h3 h4); [|reflexivity].
        assert (H := IH r'' ltac:(simpl in *; lia)).
        destruct (Json.scanstring r'') as [[[t rest] o]|e'|]; simpl in *;
          [lia | auto | auto].
      * destruct (Json.unescape e); [|reflexivity].
        assert (H := IH r' ltac:(simpl in *; lia)).
        destruct (Json.scanstring r') as [[[t rest] o]|e'|]; simpl in *;
          [lia | auto | auto].
    + destruct (Str.code c <? 32)%N; [reflexivity|].
      assert (H := IH r ltac:(lia)).
      destruct (Json.scanstring r) as [[[t rest] o]|e'|]; simpl in *;
        [lia | auto | auto].
Qed.

Lemma span_digits_spec (s : string) :
  all_chars Str.isdigit (Json.span_digits s).1 = true /\
  s = (Json.span_digits s).1 +:+ (Json.span_digits s).2.
Proof.
  induction s as [|c s [IH1 IH2]]; [auto|].
  simpl. destruct (Str.isdigit c) eqn:Hc; [|auto].
  destruct (Json.span_digits s) as [ds rest]. simpl in *.
  rewrite Hc, IH1. split; [reflexivity | congruence].
Qed.

Lemma span_digits_length (s : string) :
  (String.length (Json.span_digits s).2 <= String.length s)%nat.
Proof.
  destruct (span_digits_spec s) as [_ H]. rewrite H at 2.
  rewrite length_append. lia.
Qed.

Lemma digits_value_some (ds : string) :
  all_chars Str.isdigit ds = true -> exists v, Str.digits_value ds = Some v.
Proof.
  unfold Str.digits_value. induction ds as [|c ds IH]; [eauto|].
  simpl. intros [Hc Hds]%andb_true_iff.
  destruct (IH Hds) as [v Hv].
  destruct (NilEmpty.uint_of_string ds) as [u|]; [|discriminate].
  digit_cases c Hc; simpl; eauto.
Qed.

Lemma int_part_spec (s ds r0 : string) :
  Json.int_part s = Some (ds, r0) ->
  (exists c ds', ds = String c ds' /\ Str.isdigit c = true /\
                 all_chars Str.isdigit ds' = true) /\
  s = ds +:+ r0.
Proof.
  destruct s as [|c r]; [discriminate|]. simpl.
  destruct (Ascii.eqb c "0") eqn:H0.
  - apply Ascii.eqb_eq in H0. subst c. intros [= <- <-].
    split; [|reflexivity]. exists "0"%char, EmptyString. auto.
  - destruct (Str.isdigit c) eqn:Hc; [|discriminate].
    destruct (span_digits_spec r) as [Hd Hr].
    destruct (Json.span_digits r) as [ds' rest]. simpl in *.
    intros [= <- <-]. split; [eauto|]. simpl. congruence.
Qed.

Lemma frac_part_length (s r : string) :
  Json.frac_part s = Some r -> (String.length r <= String.length s)%nat.
Proof.
  destruct s as [|p [|c s]]; try discriminate. simpl.
  destruct (Ascii.eqb p "." && Str.isdigit c); [|discriminate].
  intros [= <-]. pose proof (span_digits_length s). lia.
Qed.

Lemma exp_part_length (s r : string) :
  Json.exp_part s = Some r -> (String.length r <= String.length s)%nat.
Proof.
  destruct s as [|e s]; [discriminate|]. simpl.
  destruct (Ascii.eqb e "e" || Ascii.eqb e "E"); [|discriminate].
  destruct s as [|sg s]; [discriminate|].
  destruct (Ascii.eqb sg "+" || Ascii.eqb sg "-").
  - destruct s as [|c s]; [discriminate|].
    destruct (Str.isdigit c); [|discriminate].
    intros [= <-]. pose proof (span_digits_length s). simpl. lia.
  - destruct (Str.isdigit sg); [|discriminate].
    intros [= <-]. pose proof (span_digits_length s). simpl. lia.
Qed.

Lemma match_number_ok (s : string) : scan_ok s (Json.match_number s).
Proof.
  unfold Json.match_number.
  assert (Hsign : exists neg s1,
            match s with
            | String c r => if Ascii.eqb c "-" then ("-", r) else (EmptyString, s)
            | EmptyString => (EmptyString, s)
            end = ((if neg : bool then "-" else EmptyString), s1) /\
            (String.length s1 <= String.length s)%nat).
  { destruct s as [|c r]; [exists false, EmptyString; auto|].
    destruct (Ascii.eqb c "-"); [exists true, r | exists false, (String c r)];
      simpl; split; auto; lia. }
  destruct Hsign as (neg & s1 & -> & Hs1).
  destruct (Json.int_part s1) as [[ds r0]|] eqn:Hip; [|reflexivity].
  apply int_part_spec in Hip as [(c & ds' & -> & Hc & Hds) Hs].
  assert (Hr0 : (String.length r0 < String.length s1)%nat).
  { rewrite Hs, length_append. simpl. lia. }
  assert (Hr1 : exists b r1,
            match Json.frac_part r0 with
            | Some r => (true, r)
            | None => (false, r0)
            end = (b, r1) /\ (String.length r1 <= String.length r0)%nat).
  { destruct (Json.frac_part r0) as [r|] eqn:Hf; [|eauto].
    apply frac_part_length in Hf. eauto. }
  destruct Hr1 as (b1 & r1 & -> & Hr1).
  assert (Hr2 : exists b r2,
            match Json.exp_part r1 with
            | Some r => (true, r)
            | None => (false, r1)
            end = (b, r2) /\ (String.length r2 <= String.length r1)%nat).
  { destruct (Json.exp_part r1) as [r|] eqn:He; [|eauto].
    apply exp_part_length in He. eauto. }
  destruct Hr2 as (b2 & r2 & -> & Hr2).
  destruct (b1 || b2); [simpl; lia|].
  destruct (digits_value_some (String c ds')) as [v Hv].
  { simpl. now rewrite Hc, Hds. }
  rewrite (int_digits neg c ds' v Hc Hds Hv). simpl. lia.
Qed.

Lemma scan_once_step (fuel : nat) :
  fuel_enough fuel ->
  forall s, (2 * String.length s < S fuel)%nat ->
    scan_ok s (Json.scan_once (S fuel) s).
Proof.
  intros (_ & Hitems & Hmembers) s Hfuel.
  destruct s as [|c r]; [reflexivity|]. cbn [Json.scan_once].
  pose proof (skip_ws_length r) as Hskip. simpl in Hfuel.
  destruct (Ascii.eqb c Json.QUOTE).
  { pose proof (scanstring_ok r) as H.
    destruct (Json.scanstring r) as [[[t rest] o]|e|]; simpl in *; [lia | auto | auto]. }
  destruct (Ascii.eqb c "{").
  { destruct (Json.skip_ws r) as [|c1 rest] eqn:Hr; [reflexivity|].
    destruct (Ascii.eqb c1 "}"); [simpl in *; lia|].
    pose proof (Hmembers (String c1 rest) [] ltac:(simpl in *; lia)) as H.
    destruct (Json.scan_members fuel (String c1 rest) [])
      as [[[d rest'] o]|e|]; simpl in *; [lia | auto | auto]. }
  destruct (Ascii.eqb c "[").
  { destruct (Json.skip_ws r) as [|c1 rest] eqn:Hr; [reflexivity|].
    destruct (Ascii.eqb c1 "]"); [simpl in *; lia|].
    pose proof (Hitems (String c1 rest) ltac:(simpl in *; lia)) as H.
    destruct (Json.scan_items fuel (String c1 rest))
      as [[[l rest'] o]|e|]; simpl in *; [lia | auto | auto]. }
  destruct (Ascii.eqb c "n" && String.prefix "null" (String c r));
    [apply (skip_length 3 c r)|].
  destruct (Ascii.eqb c "t" && String.prefix "true" (String c r));
    [apply (skip_length 3 c r)|].
  destruct (Ascii.eqb c "f" && String.prefix "false" (String c r));
    [apply (skip_length 4 c r)|].
  destruct (Ascii.eqb c "N" && String.prefix "NaN" (String c r));
    [apply (skip_length 2 c r)|].
  destruct (Ascii.eqb c "I" && String.prefix "Infinity" (String c r));
    [apply (skip_length 7 c r)|].
  destruct (Ascii.eqb c "-" && String.prefix "-Infinity" (String c r));
    [apply (skip_length 8 c r)|].
  apply match_number_ok.
Qed.

Lemma scan_items_step (fuel : nat) :
  fuel_enough fuel ->
  forall s, (2 * String.length s + 1 < S fuel)%nat ->
    scan_ok s (Json.scan_items (S fuel) s).
Proof.
  intros (Honce & Hitems & _) s Hfuel. cbn [Json.scan_items].
  pose proof (Honce s ltac:(lia)) as H.
  destruct (Json.scan_once fuel s) as [[[v rest] o]|e|]; simpl in H; [|auto|auto].
  cbn [mbind result_bind].
  pose proof (skip_ws_length rest) as Hskip.
  destruct (Json.skip_ws rest) as [|c rest']; [reflexivity|].
  destruct (Ascii.eqb c "]"); [simpl in *; lia|].
  destruct (Ascii.eqb c ","); [|reflexivity].
  pose proof (skip_ws_length rest') as Hskip'.
  pose proof (Hitems (Json.skip_ws rest') ltac:(simpl in *; lia)) as H'.
  destruct (Json.scan_items fuel (Json.skip_ws rest'))
    as [[[l rest''] o']|e|]; simpl in *; [lia | auto | auto].
Qed.

Lemma scan_members_step (fuel : nat) :
  fuel_enough fuel ->
  forall s acc, (2 * String.length s + 1 < S fuel)%nat ->
    scan_ok s (Json.scan_members (S fuel) s acc).
Proof.
  intros (Honce & _ & Hmembers) s acc Hfuel. cbn [Json.scan_members].
  destruct s as [|c r]; [reflexivity|].
  destruct (Ascii.eqb c Json.QUOTE); [|reflexivity].
  pose proof (scanstring_ok r) as H.
  destruct (Json.scanstring r) as [[[k rest] o]|e|]; simpl in H; [|auto|auto].
  cbn [mbind result_bind].
  pose proof (skip_ws_length rest) as Hskip.
  destruct (Json.skip_ws rest) as [|c1 rest1]; [reflexivity|].
  destruct (Ascii.eqb c1 ":"); [|reflexivity].
  pose proof (skip_ws_length rest1) as Hskip1.
  pose proof (Honce (Json.skip_ws rest1) ltac:(simpl in *; lia)) as H1.
  destruct (Json.scan_once fuel (Json.skip_ws rest1))
    as [[[v rest2] o']|e|]; simpl in H1; [|auto|auto].
  cbn [mbind result_bind].
  pose proof (skip_ws_length rest2) as Hskip2.
  destruct (Json.skip_ws rest2) as [|c2 rest3]; [reflexivity|].
  destruct (Ascii.eqb c2 "}"); [simpl in *; lia|].
  destruct (Ascii.eqb c2 ","); [|reflexivity].
  pose proof (skip_ws_length rest3) as Hskip3.
  pose proof (Hmembers (Json.skip_ws rest3) (Dict.set acc k v)
                ltac:(simpl in *; lia)) as H3.
  destruct (Json.scan_members fuel (Json.skip_ws rest3) (Dict.set acc k v))
    as [[[d rest4] o'']|e|]; simpl in *; [lia | auto | auto].
Qed.

Lemma fuel_enough_all (fuel : nat) : fuel_enough fuel.
Proof.
  induction fuel as [|fuel IH].
  - repeat split; intros; lia.
  - split; [|split].
    + now apply scan_once_step.
    + now apply scan_items_step.
    + now apply scan_members_step.
Qed.

(** [json.loads] returns, or raises [JSONDecodeError], or meets a float or
    a character outside the model: the fuel it gives the scanner is
    enough for every text. *)
Lemma loads_outcomes (s : string) :
  (exists v, Json.loads s = Ok v) \/
  Json.loads s = Raise JSONDecodeError \/
  Json.loads s = Unmodelled.
Proof.
  unfold Json.loads.
  pose proof (proj1 (fuel_enough_all (S (2 * String.length (Json.skip_ws s))))
                (Json.skip_ws s) ltac:(lia)) as H.
  destruct (Json.scan_once _ _) as [[[v rest] o]|e|]; simpl in H.
  - cbn [mbind result_bind]. destruct (Json.skip_ws rest); [|auto].
    destruct o; eauto.
  - subst e. auto.
  - contradiction.
Qed.

Lemma decode_ok_fmap (f : string -> string) (r : result string) :
  decode_ok r -> decode_ok (f <$> r).
Proof. destruct r; simpl; auto. Qed.

Lemma decode_ok_above (r : result string) : decode_ok r -> decode_ok (Utf8.above r).
Proof. destruct r; simpl; auto. Qed.

Lemma decode_outcomes (bs : list byte) : decode_ok (Utf8.decode bs).
Proof.
  remember (length bs) as n eqn:Hn.
  assert (Hle : (length bs <= n)%nat) by lia. clear Hn.
  revert bs Hle. induction n as [|n IH]; intros bs Hle.
  - destruct bs; [exact I | simpl in Hle; lia].
  - destruct bs as [|b0 r]; [exact I|]. simpl in Hle. cbn [Utf8.decode].
    destruct (Byte.to_N b0 <? 128)%N.
    { apply decode_ok_fmap, IH. lia. }
    destruct (Str.between 194 223 (Byte.to_N b0)).
    { destruct r as [|b1 r1]; [reflexivity|].
      destruct (Utf8.cont b1); [|reflexivity].
      destruct (_ <=? 255)%N.
      - apply decode_ok_fmap, IH. simpl in Hle. lia.
      - apply decode_ok_above, IH. simpl in Hle. lia. }
    destruct (Str.between 224 239 (Byte.to_N b0)).
    { destruct r as [|b1 [|b2 r2]]; try reflexivity.
      destruct (Utf8.second_ok _ b1 && Utf8.cont b2); [|reflexivity].
      apply decode_ok_above, IH. simpl in Hle. lia. }
    destruct (Str.between 240 244 (Byte.to_N b0)); [|reflexivity].
    destruct r as [|b1 [|b2 [|b3 r3]]]; try reflexivity.
    destruct (Utf8.second_ok _ b1 && Utf8.cont b2 && Utf8.cont b3); [|reflexivity].
    apply decode_ok_above, IH. simpl in Hle. lia.
Qed.


(** ** Saving and loading *)

Lemma employee_valid (id : Z) (name : string) (age : Z) (department : string) :
  valid (employee id name age department).
Proof.
  apply valid_dict. split; [|repeat constructor].
  apply (bool_decide_unpack _). vm_compute. exact I.
Qed.

(** C6. A roster of records of the data model (more generally, of values
    whose dictionaries have distinct keys, as every Python dictionary has)
    that is saved to a path is loaded back from that path as the same
    roster. *)
Theorem save_load_round_trip (employees : list value) (filename : string)
    (w : world) :
  Forall valid employees ->
  fs w !! filename <> Some Directory ->
  exists w',
    save_data employees filename w = Ok (tt, w') /\
    load_data filename w' = Ok (employees, w').
Proof.
  intros Hv Hfs.
  exists {| fs := <[filename := File (saved employees)]> (fs w);
            stdin := stdin w; stdout := stdout w |}.
  split.
  - unfold save_data, IO.write_text, saved.
    destruct (fs w !! filename) as [[]|]; [reflexivity | congruence | reflexivity].
  - unfold load_data, mbind, M_bind, IO.exists_. cbn [fs].
    rewrite lookup_insert_eq.
    rewrite bool_decide_eq_true_2 by eauto. cbn [negb].
    unfold try_except, IO.read_text. cbn [fs].
    rewrite lookup_insert_eq. unfold saved.
    rewrite decode_encode. cbn [mbind result_bind].
    rewrite universal_newlines_id by apply no_cr_encode.
    rewrite loads_dumps by (apply valid_list; exact Hv).
    reflexivity.
Qed.

Lemma save_load_round_trip_witness :
  exists w',
    save_data [employee 1 "Bob" 30 "Eng"; employee 2 "Amy" 25 "General"]
      DATA_FILE {| fs := ∅; stdin := []; stdout := [] |}
    = Ok (tt, w') /\
    load_data DATA_FILE w'
    = Ok ([employee 1 "Bob" 30 "Eng"; employee 2 "Amy" 25 "General"], w').
Proof.
  apply (save_load_round_trip
           [employee 1 "Bob" 30 "Eng"; employee 2 "Amy" 25 "General"]
           DATA_FILE {| fs := ∅; stdin := []; stdout := [] |}).
  - constructor; [apply employee_valid|].
    constructor; [apply employee_valid | constructor].
  - simpl. rewrite lookup_empty. discriminate.
Defined.

(** ** Loading *)

(** [load_data], case by case: the path, the bytes of the file, the text
    decoded from them. *)
Lemma load_data_outcomes (filename : string) (w : world) :
  load_data filename w
  = match fs w !! filename with
    | None | Some Directory => Ok ([], w)
    | Some (File bs) =>
        match Utf8.decode bs with
        | Ok text =>
            match Json.loads (IO.universal_newlines text) with
            | Ok (VList l) => Ok (l, w)
            | Ok _ => Ok ([], w)
            | Raise e => if load_caught e then Ok ([], w) else Raise e
            | Unmodelled => Unmodelled
            end
        | Raise e => if load_caught e then Ok ([], w) else Raise e
        | Unmodelled => Unmodelled
        end
    end.
Proof.
  unfold load_data, mbind, M_bind, IO.exists_, try_except, IO.read_text, lift.
  destruct (fs w !! filename) as [[bs|]|] eqn:Hf.
  - rewrite bool_decide_eq_true_2 by eauto. cbn [negb]. rewrite Hf.
    destruct (Utf8.decode bs) as [text|e|]; cbn [mbind result_bind]; try reflexivity.
    destruct (Json.loads (IO.universal_newlines text)) as [[]|e|]; reflexivity.
  - rewrite bool_decide_eq_true_2 by eauto. cbn [negb]. rewrite Hf. reflexivity.
  - rewrite bool_decide_eq_false_2 by (intros [? [=]]). reflexivity.
Qed.

(** What the specification says of [load_data], where the program does it:
    no file at the path, a text that is not JSON, a JSON value that is not
    a list, and a JSON list. *)
Lemma load_data_missing (filename : string) (w : world) :
  fs w !! filename = None -> load_data filename w = Ok ([], w).
Proof. intros H. now rewrite load_data_outcomes, H. Qed.

Lemma load_data_not_json (filename : string) (w : world) (bs : list byte)
    (text : string) :
  fs w !! filename = Some (File bs) -> Utf8.decode bs = Ok text ->
  Json.loads (IO.universal_newlines text) = Raise JSONDecodeError ->
  load_data filename w = Ok ([], w).
Proof. intros H1 H2 H3. now rewrite load_data_outcomes, H1, H2, H3. Qed.

Lemma load_data_not_list (filename : string) (w : world) (bs : list byte)
    (text : string) (v : value) :
  fs w !! filename = Some (File bs) -> Utf8.decode bs = Ok text ->
  Json.loads (IO.universal_newlines text) = Ok v ->
  (forall l, v <> VList l) ->
  load_data filename w = Ok ([], w).
Proof.
  intros H1 H2 H3 Hv. rewrite load_data_outcomes, H1, H2, H3.
  destruct v; try reflexivity. now destruct (Hv l).
Qed.

Lemma load_data_list (filename : string) (w : world) (bs : list byte)
    (text : string) (l : list value) :
  fs w !! filename = Some (File bs) -> Utf8.decode bs = Ok text ->
  Json.loads (IO.universal_newlines text) = Ok (VList l) ->
  load_data filename w = Ok (l, w).
Proof. intros H1 H2 H3. now rewrite load_data_outcomes, H1, H2, H3. Qed.

(** [load_data] returns a roster and leaves the world as it was, unless
    the bytes of the file are not UTF-8 (or the content is outside the
    model). *)
Lemma load_data_total (filename : string) (w : world) :
  (exists l, load_data filename w = Ok (l, w)) \/
  load_data filename w = Raise UnicodeDecodeError \/
  load_data filename w = Unmodelled.
Proof.
  rewrite load_data_outcomes.
  destruct (fs w !! filename) as [[bs|]|];
    [| left; eexists; reflexivity | left; eexists; reflexivity].
  pose proof (decode_outcomes bs) as Hd.
  destruct (Utf8.decode bs) as [text|e|]; simpl in Hd; [| subst e; auto | auto].
  destruct (loads_outcomes (IO.universal_newlines text)) as [[v ->] | [-> | ->]];
    [| left; eexists; reflexivity | auto].
  destruct v; left; eexists; reflexivity.
Qed.

(** C5, where the program departs from it.  A data file whose bytes are not
    UTF-8 (here a roster written in Latin-1, with the byte E9 for the last
    letter of a name) is not valid JSON, and [load_data] does not return
    the empty roster for it: the [UnicodeDecodeError] of the read is not
    among the exceptions the handler names, and ends the call. *)
Theorem load_data_undecodable_file :
  let latin1 :=
    (Utf8.encode "[{" ++ [x22; x6e; x22; x3a; x22; x4a; x6f; x73; xe9; x22] ++
     Utf8.encode "}]")%list in
  let w := {| fs := {[DATA_FILE := File latin1]}; stdin := []; stdout := [] |} in
  Utf8.decode latin1 = Raise UnicodeDecodeError /\
  load_caught UnicodeDecodeError = false /\
  load_data DATA_FILE w = Raise UnicodeDecodeError.
Proof. repeat split; vm_compute; reflexivity. Qed.

(** * The other paths of the functions, the search prompt and the menu *)

(** ** Names *)

Lemma all_chars_app (q : ascii -> bool) (a b : string) :
  all_chars q (a +:+ b) = all_chars q a && all_chars q b.
Proof.
  induction a as [|c a IH]; simpl; [reflexivity|].
  now rewrite IH, andb_assoc.
Qed.

Lemma trim_empty (p : ascii -> bool) (s : string) :
  Str.trim p s = EmptyString <-> all_chars p s = true.
Proof.
  split.
  - intros H. destruct (trim_split p s) as (w1 & w2 & Hs & H1 & H2).
    rewrite H in Hs. rewrite Hs. simpl.
    now rewrite all_chars_app, H1, H2.
  - intros H. unfold Str.trim. now rewrite (drop_while_spaces p s H).
Qed.

(** X1. [validate_name] refuses exactly the names made of whitespace only,
    the empty name among them: a name is accepted when one of its
    characters at least is no whitespace. *)
Theorem validate_name_blank (name : string) :
  validate_name name = negb (all_chars Str.isspace name).
Proof.
  unfold validate_name, Str.strip.
  destruct (all_chars Str.isspace name) eqn:Hall.
  - apply trim_empty in Hall. now rewrite Hall.
  - destruct (Str.trim Str.isspace name) eqn:Ht; [|reflexivity].
    apply trim_empty in Ht. congruence.
Qed.

(** ** Ages *)

Lemma int_padded (pad1 t pad2 : string) :
  all_chars Str.int_isspace pad1 = true -> all_chars Str.int_isspace pad2 = true ->
  Str.int (pad1 +:+ t +:+ pad2) = Str.int t.
Proof.
  intros H1 H2. unfold Str.int. now rewrite trim_padded.
Qed.

(** X2. Every integer from 15 to 100 is accepted by [validate_age] in its
    decimal writing, also with blanks (the whitespace [int] skips) before
    and after it. *)
Theorem validate_age_accepts (n : Z) (pad1 pad2 : string) :
  15 <= n <= 100 ->
  all_chars Str.int_isspace pad1 = true -> all_chars Str.int_isspace pad2 = true ->
  validate_age (pad1 +:+ Str.of_int n +:+ pad2) = Ok (Some n).
Proof.
  intros Hn H1 H2. unfold validate_age.
  rewrite int_padded, int_of_int by assumption.
  replace ((15 <=? n) && (n <=? 100)) with true; [reflexivity|].
  symmetry. apply andb_true_iff. rewrite !Z.leb_le. lia.
Qed.

Lemma validate_age_accepts_witness :
  validate_age (" " +:+ Str.of_int 42 +:+ "  ") = Ok (Some 42).
Proof. apply (validate_age_accepts 42 " " "  "); [lia | reflexivity | reflexivity]. Defined.

(** ** Additions that are refused, additions that fail *)

Lemma validate_age_none (s : string) :
  (forall n, Str.int s = Ok n -> n < 15 \/ 100 < n) -> validate_age s = Ok None.
Proof.
  intros H. unfold validate_age.
  destruct (int_returns_or_value_error s) as [[n Hn] | Hn]; rewrite Hn; [|reflexivity].
  destruct (H n Hn) as [Hlt | Hgt].
  - replace (15 <=? n) with false; [reflexivity | symmetry; apply Z.leb_gt; lia].
  - replace (n <=? 100) with false;
      [now rewrite andb_false_r | symmetry; apply Z.leb_gt; lia].
Qed.

(** X3. [add_employee] refuses a name made of whitespace only after one
    line was read, and an age that is no integer from 15 to 100 after two:
    it prints the message of the case and returns the roster as it was,
    whatever the roster holds.  No file is written, and the lines that
    follow are left to be read. *)
Theorem add_employee_refuses (employees : list value) (w : world)
    (name_line age_line : string) (unread : list string) :
  (stdin w = name_line :: unread ->
   all_chars Str.isspace name_line = true ->
   add_employee employees w
   = Ok (employees,
         {| fs := fs w; stdin := unread;
            stdout := stdout w ++ ["Enter name: ";
                                   IO.line "Invalid name. Try again."] |})) /\
  (stdin w = name_line :: age_line :: unread ->
   all_chars Str.isspace name_line = false ->
   (forall n, Str.int (Str.strip age_line) = Ok n -> n < 15 \/ 100 < n) ->
   add_employee employees w
   = Ok (employees,
         {| fs := fs w; stdin := unread;
            stdout := stdout w ++
              ["Enter name: "; "Enter age (15-100): ";
               IO.line "Invalid age. Must be number between 15 and 100."] |})).
Proof.
  destruct w as [f i o]. cbn [stdin fs stdout]. split.
  - intros -> Hblank. apply trim_empty in Hblank.
    assert (Hno : validate_name (Str.strip name_line) = false).
    { unfold Str.strip. now rewrite Hblank. }
    unfold add_employee, mbind, M_bind, IO.input, IO.print, mret, M_ret.
    cbn [stdin fs stdout]. rewrite Hno.
    cbn [negb stdin fs stdout]. now rewrite <- app_assoc.
  - intros -> Hname Hage.
    assert (Hok : validate_name (Str.strip name_line) = true).
    { apply validate_name_stripped. intros H. apply trim_empty in H. congruence. }
    unfold add_employee, mbind, M_bind, IO.input, IO.print, lift, mret, M_ret.
    cbn [stdin fs stdout]. rewrite Hok.
    cbn [negb stdin fs stdout]. rewrite (validate_age_none _ Hage).
    cbn [stdin fs stdout]. now rewrite <- !app_assoc.
Qed.

Lemma add_employee_refuses_witness :
  add_employee [VInt 7] {| fs := ∅; stdin := ["   "; "x"]; stdout := [] |}
  = Ok ([VInt 7],
        {| fs := ∅; stdin := ["x"];
           stdout := ["Enter name: "; IO.line "Invalid name. Try again."] |}) /\
  add_employee [VInt 7] {| fs := ∅; stdin := ["Bob"; "14"; "x"]; stdout := [] |}
  = Ok ([VInt 7],
        {| fs := ∅; stdin := ["x"];
           stdout := ["Enter name: "; "Enter age (15-100): ";
                      IO.line "Invalid age. Must be number between 15 and 100."] |}).
Proof.
  split.
  - apply (proj1 (add_employee_refuses [VInt 7]
                    {| fs := ∅; stdin := ["   "; "x"]; stdout := [] |}
                    "   " "x" ["x"])); reflexivity.
  - apply (proj2 (add_employee_refuses [VInt 7]
                    {| fs := ∅; stdin := ["Bob"; "14"; "x"]; stdout := [] |}
                    "Bob" "14" ["x"])); [reflexivity | reflexivity |].
    intros n H. vm_compute in H. injection H as <-. lia.
Defined.

Lemma gt_raises : forall (a b : value) (e : exn),
  Py.gt a b = Raise e -> e = TypeError.
Proof.
  fix IH 1. intros a b e.
  destruct a as [| x | x | x | la | da]; destruct b as [| y | y | y | lb | db];
    cbn [Py.gt]; try congruence.
  revert la lb. fix IHla 1. intros [|x la] [|y lb]; try congruence.
  destruct (Py.eq x y); [apply IHla | apply IH].
Qed.

Lemma max_from_raises (held : value) (es : list value) (e : exn) :
  Py.max_from (fun e => Py.get e "id" (VInt 0)) held es = Raise e ->
  e = TypeError \/ e = AttributeError.
Proof.
  revert held. induction es as [|x es IH]; intros held; cbn [Py.max_from].
  - discriminate.
  - destruct x; cbn [Py.get mbind result_bind]; try (intros [= <-]; now right).
    destruct (Py.gt _ held) as [g | e' |] eqn:Hg; cbn [mbind result_bind].
    + apply IH.
    + intros [= <-]. left. exact (gt_raises _ _ _ Hg).
    + discriminate.
Qed.

(** The next identifier is computed, or the computation raises [TypeError]
    or [AttributeError]. *)
Lemma next_id_raises (employees : list value) (e : exn) :
  next_id employees = Raise e -> e = TypeError \/ e = AttributeError.
Proof.
  unfold next_id, Py.max_default.
  destruct employees as [|x es]; cbn [mbind result_bind Py.add1]; [discriminate|].
  destruct (Py.get x "id" (VInt 0)) as [h | e' |] eqn:Hget;
    cbn [mbind result_bind].
  - destruct (Py.max_from _ h es) as [m | e' |] eqn:Hmax; cbn [mbind result_bind].
    + destruct m; cbn [Py.add1]; try discriminate; intros [= <-]; now left.
    + intros [= <-]. exact (max_from_raises _ _ _ Hmax).
    + discriminate.
  - destruct x; cbn [Py.get] in Hget; try discriminate;
      injection Hget as <-; intros [= <-]; now right.
  - discriminate.
Qed.

Lemma validate_age_returns (s : string) : exists a, validate_age s = Ok a.
Proof.
  unfold validate_age.
  destruct (int_returns_or_value_error s) as [[n ->] | ->]; [|eauto].
  destruct (_ && _); eauto.
Qed.

(** X4. [add_employee] raises [EOFError] exactly when the lines end before
    its three answers are read: at the name, at the age after an accepted
    name, or at the department after an accepted name and an accepted age.
    This holds whatever the roster holds: the identifiers are looked at
    after the third answer only. *)
Theorem add_employee_end_of_input (employees : list value) (w : world) :
  add_employee employees w = Raise EOFError <-> answers_cut_short (stdin w).
Proof.
  destruct w as [f i o].
  unfold add_employee, mbind, M_bind, IO.input, IO.print, lift, mret, M_ret.
  cbn [stdin fs stdout].
  destruct i as [|l1 i]; [easy|]. cbn [answers_cut_short].
  destruct (validate_name (Str.strip l1)) eqn:Hname; cbn [negb stdin fs stdout].
  2:{ split; [discriminate|]. destruct i as [|l2 [|l3 i]]; easy. }
  destruct i as [|l2 i]; [easy|].
  destruct (validate_age_returns (Str.strip l2)) as [a Ha]. rewrite Ha.
  destruct a as [age|]; cbn [stdin fs stdout].
  2:{ split; [discriminate|]. destruct i as [|l3 i]; [|easy].
      intros [_ [age Hage]]. discriminate Hage. }
  destruct i as [|l3 i]; [split; eauto|].
  split; [|easy]. intros H. exfalso.
  destruct (next_id employees) as [n | e |] eqn:Hnext.
  - unfold save_data, IO.write_text in H. cbn [stdin fs stdout] in H.
    destruct (f !! DATA_FILE) as [[]|]; discriminate.
  - injection H as ->. destruct (next_id_raises _ _ Hnext); discriminate.
  - discriminate.
Qed.

(** The age is asked for and there is no line left: the roster, which is
    no list of records here, has not been looked at. *)
Example add_employee_no_age_line :
  add_employee [VInt 7] {| fs := ∅; stdin := [" Amy "]; stdout := [] |}
  = Raise EOFError.
Proof. reflexivity. Qed.

(** X5. When the path of the data file is a directory, [load_data] returns
    the empty roster (the error of the read is caught), and an addition
    that passes the validation raises [OSError]: the error of the write is
    not caught. *)
Theorem data_file_is_directory (employees : list value) (ids : list Z)
    (name_line age_line dept_line : string) (age : Z) (w : world)
    (unread : list string) :
  fs w !! DATA_FILE = Some Directory ->
  Forall2 id_view employees ids ->
  Str.strip name_line <> EmptyString ->
  Str.int (Str.strip age_line) = Ok age -> 15 <= age <= 100 ->
  stdin w = name_line :: age_line :: dept_line :: unread ->
  load_data DATA_FILE w = Ok ([], w) /\
  add_employee employees w = Raise OSError.
Proof.
  intros Hdir Hids Hname Hint Hage Hin. split.
  - now rewrite load_data_outcomes, Hdir.
  - destruct (next_id_spec employees ids Hids) as (m & Hm & Hnext).
    destruct w as [fs0 in0 out0]. simpl in Hin, Hdir. subst in0.
    apply validate_name_stripped in Hname.
    assert (Hrange : (15 <=? age) && (age <=? 100) = true).
    { apply andb_true_iff. rewrite !Z.leb_le. lia. }
    unfold add_employee, mbind, M_bind, IO.input. cbn [stdin fs stdout].
    rewrite Hname. cbn [negb stdin fs stdout].
    unfold validate_age, lift. rewrite Hint, Hrange, Hnext.
    unfold save_data, IO.write_text, IO.print, mret, M_ret. cbn [stdin fs stdout].
    now rewrite Hdir.
Qed.

Lemma data_file_is_directory_witness :
  load_data DATA_FILE
    {| fs := {[DATA_FILE := Directory]}; stdin := ["Amy"; "25"; "Ops"];
       stdout := [] |}
  = Ok ([], {| fs := {[DATA_FILE := Directory]}; stdin := ["Amy"; "25"; "Ops"];
               stdout := [] |}) /\
  add_employee []
    {| fs := {[DATA_FILE := Directory]}; stdin := ["Amy"; "25"; "Ops"];
       stdout := [] |}
  = Raise OSError.
Proof.
  apply (data_file_is_directory [] [] "Amy" "25" "Ops" 25
           {| fs := {[DATA_FILE := Directory]}; stdin := ["Amy"; "25"; "Ops"];
              stdout := [] |} []).
  - reflexivity.
  - constructor.
  - discriminate.
  - reflexivity.
  - lia.
  - reflexivity.
Defined.

(** ** An addition followed by a deletion or a search *)

Lemma ids_not_target (es : list value) (ids : list Z) (target : Z) :
  Forall2 has_int_id es ids -> target ∉ ids ->
  Forall (fun x => id_is x target = false) es.
Proof.
  induction 1 as [|e i es ids He _ IH]; intros Hnot; constructor.
  - rewrite (has_int_id_is e i target He). apply Z.eqb_neq.
    intros ->. apply Hnot. left.
  - apply IH. intros Hin. apply Hnot. now right.
Qed.

Lemma greatest_not_in (ids : list Z) (m : Z) : greatest ids m -> 1 + m ∉ ids.
Proof.
  intros Hm Hin. apply list_elem_of_In in Hin.
  pose proof (greatest_fresh ids m Hm _ Hin). lia.
Qed.

(** X6. Deleting the identifier that [add_employee] has just assigned gives
    back the roster as it was before the addition, and saves it: on a
    roster with integer identifiers, the new identifier is the identifier
    of no other record. *)
Theorem add_then_delete (employees : list value) (ids : list Z)
    (name_line age_line dept_line : string) (age : Z) (w : world)
    (unread : list string) :
  Forall2 has_int_id employees ids ->
  Str.strip name_line <> EmptyString ->
  Str.int (Str.strip age_line) = Ok age -> 15 <= age <= 100 ->
  stdin w = name_line :: age_line :: dept_line :: unread ->
  fs w !! DATA_FILE <> Some Directory ->
  exists m employees' w',
    greatest ids m /\
    add_employee employees w = Ok (employees', w') /\
    employees' <> employees /\
    delete_by_id employees' (1 + m) w'
    = Ok (employees, true, after w' DATA_FILE (saved employees) unread []).
Proof.
  intros Hids Hname Hint Hage Hin Hfs.
  assert (Hv : Forall2 id_view employees ids).
  { eapply Forall2_impl; [exact Hids | apply has_int_id_view]. }
  destruct (add_employee_returns employees ids name_line age_line dept_line age w
              unread Hv Hname Hint Hage Hin Hfs) as (m & Hm & Hadd).
  cbv zeta in Hadd. exists m. eexists. eexists.
  split; [exact Hm|]. split; [exact Hadd|]. split.
  { intros H. apply (f_equal length) in H. rewrite length_app in H. simpl in H. lia. }
  unfold delete_by_id.
  match goal with |- delete_loop (?es ++ [?e]) _ _ _ ?w1 = _ =>
    pose proof (delete_loop_found w1 (1 + m) e [] es []) as Hdel end.
  simpl in Hdel. rewrite app_nil_r in Hdel. apply Hdel.
  - eapply has_int_id_dict, Hids.
  - eapply ids_not_target; [exact Hids | now apply greatest_not_in].
  - eexists. reflexivity.
  - apply Z.eqb_refl.
  - rewrite lookup_insert_eq. discriminate.
Qed.

Lemma add_then_delete_witness :
  exists m employees' w',
    greatest [1; 4] m /\
    add_employee [employee 1 "Bob" 30 "Eng"; employee 4 "Cy" 41 "Ops"]
      {| fs := ∅; stdin := ["Amy"; "25"; ""]; stdout := [] |}
    = Ok (employees', w') /\
    employees' <> [employee 1 "Bob" 30 "Eng"; employee 4 "Cy" 41 "Ops"] /\
    delete_by_id employees' (1 + m) w'
    = Ok ([employee 1 "Bob" 30 "Eng"; employee 4 "Cy" 41 "Ops"], true,
          after w' DATA_FILE
            (saved [employee 1 "Bob" 30 "Eng"; employee 4 "Cy" 41 "Ops"]) [] []).
Proof.
  apply (add_then_delete [employee 1 "Bob" 30 "Eng"; employee 4 "Cy" 41 "Ops"]
           [1; 4] "Amy" "25" "" 25
           {| fs := ∅; stdin := ["Amy"; "25"; ""]; stdout := [] |} []).
  - repeat constructor; eexists; (split; reflexivity).
  - discriminate.
  - reflexivity.
  - lia.
  - reflexivity.
  - simpl. rewrite lookup_empty. discriminate.
Defined.

Lemma result_bind_ret {A : Type} (r : result A) : (r ≫= fun x => Ok x) = r.
Proof. now destruct r. Qed.

Lemma comprehension_app (p : value -> result bool) (l1 l2 f1 f2 : list value) :
  comprehension p l1 = Ok f1 -> comprehension p l2 = Ok f2 ->
  comprehension p (l1 ++ l2) = Ok (f1 ++ f2)%list.
Proof.
  revert f1. induction l1 as [|e l1 IH]; intros f1 H1 H2.
  - injection H1 as <-. exact H2.
  - cbn [comprehension app] in *. unfold mbind, result_bind in *.
    destruct (p e) as [b| |]; try discriminate.
    destruct (comprehension p l1) as [g| |]; try discriminate.
    rewrite (IH g eq_refl H2). injection H1 as <-. now destruct b.
Qed.

Lemma contains_refl (s : string) : Str.contains s s = true.
Proof.
  apply contains_spec. exists EmptyString, EmptyString.
  simpl. now rewrite append_nil_r.
Qed.

(** X7. A record that was just added is found by a search for the name as
    it was typed: it comes last in the result, after what the same search
    found before the addition. *)
Theorem add_then_find (employees : list value) (ids : list Z)
    (name_line age_line dept_line : string) (age : Z) (w : world)
    (unread : list string) :
  Forall2 has_int_id employees ids -> Forall named employees ->
  Str.strip name_line <> EmptyString ->
  Str.int (Str.strip age_line) = Ok age -> 15 <= age <= 100 ->
  stdin w = name_line :: age_line :: dept_line :: unread ->
  fs w !! DATA_FILE <> Some Directory ->
  exists found added w',
    find_by_name employees name_line = Ok found /\
    add_employee employees w = Ok ((employees ++ [added])%list, w') /\
    name_of added = Str.strip name_line /\
    find_by_name (employees ++ [added]) name_line = Ok (found ++ [added])%list.
Proof.
  intros Hids Hnamed Hname Hint Hage Hin Hfs.
  assert (Hv : Forall2 id_view employees ids).
  { eapply Forall2_impl; [exact Hids | apply has_int_id_view]. }
  destruct (add_employee_returns employees ids name_line age_line dept_line age w
              unread Hv Hname Hint Hage Hin Hfs) as (m & Hm & Hadd).
  cbv zeta in Hadd.
  assert (Hfound : exists found, find_by_name employees name_line = Ok found).
  { unfold find_by_name. clear -Hnamed.
    induction Hnamed as [|e es He _ [found IH]]; [eexists; reflexivity|].
    cbn [comprehension]. rewrite (name_test e _ He), IH.
    eexists. reflexivity. }
  destruct Hfound as [found Hfound].
  exists found. eexists. eexists.
  split; [exact Hfound|]. split; [exact Hadd|]. split; [reflexivity|].
  unfold find_by_name in *. apply comprehension_app; [exact Hfound|].
  cbn. now rewrite contains_refl.
Qed.

Lemma add_then_find_witness :
  exists found added w',
    find_by_name [employee 1 "Amy Lee" 30 "Eng"; employee 2 "Bob" 41 "Ops"] " amy "
    = Ok found /\
    add_employee [employee 1 "Amy Lee" 30 "Eng"; employee 2 "Bob" 41 "Ops"]
      {| fs := ∅; stdin := [" amy "; "25"; ""]; stdout := [] |}
    = Ok (([employee 1 "Amy Lee" 30 "Eng"; employee 2 "Bob" 41 "Ops"] ++ [added])%list,
          w') /\
    name_of added = Str.strip " amy " /\
    find_by_name
      ([employee 1 "Amy Lee" 30 "Eng"; employee 2 "Bob" 41 "Ops"] ++ [added]) " amy "
    = Ok (found ++ [added])%list.
Proof.
  apply (add_then_find [employee 1 "Amy Lee" 30 "Eng"; employee 2 "Bob" 41 "Ops"]
           [1; 2] " amy " "25" "" 25
           {| fs := ∅; stdin := [" amy "; "25"; ""]; stdout := [] |} []).
  - repeat constructor; eexists; (split; reflexivity).
  - repeat constructor; eexists; (split; [reflexivity|]);
      intros v [=]; subst; eexists; reflexivity.
  - discriminate.
  - reflexivity.
  - lia.
  - reflexivity.
  - simpl. rewrite lookup_empty. discriminate.
Defined.

(** ** Deleting twice *)

Lemma get_id_is_ok (e v : value) (target : Z) :
  Py.get e "id" VNone = Ok v -> is_dict e /\ Py.eq v (VInt target) = id_is e target.
Proof.
  destruct e; try discriminate. intros [= <-]. split; [eexists; reflexivity|].
  simpl. now destruct (Dict.get d "id").
Qed.

(** What a run of the loop of [delete_by_id] that returns has done. *)
Lemma delete_loop_inv (todo done : list value) (target : Z) (w : world)
    (employees' : list value) (b : bool) (w' : world) :
  delete_loop (done ++ todo) (length done) todo target w = Ok (employees', b, w') ->
  (b = false /\ employees' = (done ++ todo)%list /\ w' = w /\
   Forall is_dict todo /\ Forall (fun x => id_is x target = false) todo) \/
  (b = true /\ exists pre e post,
     todo = (pre ++ e :: post)%list /\
     Forall is_dict pre /\ Forall (fun x => id_is x target = false) pre /\
     is_dict e /\ id_is e target = true /\
     employees' = (done ++ pre ++ post)%list /\
     fs w !! DATA_FILE <> Some Directory /\
     w' = after w DATA_FILE (saved employees') (stdin w) []).
Proof.
  revert done. induction todo as [|x todo IH]; intros done H.
  - injection H as <- <- <-. left. repeat split; constructor.
  - cbn [delete_loop] in H. unfold mbind, M_bind, lift in H.
    destruct (Py.get x "id" VNone) as [v| |] eqn:Hget; try discriminate.
    destruct (get_id_is_ok x v target Hget) as [Hdx Heq]. rewrite Heq in H.
    destruct (id_is x target) eqn:Hx.
    + pose proof (delete_loop_found w target x todo [] done) as Hrun.
      assert (Hfs : fs w !! DATA_FILE <> Some Directory).
      { intros Hdir. unfold save_data, IO.write_text in H. rewrite Hdir in H.
        discriminate. }
      specialize (Hrun (Forall_nil_2 _) (Forall_nil_2 _) Hdx Hx Hfs).
      cbn [app delete_loop] in Hrun. unfold mbind, M_bind, lift in Hrun.
      rewrite Hget, Heq in Hrun. rewrite Hrun in H. injection H as <- <- <-.
      right. split; [reflexivity|]. exists [], x, todo.
      repeat split; auto.
    + specialize (IH (done ++ [x])%list).
      rewrite <- app_assoc, length_app, Nat.add_1_r in IH. specialize (IH H).
      destruct IH as [(-> & -> & -> & Hd & Hno)
                     | (-> & pre & e & post & -> & Hd & Hno & Hde & He & -> & Hfs & ->)].
      * left. split; [reflexivity|]. split; [reflexivity|].
        split; [reflexivity|]. split; now constructor.
      * right. split; [reflexivity|]. exists (x :: pre), e, post.
        split; [reflexivity|]. split; [now constructor|].
        split; [now constructor|]. rewrite <- !app_assoc. cbn [app]. auto.
Qed.

(** X8. On a roster whose integer identifiers are pairwise distinct, a
    deletion that succeeded leaves no record with the identifier: the same
    deletion, asked again, returns [False] and changes nothing. *)
Theorem delete_twice (employees : list value) (ids : list Z) (target : Z)
    (w : world) (employees' : list value) (w' : world) :
  Forall2 has_int_id employees ids -> NoDup ids ->
  delete_by_id employees target w = Ok (employees', true, w') ->
  Forall (fun e => id_is e target = false) employees' /\
  delete_by_id employees' target w' = Ok (employees', false, w').
Proof.
  intros Hids Hnd Hdel.
  assert (Hd : Forall is_dict employees) by (eapply has_int_id_dict, Hids).
  assert (Hnone : Forall (fun e => id_is e target = false) employees').
  { destruct (delete_loop_inv employees [] target w _ _ _ Hdel)
      as [(Hb & _) | (_ & pre & e & post & -> & _ & _ & _ & He & -> & _)];
      [discriminate|].
    apply Forall2_app_inv_l in Hids as (ids1 & ids2 & Hids1 & Hids2 & ->).
    apply Forall2_cons_inv_l in Hids2 as (i & ids3 & Hi & Hids3 & ->).
    rewrite (has_int_id_is e i target Hi) in He. apply Z.eqb_eq in He. subst i.
    apply NoDup_app in Hnd as (_ & Hdisj & Hnd2).
    apply NoDup_cons in Hnd2 as [Hnot3 _].
    cbn [app]. apply Forall_app. split.
    - eapply ids_not_target; [exact Hids1|].
      intros Hin. apply (Hdisj target Hin). left.
    - eapply ids_not_target; [exact Hids3 | exact Hnot3]. }
  split; [exact Hnone|].
  unfold delete_by_id. apply delete_loop_not_found; [|exact Hnone].
  destruct (delete_loop_cases _ _ _ _ _ _ _ _ Hdel) as [-> | [j ->]]; [exact Hd|].
  now apply Forall_delete.
Qed.

Lemma delete_twice_witness :
  let w := {| fs := ∅; stdin := []; stdout := [] |} in
  let w' := after w DATA_FILE (saved [employee 2 "Amy" 25 "General"]) [] [] in
  Forall (fun e => id_is e 1 = false) [employee 2 "Amy" 25 "General"] /\
  delete_by_id [employee 2 "Amy" 25 "General"] 1 w'
  = Ok ([employee 2 "Amy" 25 "General"], false, w').
Proof.
  apply (delete_twice [employee 1 "Bob" 30 "Eng"; employee 2 "Amy" 25 "General"]
           [1; 2] 1 {| fs := ∅; stdin := []; stdout := [] |}).
  - repeat constructor; eexists; (split; reflexivity).
  - repeat constructor; rewrite ?list_elem_of_In; simpl; intuition lia.
  - reflexivity.
Defined.

(** ** The order of the identifiers *)

Lemma increasing_weaken (ids : list Z) (lo lo' : Z) :
  lo' <= lo -> increasing_from lo ids -> increasing_from lo' ids.
Proof. destruct ids as [|i r]; simpl; [auto | intros ? []; split; [lia | auto]]. Qed.

Lemma increasing_append (ids : list Z) (lo n : Z) :
  increasing_from lo ids -> Forall (fun i => i < n) ids -> lo <= n ->
  increasing_from lo (ids ++ [n]).
Proof.
  revert lo. induction ids as [|i r IH]; intros lo Hinc Hall Hlo; simpl.
  - auto.
  - destruct Hinc as [Hi Hr]. apply Forall_cons in Hall as [Hin Hall].
    split; [exact Hi|]. apply IH; [exact Hr | exact Hall | lia].
Qed.

Lemma increasing_delete (ids : list Z) (lo : Z) (j : nat) :
  increasing_from lo ids -> increasing_from lo (delete j ids).
Proof.
  revert lo j. induction ids as [|i r IH]; intros lo j Hinc; [now destruct j|].
  destruct Hinc as [Hi Hr]. destruct j as [|j]; simpl.
  - eapply increasing_weaken; [|exact Hr]. lia.
  - split; [exact Hi | now apply IH].
Qed.

(** X9. A roster whose identifiers increase along the list and are 1 at
    least stays so under every operation that returns: an addition appends
    an identifier greater than all the others, a deletion keeps the
    order. *)
Theorem ids_stay_increasing (op : operation) (employees : list value)
    (ids : list Z) (w : world) (employees' : list value) (w' : world) :
  Forall2 has_int_id employees ids -> increasing_from 1 ids ->
  perform op employees w = Ok (employees', w') ->
  exists ids', Forall2 has_int_id employees' ids' /\ increasing_from 1 ids'.
Proof.
  intros Hids Hinc H.
  assert (Hv : Forall2 id_view employees ids).
  { eapply Forall2_impl; [exact Hids | apply has_int_id_view]. }
  destruct op as [|id| |query]; cbn [perform] in H.
  - destruct (add_employee_cases _ _ _ _ _ Hv H)
      as [-> | (m & name & age & dept & Hm & ->)]; [eauto|].
    exists (ids ++ [1 + m])%list. split.
    + apply Forall2_app; [exact Hids|].
      constructor; [|constructor]. eexists. split; reflexivity.
    + apply increasing_append; [exact Hinc | |].
      * apply Forall_forall. intros i Hi. apply list_elem_of_In in Hi.
        exact (greatest_fresh ids m Hm i Hi).
      * destruct ids as [|i0 r]; simpl in Hm; [lia|].
        destruct Hinc as [H1 _]. destruct Hm as [_ Hall].
        apply Forall_cons in Hall as [? _]. lia.
  - unfold mbind, M_bind, delete_by_id in H.
    destruct (delete_loop _ _ _ _ _) as [[[es1 b] w1]| |] eqn:Hdel;
      try discriminate.
    injection H as <- _.
    destruct (delete_loop_cases _ _ _ _ _ _ _ _ Hdel) as [-> | [j ->]]; [eauto|].
    exists (delete j ids). split; [now apply Forall2_delete|].
    now apply increasing_delete.
  - unfold mbind, M_bind in H.
    destruct (view_all employees w) as [[[] w1]| |]; try discriminate.
    injection H as <- _. eauto.
  - unfold mbind, M_bind, lift in H.
    destruct (find_by_name employees query); try discriminate.
    injection H as <- _. eauto.
Qed.

Lemma ids_stay_increasing_witness :
  exists ids',
    Forall2 has_int_id
      [employee 1 "Bob" 30 "Eng"; employee 4 "Cy" 41 "Ops";
       employee 5 "Amy" 25 "General"] ids' /\
    increasing_from 1 ids'.
Proof.
  apply (ids_stay_increasing Add
           [employee 1 "Bob" 30 "Eng"; employee 4 "Cy" 41 "Ops"] [1; 4]
           {| fs := ∅; stdin := ["Amy"; "25"; ""]; stdout := [] |}
           [employee 1 "Bob" 30 "Eng"; employee 4 "Cy" 41 "Ops";
            employee 5 "Amy" 25 "General"]
           (after {| fs := ∅; stdin := ["Amy"; "25"; ""]; stdout := [] |}
              DATA_FILE
              (saved [employee 1 "Bob" 30 "Eng"; employee 4 "Cy" 41 "Ops";
                      employee 5 "Amy" 25 "General"])
              []
              ["Enter name: "; "Enter age (15-100): "; "Enter department: ";
               IO.line "Added employee Amy (id=5)."])).
  - repeat constructor; eexists; (split; reflexivity).
  - simpl. lia.
  - reflexivity.
Defined.

(** ** Additions in a row *)

Lemma greatest_numbered (k : nat) : greatest (numbered_from 0 k) (Z.of_nat k).
Proof.
  destruct k as [|k]; [reflexivity|].
  unfold greatest, numbered_from.
  change (map Z.of_nat (seq 1 (S k))) with (Z.of_nat 1 :: map Z.of_nat (seq 2 k)).
  split.
  - change (Z.of_nat 1 :: map Z.of_nat (seq 2 k)) with (map Z.of_nat (seq 1 (S k))).
    apply in_map, in_seq. lia.
  - change (Z.of_nat 1 :: map Z.of_nat (seq 2 k)) with (map Z.of_nat (seq 1 (S k))).
    apply Forall_forall. intros i Hi. apply list_elem_of_In in Hi.
    apply in_map_iff in Hi as (j & <- & Hj). apply in_seq in Hj. lia.
Qed.

Lemma greatest_unique (ids : list Z) (m m' : Z) :
  greatest ids m -> greatest ids m' -> m = m'.
Proof.
  destruct ids as [|i ids]; [simpl; congruence|].
  unfold greatest. intros [H1 A1] [H2 A2]. rewrite Forall_forall in A1, A2.
  apply list_elem_of_In in H1, H2.
  specialize (A1 _ H2). specialize (A2 _ H1). lia.
Qed.

Lemma add_repeatedly_from (answers : list (string * string * string))
    (employees : list value) (k : nat) (w : world) (unread : list string) :
  Forall accepted answers ->
  Forall2 has_int_id employees (numbered_from 0 k) ->
  stdin w = (typed answers ++ unread)%list ->
  fs w !! DATA_FILE <> Some Directory ->
  exists employees' w',
    add_repeatedly (length answers) employees w = Ok (employees', w') /\
    Forall2 has_int_id employees' (numbered_from 0 (k + length answers)) /\
    stdin w' = unread /\
    match answers with
    | [] => employees' = employees /\ w' = w
    | _ => fs w' !! DATA_FILE = Some (File (saved employees'))
    end.
Proof.
  intros Hacc. revert employees k w.
  induction Hacc as [|[[name age] dept] answers (Hname & n & Hint & Hn) _ IH];
    intros es k w Hids Hin Hfs.
  - exists es, w. rewrite Nat.add_0_r. auto.
  - cbn [length add_repeatedly]. unfold mbind, M_bind.
    assert (Hv : Forall2 id_view es (numbered_from 0 k)).
    { eapply Forall2_impl; [exact Hids | apply has_int_id_view]. }
    destruct (add_employee_returns es _ name age dept n w (typed answers ++ unread)
                Hv Hname Hint Hn Hin Hfs) as (m & Hm & Hadd).
    cbv zeta in Hadd. rewrite Hadd.
    rewrite (greatest_unique _ _ _ Hm (greatest_numbered k)) in *.
    match goal with |- context [add_repeatedly _ ?es1 ?w1] =>
      destruct (IH es1 (S k) w1) as (es' & w' & Hrun & Hids' & Hin' & Hfile) end.
    + unfold numbered_from.
      replace (S k) with (k + 1)%nat by lia. rewrite seq_app, map_app.
      apply Forall2_app; [exact Hids|].
      constructor; [|constructor]. eexists. split; [reflexivity|].
      cbn. do 2 f_equal. lia.
    + reflexivity.
    + cbn. rewrite lookup_insert_eq. discriminate.
    + exists es', w'. split; [exact Hrun|]. split; [|split; [exact Hin'|]].
      * replace (k + S (length answers))%nat with (S k + length answers)%nat by lia.
        exact Hids'.
      * destruct answers as [|a answers]; [|exact Hfile].
        destruct Hfile as [-> ->]. cbn. apply lookup_insert_eq.
Qed.

(** X10. Additions in a row, from the empty roster, number the records
    1, 2, 3, ...: after [n] additions that are accepted the roster holds
    [n] records whose identifiers are 1 to [n] in this order, the lines
    of the answers are read and no other, and the data file holds the
    roster. *)
Theorem additions_number_from_one (answers : list (string * string * string))
    (w : world) (unread : list string) :
  Forall accepted answers ->
  stdin w = (typed answers ++ unread)%list ->
  fs w !! DATA_FILE <> Some Directory ->
  exists employees w',
    add_repeatedly (length answers) [] w = Ok (employees, w') /\
    Forall2 has_int_id employees (numbered_from 0 (length answers)) /\
    stdin w' = unread /\
    (answers <> [] -> fs w' !! DATA_FILE = Some (File (saved employees))).
Proof.
  intros Hacc Hin Hfs.
  destruct (add_repeatedly_from answers [] 0 w unread Hacc (Forall2_nil_2 _ _ _)
              Hin Hfs) as (es & w' & Hrun & Hids & Hin' & Hfile).
  exists es, w'. split; [exact Hrun|]. split; [exact Hids|]. split; [exact Hin'|].
  intros Hne. destruct answers; [congruence | exact Hfile].
Qed.

Lemma additions_number_from_one_witness :
  exists employees w',
    add_repeatedly 3 []
      {| fs := ∅; stdin := ["Bob"; "30"; "Eng"; "Amy"; " 25 "; ""; "Cy"; "41"; "Ops";
                            "5"];
         stdout := [] |}
    = Ok (employees, w') /\
    Forall2 has_int_id employees [1; 2; 3] /\
    stdin w' = ["5"] /\
    ([("Bob", "30", "Eng"); ("Amy", " 25 ", ""); ("Cy", "41", "Ops")] <> [] ->
     fs w' !! DATA_FILE = Some (File (saved employees))).
Proof.
  apply (additions_number_from_one
           [("Bob", "30", "Eng"); ("Amy", " 25 ", ""); ("Cy", "41", "Ops")]
           {| fs := ∅; stdin := ["Bob"; "30"; "Eng"; "Amy"; " 25 "; ""; "Cy"; "41";
                                 "Ops"; "5"];
              stdout := [] |} ["5"]).
  - assert (H : forall name age dept n,
              Str.strip name <> EmptyString -> Str.int (Str.strip age) = Ok n ->
              15 <= n <= 100 -> accepted (name, age, dept)).
    { intros name age dept n H1 H2 H3. split; [exact H1 | now exists n]. }
    constructor; [apply (H _ _ _ 30); [discriminate | reflexivity | lia]|].
    constructor; [apply (H _ _ _ 25); [discriminate | reflexivity | lia]|].
    constructor; [apply (H _ _ _ 41); [discriminate | reflexivity | lia]|].
    constructor.
  - reflexivity.
  - simpl. rewrite lookup_empty. discriminate.
Defined.

(** ** The prompt of the deletion *)

(** X11. [prompt_delete] on a roster of dictionaries, by the line that is
    read.  A line that [int] does not read: "Invalid id." is printed and
    nothing changes.  An integer that is the identifier of no record: "No
    employee with that id." is printed and nothing changes.  Otherwise the
    first record with the identifier is removed, the roster is saved, and
    the identifier is reported in decimal. *)
Theorem prompt_delete_spec (employees : list value) (w : world) (line : string)
    (unread : list string) :
  Forall is_dict employees -> stdin w = line :: unread ->
  let said (text : string) : world :=
    {| fs := fs w; stdin := unread;
       stdout := stdout w ++ ["Enter id to delete: "; IO.line text] |} in
  match Str.int (Str.strip line) with
  | Ok target =>
      (Forall (fun e => id_is e target = false) employees ->
       prompt_delete employees w = Ok (employees, said "No employee with that id.")) /\
      (forall pre e post,
         employees = (pre ++ e :: post)%list ->
         Forall (fun x => id_is x target = false) pre -> id_is e target = true ->
         fs w !! DATA_FILE <> Some Directory ->
         prompt_delete employees w
         = Ok ((pre ++ post)%list,
               after w DATA_FILE (saved (pre ++ post)) unread
                 ["Enter id to delete: ";
                  IO.line ("Deleted employee id=" +:+ Str.of_int target +:+ ".")]))
  | _ => prompt_delete employees w = Ok (employees, said "Invalid id.")
  end.
Proof.
  intros Hd Hin said.
  destruct (int_returns_or_value_error (Str.strip line)) as [[target Hint] | Hint];
    rewrite Hint.
  - split.
    + intros Hno. now apply (prompt_delete_not_found employees w line unread target).
    + intros pre e post -> Hpre He Hfs.
      apply Forall_app in Hd as [Hdpre Hdpost].
      apply Forall_cons in Hdpost as [Hde _].
      pose proof (delete_loop_found
                    {| fs := fs w; stdin := unread;
                       stdout := stdout w ++ ["Enter id to delete: "] |}
                    target e post pre [] Hdpre Hpre Hde He Hfs) as Hrun.
      destruct w as [f i o]. cbn [stdin fs stdout] in *. subst i.
      unfold prompt_delete, mbind, M_bind, IO.input. cbn [stdin fs stdout].
      rewrite Hint. unfold delete_by_id, mbind, M_bind.
      cbn [app length] in Hrun. rewrite Hrun.
      unfold IO.print, mret, M_ret, after. cbn [stdin fs stdout].
      now rewrite app_nil_r, <- app_assoc.
  - now apply (prompt_delete_invalid_id employees w line unread).
Qed.

Lemma prompt_delete_spec_witness :
  prompt_delete [employee 1 "Bob" 30 "Eng"; employee 2 "Amy" 25 "General"]
    {| fs := ∅; stdin := [" +2 "; "5"]; stdout := [] |}
  = Ok ([employee 1 "Bob" 30 "Eng"],
        after {| fs := ∅; stdin := [" +2 "; "5"]; stdout := [] |} DATA_FILE
          (saved [employee 1 "Bob" 30 "Eng"]) ["5"]
          ["Enter id to delete: "; IO.line "Deleted employee id=2."]).
Proof.
  pose proof (prompt_delete_spec
                [employee 1 "Bob" 30 "Eng"; employee 2 "Amy" 25 "General"]
                {| fs := ∅; stdin := [" +2 "; "5"]; stdout := [] |} " +2 " ["5"])
    as H.
  cbv zeta in H. change (Str.int (Str.strip " +2 ")) with (@Ok Z 2) in H.
  destruct H as [_ H].
  - repeat constructor; eexists; reflexivity.
  - reflexivity.
  - apply (H [employee 1 "Bob" 30 "Eng"] (employee 2 "Amy" 25 "General") []).
    + reflexivity.
    + repeat constructor.
    + reflexivity.
    + simpl. rewrite lookup_empty. discriminate.
Defined.

(** X12. A record whose identifier is no number (a string, [None],
    or no identifier at all) is deleted by no answer to the prompt:
    [e.get("id")] is compared with an integer.  In particular a record
    without identifier, which counts as 0 when the next identifier is
    computed, is not deleted by the answer 0. *)
Theorem prompt_delete_keeps_unnumbered (employees : list value) (w : world)
    (employees' : list value) (w' : world) (e : value) :
  prompt_delete employees w = Ok (employees', w') ->
  In e employees -> (forall target, id_is e target = false) ->
  In e employees'.
Proof.
  intros H Hin Hno. destruct w as [f i o].
  unfold prompt_delete, mbind, M_bind, IO.input, IO.print, mret, M_ret in H.
  cbn [stdin fs stdout] in H.
  destruct i as [|line i]; [discriminate|].
  destruct (int_returns_or_value_error (Str.strip line)) as [[target Hint] | Hint];
    rewrite Hint in H.
  - unfold delete_by_id in H.
    destruct (delete_loop _ _ _ _ _) as [[[es1 b] w1]| |] eqn:Hdel;
      try discriminate.
    assert (employees' = es1) as ->.
    { destruct b; cbn [stdin fs stdout] in H; now injection H as <- _. }
    destruct (delete_loop_inv employees [] target _ _ _ _ Hdel)
      as [(_ & -> & _) | (_ & pre & x & post & -> & _ & _ & _ & Hx & -> & _)];
      [exact Hin|].
    cbn [app] in *. apply in_app_iff in Hin as [Hin | [-> | Hin]].
    + apply in_app_iff. now left.
    + rewrite Hno in Hx. discriminate.
    + apply in_app_iff. now right.
  - cbn [stdin fs stdout] in H. now injection H as <- _.
Qed.

Lemma prompt_delete_keeps_unnumbered_witness :
  prompt_delete [VDict [("name", VStr "Zed")]; employee 0 "Bob" 30 "Eng"]
    {| fs := ∅; stdin := ["0"]; stdout := [] |}
  = Ok ([VDict [("name", VStr "Zed")]],
        after {| fs := ∅; stdin := ["0"]; stdout := [] |} DATA_FILE
          (saved [VDict [("name", VStr "Zed")]]) []
          ["Enter id to delete: "; IO.line "Deleted employee id=0."]) /\
  In (VDict [("name", VStr "Zed")]) [VDict [("name", VStr "Zed")]].
Proof.
  split; [reflexivity|].
  apply (prompt_delete_keeps_unnumbered
           [VDict [("name", VStr "Zed")]; employee 0 "Bob" 30 "Eng"]
           {| fs := ∅; stdin := ["0"]; stdout := [] |}
           [VDict [("name", VStr "Zed")]]
           (after {| fs := ∅; stdin := ["0"]; stdout := [] |} DATA_FILE
              (saved [VDict [("name", VStr "Zed")]]) []
              ["Enter id to delete: "; IO.line "Deleted employee id=0."])).
  - reflexivity.
  - left. reflexivity.
  - reflexivity.
Defined.

(** ** Listing: fields that cannot be formatted, fields that are too long *)

Lemma cell_dict (d : list (string * value)) (k : string) (width : nat) :
  (exists s, cell (VDict d) k width = Ok s) \/ cell (VDict d) k width = Raise TypeError.
Proof.
  unfold cell. cbn. destruct (Dict.get d k) as [[]|]; cbn; eauto.
Qed.

Lemma cell_unformattable (d : list (string * value)) (k : string) (width : nat)
    (v : value) :
  Dict.get d k = Some v -> formattable v = false ->
  cell (VDict d) k width = Raise TypeError.
Proof. unfold cell. cbn. intros -> Hv. now destruct v. Qed.

Lemma table_row_dict (e : value) :
  is_dict e -> (exists s, table_row e = Ok s) \/ table_row e = Raise TypeError.
Proof.
  intros [d ->]. unfold table_row.
  destruct (cell_dict d "id" 4) as [[c1 ->] | ->]; [|now right].
  destruct (cell_dict d "name" 20) as [[c2 ->] | ->]; [|now right].
  destruct (cell_dict d "age" 4) as [[c3 ->] | ->]; [|now right].
  destruct (cell_dict d "department" 15) as [[c4 ->] | ->]; [|now right].
  left. eexists. reflexivity.
Qed.

Lemma table_row_unformattable (d : list (string * value)) (k : string) (v : value) :
  In k COLUMNS -> Dict.get d k = Some v -> formattable v = false ->
  table_row (VDict d) = Raise TypeError.
Proof.
  intros Hk Hget Hv.
  assert (Hbad : forall n, cell (VDict d) k n = Raise TypeError).
  { intros n. now apply (cell_unformattable d k n v). }
  unfold table_row.
  destruct (cell_dict d "id" 4) as [[c1 E1] | E1]; rewrite E1; [|reflexivity].
  destruct (cell_dict d "name" 20) as [[c2 E2] | E2]; rewrite E2; [|reflexivity].
  destruct (cell_dict d "age" 4) as [[c3 E3] | E3]; rewrite E3; [|reflexivity].
  destruct (cell_dict d "department" 15) as [[c4 E4] | E4]; rewrite E4;
    [|reflexivity].
  exfalso. destruct Hk as [<- | [<- | [<- | [<- | []]]]];
    rewrite Hbad in *; discriminate.
Qed.

(** X13. [view_all] raises [TypeError] on a roster of dictionaries as
    soon as a record holds, under one of the four keys, a value that is
    neither a string nor a number ([None], a list, a dictionary): the
    format spec of the column does not apply to it. *)
Theorem view_all_unformattable (pre post : list value) (d : list (string * value))
    (k : string) (v : value) (w : world) :
  Forall is_dict pre ->
  In k COLUMNS -> Dict.get d k = Some v -> formattable v = false ->
  view_all (pre ++ VDict d :: post) w = Raise TypeError.
Proof.
  intros Hpre Hk Hget Hv.
  assert (Hrows : forall w0, print_rows (pre ++ VDict d :: post) w0 = Raise TypeError).
  { induction Hpre as [|x pre Hx _ IH]; intros w0; cbn [app print_rows];
      unfold mbind, M_bind, lift.
    - now rewrite (table_row_unformattable d k v Hk Hget Hv).
    - destruct (table_row_dict x Hx) as [[s ->] | ->]; [|reflexivity].
      cbn. apply IH. }
  unfold view_all.
  destruct (pre ++ VDict d :: post)%list eqn:Hl; [now destruct pre|].
  unfold mbind, M_bind, IO.print. cbn -[print_rows RULE HEADER].
  now rewrite Hrows.
Qed.

Lemma view_all_unformattable_witness :
  view_all ([employee 1 "Bob" 30 "Eng"] ++
            VDict [("id", VInt 2); ("name", VNone)] :: [employee 3 "Cy" 41 "Ops"])
    {| fs := ∅; stdin := []; stdout := [] |}
  = Raise TypeError.
Proof.
  apply (view_all_unformattable [employee 1 "Bob" 30 "Eng"]
           [employee 3 "Cy" 41 "Ops"] [("id", VInt 2); ("name", VNone)]
           "name" VNone).
  - repeat constructor. eexists. reflexivity.
  - right. left. reflexivity.
  - reflexivity.
  - reflexivity.
Defined.

Lemma ljust_length (width : nat) (s : string) :
  String.length (Str.ljust width s) = Nat.max width (String.length s).
Proof.
  unfold Str.ljust. rewrite length_append.
  assert (H : forall n, String.length (Str.spaces n) = n).
  { induction n as [|n IH]; simpl; [reflexivity | now rewrite IH]. }
  rewrite H. lia.
Qed.

(** X14. [view_all] pads the fields and never cuts them: the line of a
    record holds each field in full, in a column that has the width of
    the header at least.  Its length is the sum of the four widths, each
    the greater of the width of the column (4, 20, 4, 15) and the length
    of the field, and of the three spaces between them. *)
Theorem table_row_width (e : value) :
  partial_record e ->
  exists row,
    table_row e = Ok row /\
    String.length row
    = (Nat.max 4 (String.length (field_text e "id")) + 1 +
       Nat.max 20 (String.length (field_text e "name")) + 1 +
       Nat.max 4 (String.length (field_text e "age")) + 1 +
       Nat.max 15 (String.length (field_text e "department")))%nat.
Proof.
  intros He. exists (rendered_row e). split; [now apply table_row_rendered|].
  unfold rendered_row. rewrite !length_append, !ljust_length. simpl. lia.
Qed.

Lemma table_row_width_witness :
  exists row,
    table_row (employee 12345 "Maximiliane von Hohenzollern" 41 "Ops") = Ok row /\
    String.length row = (5 + 1 + 28 + 1 + 4 + 1 + 15)%nat.
Proof.
  apply (table_row_width (employee 12345 "Maximiliane von Hohenzollern" 41 "Ops")).
  eexists. split; [reflexivity|].
  repeat split; intros v [=]; subst; eexists; reflexivity.
Defined.

(** ** Searching: narrower queries, names that are no strings *)

Lemma contains_trans (a b c : string) :
  Str.contains a b = true -> Str.contains b c = true -> Str.contains a c = true.
Proof.
  rewrite !contains_spec. intros (p1 & q1 & ->) (p2 & q2 & ->).
  exists (p2 +:+ p1), (q1 +:+ q2). now rewrite !append_assoc.
Qed.

(** The test of [find_by_name] on a record, for a query already trimmed and
    put in lower case. *)
Lemma name_test_query (e : value) (q q' : string) (b : bool) :
  (n ← Py.get e "name" (VStr EmptyString); l ← Py.lower n; Ok (Str.contains q l))
  = Ok b ->
  Str.contains q q' = true ->
  exists b',
    (n ← Py.get e "name" (VStr EmptyString); l ← Py.lower n; Ok (Str.contains q' l))
    = Ok b' /\ (b' = true -> b = true).
Proof.
  intros H Hq. destruct (Py.get e "name" (VStr EmptyString)) as [n| |];
    try discriminate.
  cbn in *. destruct (Py.lower n) as [l| |]; try discriminate.
  cbn in *. injection H as <-. eexists. split; [reflexivity|].
  intros H. exact (contains_trans _ _ _ Hq H).
Qed.

(** X15. A search can be refined on its result.  When the query [q]
    occurs in the query [q'] (both trimmed, case ignored), searching the
    roster for [q'] and searching the result of the search for [q] for [q']
    give the same outcome.  With [q' = q]: searching the result again
    gives the result. *)
Theorem find_by_name_narrows (employees found : list value) (q q' : string) :
  Str.contains (Str.lower (Str.strip q)) (Str.lower (Str.strip q')) = true ->
  find_by_name employees q = Ok found ->
  find_by_name employees q' = find_by_name found q'.
Proof.
  unfold find_by_name. intros Hq.
  revert found. induction employees as [|e es IH]; intros found H.
  - now injection H as <-.
  - cbn [comprehension] in H |- *.
    match type of H with (?t ≫= _) = _ => destruct t as [b| |] eqn:Hb end;
      try discriminate.
    cbn [mbind result_bind] in H.
    match type of H with
      (comprehension ?p es ≫= _) = _ =>
        destruct (comprehension p es) as [l| |] eqn:Hl end;
      try discriminate.
    cbn [mbind result_bind] in H. injection H as <-.
    destruct (name_test_query e _ _ b Hb Hq) as (b' & Hb' & Himp).
    rewrite Hb'. cbn [mbind result_bind]. rewrite (IH l eq_refl).
    destruct b.
    + cbn [comprehension]. rewrite Hb'. reflexivity.
    + destruct b'; [now specialize (Himp eq_refl)|].
      apply result_bind_ret.
Qed.

Lemma find_by_name_narrows_witness :
  find_by_name [employee 1 "Alice" 30 "Eng"; employee 2 "Alan" 25 "Ops";
                employee 3 "Bob" 41 "Ops"] "Ali"
  = find_by_name [employee 1 "Alice" 30 "Eng"; employee 2 "Alan" 25 "Ops"] "Ali".
Proof.
  apply (find_by_name_narrows
           [employee 1 "Alice" 30 "Eng"; employee 2 "Alan" 25 "Ops";
            employee 3 "Bob" 41 "Ops"]
           [employee 1 "Alice" 30 "Eng"; employee 2 "Alan" 25 "Ops"] " AL" "Ali").
  - reflexivity.
  - reflexivity.
Defined.

(** X16. [find_by_name] raises [AttributeError] when the roster holds an
    item that is no dictionary, or a record whose name is no string,
    whatever the query is and wherever the item is, the items before it
    being records with a string for a name or no name. *)
Theorem find_by_name_not_named (pre post : list value) (e : value) (q : string) :
  Forall named pre -> ~ named e ->
  find_by_name (pre ++ e :: post) q = Raise AttributeError.
Proof.
  intros Hpre He. unfold find_by_name.
  induction Hpre as [|x pre Hx _ IH]; cbn [app comprehension].
  - destruct e as [| | | | |d]; try reflexivity.
    cbn. destruct (Dict.get d "name") as [v|] eqn:Hget.
    + destruct v; try reflexivity.
      exfalso. apply He. exists d. split; [reflexivity|].
      intros v Hv. rewrite Hget in Hv. injection Hv as <-. eexists. reflexivity.
    + exfalso. apply He. exists d. split; [reflexivity|].
      intros v Hv. rewrite Hget in Hv. discriminate.
  - rewrite (name_test x _ Hx). cbn [mbind result_bind]. now rewrite IH.
Qed.

Lemma find_by_name_not_named_witness :
  find_by_name ([employee 1 "Bob" 30 "Eng"] ++
                VDict [("id", VInt 2); ("name", VNone)] ::
                [employee 3 "Cy" 41 "Ops"]) "zed"
  = Raise AttributeError.
Proof.
  apply (find_by_name_not_named [employee 1 "Bob" 30 "Eng"]
           [employee 3 "Cy" 41 "Ops"] (VDict [("id", VInt 2); ("name", VNone)])).
  - repeat constructor. eexists. split; [reflexivity|].
    intros v [=]; subst; eexists; reflexivity.
  - intros (d & [= <-] & Hf). destruct (Hf VNone eq_refl) as [s [=]].
Defined.

(** ** What the decoder returns *)

Lemma dict_set_keys (acc : list (string * value)) (k : string) (v : value) :
  ((k ∈ acc.*1) /\ (Dict.set acc k v).*1 = acc.*1) \/
  ((k ∉ acc.*1) /\ Dict.set acc k v = (acc ++ [(k, v)])%list).
Proof.
  induction acc as [|[k' v'] acc IH]; cbn [Dict.set].
  - right. split; [apply not_elem_of_nil | reflexivity].
  - destruct (String.eqb k' k) eqn:Hk.
    + apply String.eqb_eq in Hk. subst k'. left. split; [left | reflexivity].
    + apply String.eqb_neq in Hk.
      destruct IH as [[Hin Heq] | [Hnot Heq]].
      * left. split; [now right|]. cbn. now rewrite Heq.
      * right. split; [|cbn; now rewrite Heq].
        cbn. intros Hin. apply elem_of_cons in Hin as [-> | Hin]; auto.
Qed.

Lemma dict_set_valid (acc : list (string * value)) (k : string) (v : value) :
  NoDup acc.*1 -> Forall (fun kv => valid kv.2) acc -> valid v ->
  NoDup (Dict.set acc k v).*1 /\ Forall (fun kv => valid kv.2) (Dict.set acc k v).
Proof.
  intros Hnd Hall Hv. split.
  - destruct (dict_set_keys acc k v) as [[_ ->] | [Hnot ->]]; [exact Hnd|].
    rewrite fmap_app. apply NoDup_app. split; [exact Hnd|].
    split; [|apply NoDup_singleton].
    intros x Hx Hin. apply list_elem_of_singleton in Hin. now subst x.
  - clear Hnd. induction Hall as [|[k' v'] acc Hx Hall IH]; cbn [Dict.set].
    + now repeat constructor.
    + destruct (String.eqb k' k); constructor; auto.
Qed.

Lemma match_number_valid (s : string) (v : value) (rest : string) (out : bool) :
  Json.match_number s = Ok (v, rest, out) -> valid v.
Proof.
  unfold Json.match_number.
  destruct (match s with
            | String c r => if Ascii.eqb c "-" then ("-", r) else (EmptyString, s)
            | EmptyString => (EmptyString, s)
            end) as [sign s1].
  destruct (Json.int_part s1) as [[ds r0]|]; [|discriminate].
  destruct (Json.frac_part r0); destruct (Json.exp_part _); cbn;
    try (intros [= <- _ _]; exact I);
    destruct (Str.int _); cbn; intros [= <- _ _]; exact I.
Qed.

Lemma scans_valid_all (fuel : nat) : scans_valid fuel.
Proof.
  induction fuel as [|fuel (IHonce & IHitems & IHmembers)];
    [repeat split; intros; discriminate|].
  repeat split.
  - intros s v rest out H. cbn [Json.scan_once] in H.
    destruct s as [|c r]; [discriminate|].
    destruct (Ascii.eqb c Json.QUOTE).
    { destruct (Json.scanstring r) as [[[t r1] o]| |]; cbn in H; try discriminate.
      injection H as <- _ _. exact I. }
    destruct (Ascii.eqb c "{").
    { destruct (Json.skip_ws r) as [|c1 r1] eqn:Hr; [discriminate|].
      destruct (Ascii.eqb c1 "}");
        [injection H as <- _ _; apply valid_dict; split; constructor|].
      destruct (Json.scan_members fuel (String c1 r1) []) as [[[d r2] o]| |] eqn:Hm;
        cbn in H; try discriminate.
      injection H as <- _ _. apply valid_dict.
      apply (IHmembers _ [] _ _ _ (NoDup_nil_2) (Forall_nil_2 _) Hm). }
    destruct (Ascii.eqb c "[").
    { destruct (Json.skip_ws r) as [|c1 r1] eqn:Hr; [discriminate|].
      destruct (Ascii.eqb c1 "]"); [injection H as <- _ _; exact I|].
      destruct (Json.scan_items fuel (String c1 r1)) as [[[l r2] o]| |] eqn:Hi;
        cbn in H; try discriminate.
      injection H as <- _ _. apply valid_list. exact (IHitems _ _ _ _ Hi). }
    repeat match type of H with
    | (if ?b then _ else _) = _ =>
        destruct b; [injection H as <- _ _; exact I|]
    end.
    exact (match_number_valid _ _ _ _ H).
  - intros s l rest out H. cbn [Json.scan_items] in H.
    destruct (Json.scan_once fuel s) as [[[v r1] o]| |] eqn:Hv; cbn in H;
      try discriminate.
    pose proof (IHonce _ _ _ _ Hv) as Hvalid.
    destruct (Json.skip_ws r1) as [|c r2]; [discriminate|].
    destruct (Ascii.eqb c "]"); [injection H as <- _ _; now repeat constructor|].
    destruct (Ascii.eqb c ","); [|discriminate].
    destruct (Json.scan_items fuel (Json.skip_ws r2)) as [[[l' r3] o']| |] eqn:Hl;
      cbn in H; try discriminate.
    injection H as <- _ _. constructor; [exact Hvalid | exact (IHitems _ _ _ _ Hl)].
  - cbn [Json.scan_members] in H1.
    destruct s as [|c r]; [discriminate|].
    destruct (Ascii.eqb c Json.QUOTE); [|discriminate].
    destruct (Json.scanstring r) as [[[k r1] o]| |]; cbn in H1; try discriminate.
    destruct (Json.skip_ws r1) as [|c1 r2]; [discriminate|].
    destruct (Ascii.eqb c1 ":"); [|discriminate].
    destruct (Json.scan_once fuel (Json.skip_ws r2)) as [[[v r3] o']| |] eqn:Hv;
      cbn in H1; try discriminate.
    pose proof (IHonce _ _ _ _ Hv) as Hvalid.
    destruct (dict_set_valid acc k v H H0 Hvalid) as [Hnd Hall].
    destruct (Json.skip_ws r3) as [|c2 r4]; [discriminate|].
    destruct (Ascii.eqb c2 "}"); [injection H1 as <- _ _; exact Hnd|].
    destruct (Ascii.eqb c2 ","); [|discriminate].
    destruct (Json.scan_members fuel (Json.skip_ws r4) (Dict.set acc k v))
      as [[[d' r5] o'']| |] eqn:Hm; cbn in H1; try discriminate.
    injection H1 as <- _ _. exact (proj1 (IHmembers _ _ _ _ _ Hnd Hall Hm)).
  - cbn [Json.scan_members] in H1.
    destruct s as [|c r]; [discriminate|].
    destruct (Ascii.eqb c Json.QUOTE); [|discriminate].
    destruct (Json.scanstring r) as [[[k r1] o]| |]; cbn in H1; try discriminate.
    destruct (Json.skip_ws r1) as [|c1 r2]; [discriminate|].
    destruct (Ascii.eqb c1 ":"); [|discriminate].
    destruct (Json.scan_once fuel (Json.skip_ws r2)) as [[[v r3] o']| |] eqn:Hv;
      cbn in H1; try discriminate.
    pose proof (IHonce _ _ _ _ Hv) as Hvalid.
    destruct (dict_set_valid acc k v H H0 Hvalid) as [Hnd Hall].
    destruct (Json.skip_ws r3) as [|c2 r4]; [discriminate|].
    destruct (Ascii.eqb c2 "}"); [injection H1 as <- _ _; exact Hall|].
    destruct (Ascii.eqb c2 ","); [|discriminate].
    destruct (Json.scan_members fuel (Json.skip_ws r4) (Dict.set acc k v))
      as [[[d' r5] o'']| |] eqn:Hm; cbn in H1; try discriminate.
    injection H1 as <- _ _. exact (proj2 (IHmembers _ _ _ _ _ Hnd Hall Hm)).
Qed.

Lemma loads_valid (s : string) (v : value) : Json.loads s = Ok v -> valid v.
Proof.
  unfold Json.loads. intros H.
  destruct (Json.scan_once _ _) as [[[v' rest] out]| |] eqn:Hs; cbn in H;
    try discriminate.
  destruct (Json.skip_ws rest); [|discriminate].
  destruct out; [discriminate|]. injection H as <-.
  exact (proj1 (scans_valid_all _) _ _ _ _ Hs).
Qed.

(** ** Loading what was dumped, loading what was loaded *)

Lemma load_data_saved (employees : list value) (filename : string) (w : world) :
  Forall valid employees ->
  fs w !! filename = Some (File (saved employees)) ->
  load_data filename w = Ok (employees, w).
Proof.
  intros Hv Hf. unfold saved in Hf. rewrite load_data_outcomes, Hf, decode_encode.
  rewrite universal_newlines_id by apply no_cr_encode.
  rewrite loads_dumps by (now apply valid_list). reflexivity.
Qed.

Lemma load_data_valid (filename : string) (w : world) (l : list value)
    (w1 : world) :
  load_data filename w = Ok (l, w1) -> w1 = w /\ Forall valid l.
Proof.
  intros H. rewrite load_data_outcomes in H.
  destruct (fs w !! filename) as [[bs|]|];
    [| now injection H as <- <- | now injection H as <- <-].
  destruct (Utf8.decode bs) as [text|e|]; [| | discriminate].
  - destruct (Json.loads (IO.universal_newlines text)) as [v|e|] eqn:Hl;
      [| | discriminate].
    + apply loads_valid in Hl.
      destruct v; injection H as <- <-; split; auto.
      now apply valid_list.
    + destruct (load_caught e); [|discriminate]. now injection H as <- <-.
  - destruct (load_caught e); [|discriminate]. now injection H as <- <-.
Qed.

(** X17. [load_data] on a file that holds a JSON text as [json.dump]
    writes it: it returns the items when the text is an array, and the
    empty roster when it is any other value (an object, a string, a
    number, ...). *)
Theorem load_data_of_dump (v : value) (filename : string) (w : world) :
  valid v ->
  fs w !! filename = Some (File (Utf8.encode (Json.dumps v))) ->
  load_data filename w
  = Ok (match v with VList l => l | _ => [] end, w).
Proof.
  intros Hv Hf. rewrite load_data_outcomes, Hf, decode_encode.
  rewrite universal_newlines_id by apply no_cr_encode.
  rewrite loads_dumps by exact Hv. now destruct v.
Qed.

Lemma load_data_of_dump_witness :
  let w := {| fs := {[DATA_FILE :=
                        File (Utf8.encode
                                (Json.dumps (VDict [("id", VInt 1);
                                                    ("name", VStr "Bob")])))]};
              stdin := []; stdout := [] |} in
  load_data DATA_FILE w = Ok ([], w).
Proof.
  apply (load_data_of_dump (VDict [("id", VInt 1); ("name", VStr "Bob")])).
  - apply valid_dict. split; [|repeat constructor].
    apply (bool_decide_unpack _). vm_compute. exact I.
  - reflexivity.
Defined.

(** X18. [load_data], when it returns, leaves the world as it was and
    returns values whose dictionaries have distinct keys.  What it
    returned, once saved at the path, is loaded again as the same roster,
    whatever the file held at first. *)
Theorem load_save_load (filename : string) (w : world) (l : list value)
    (w1 : world) :
  load_data filename w = Ok (l, w1) ->
  w1 = w /\ Forall valid l /\
  (fs w !! filename <> Some Directory ->
   exists w', save_data l filename w = Ok (tt, w') /\
              load_data filename w' = Ok (l, w')).
Proof.
  intros H. destruct (load_data_valid _ _ _ _ H) as [-> Hv].
  split; [reflexivity|]. split; [exact Hv|].
  intros Hfs.
  exists {| fs := <[filename := File (saved l)]> (fs w);
            stdin := stdin w; stdout := stdout w |}.
  split.
  - unfold save_data, IO.write_text, saved.
    destruct (fs w !! filename) as [[]|]; [reflexivity | congruence | reflexivity].
  - apply load_data_saved; [exact Hv|].
    cbn [fs]. now rewrite lookup_insert_eq.
Qed.

Lemma load_save_load_witness :
  let w := {| fs := {[DATA_FILE :=
                        File [x5b; x7b; x22; x61; x22; x3a; x31; x2c; x22; x61;
                              x22; x3a; x32; x7d; x5d]]};
              stdin := []; stdout := [] |} in
  load_data DATA_FILE w = Ok ([VDict [("a", VInt 2)]], w) /\
  exists w', save_data [VDict [("a", VInt 2)]] DATA_FILE w = Ok (tt, w') /\
             load_data DATA_FILE w' = Ok ([VDict [("a", VInt 2)]], w').
Proof.
  cbv zeta. split; [vm_compute; reflexivity|].
  apply (load_save_load DATA_FILE
           {| fs := {[DATA_FILE :=
                        File [x5b; x7b; x22; x61; x22; x3a; x31; x2c; x22; x61;
                              x22; x3a; x32; x7d; x5d]]};
              stdin := []; stdout := [] |}
           [VDict [("a", VInt 2)]]
           {| fs := {[DATA_FILE :=
                        File [x5b; x7b; x22; x61; x22; x3a; x31; x2c; x22; x61;
                              x22; x3a; x32; x7d; x5d]]};
              stdin := []; stdout := [] |}).
  - vm_compute. reflexivity.
  - vm_compute. discriminate.
Defined.

Lemma universal_newlines_crlf (s : string) :
  no_cr s = true -> IO.universal_newlines (crlf s) = s.
Proof.
  induction s as [|c s IH]; [reflexivity|].
  cbn [no_cr crlf]. intros H. apply andb_true_iff in H as [Hc Hs].
  apply negb_true_iff in Hc.
  destruct (Ascii.eqb c IO.LF) eqn:Hlf.
  - apply Ascii.eqb_eq in Hlf. subst c. cbn. now rewrite IH.
  - cbn [IO.universal_newlines]. rewrite Hc. now rewrite IH.
Qed.

(** X19. A data file whose lines end with a carriage return and a line
    feed is loaded as the roster that was saved: the file is read in text
    mode, which reads the two characters as a line feed. *)
Theorem load_data_crlf (employees : list value) (filename : string) (w : world) :
  Forall valid employees ->
  fs w !! filename
  = Some (File (Utf8.encode (crlf (Json.dumps (VList employees))))) ->
  load_data filename w = Ok (employees, w).
Proof.
  intros Hv Hf. rewrite load_data_outcomes, Hf, decode_encode.
  rewrite universal_newlines_crlf by apply no_cr_encode.
  rewrite loads_dumps by (now apply valid_list). reflexivity.
Qed.

Lemma load_data_crlf_witness :
  let w := {| fs := {[DATA_FILE :=
                        File (Utf8.encode
                                (crlf (Json.dumps
                                         (VList [employee 1 "Bob" 30 "Eng"]))))]};
              stdin := []; stdout := [] |} in
  load_data DATA_FILE w = Ok ([employee 1 "Bob" 30 "Eng"], w).
Proof.
  apply (load_data_crlf [employee 1 "Bob" 30 "Eng"]).
  - constructor; [apply employee_valid | constructor].
  - reflexivity.
Defined.

(** ** The prompt of the search *)

Lemma find_by_name_selected (employees : list value) (name_query : string) :
  Forall named employees ->
  exists found,
    find_by_name employees name_query = Ok found /\
    selected (fun e => occurs_ignoring_case (Str.strip name_query) (name_of e))
      employees found.
Proof.
  intros H. unfold find_by_name.
  induction H as [|e es He _ (found & IH & Hsel)].
  - exists []. split; [reflexivity | constructor].
  - cbn [comprehension].
    rewrite (name_test e (Str.strip name_query) He). cbn [mbind result_bind].
    rewrite IH. cbn [mbind result_bind].
    destruct (Str.contains _ _) eqn:Hc.
    + exists (e :: found). split; [reflexivity|].
      constructor; [|exact Hsel]. apply contains_spec, Hc.
    + exists found. split; [reflexivity|].
      apply selected_drop; [|exact Hsel].
      intros Ho. apply contains_spec in Ho. congruence.
Qed.

Lemma found_line_full (e : value) (w : world) :
  full_record e -> found_line e w = Plain (Ok (found_text e, w)).
Proof.
  intros (d & id & name & age & dept & -> & H1 & H2 & H3 & H4).
  unfold found_line, found_text, field_text, subscript, mbind, P_bind.
  now rewrite H1, H2, H3, H4.
Qed.

Lemma print_found_full (found : list value) (w : world) :
  Forall full_record found ->
  print_found found w
  = Plain (Ok (tt, written w (map (fun e => IO.line (found_text e)) found))).
Proof.
  intros H. revert w. induction H as [|e found He _ IH]; intros w.
  - cbn. now rewrite written_nil.
  - cbn [print_found map]. unfold mbind, P_bind.
    rewrite (found_line_full e w He). unfold plain. rewrite print_written.
    rewrite IH, written_written. reflexivity.
Qed.

(** X20. On a roster whose names are strings or are missing,
    [prompt_search] looks for the line it reads, trimmed.  When the
    records with the query in their name are records of the data model, it
    prints "No matches." if there is none, and otherwise their number and
    one line for each, in the order of the roster; it returns with the
    files as they were. *)
Theorem prompt_search_prints (employees : list value) (w : world) (line : string)
    (unread : list string) :
  Forall named employees -> stdin w = line :: unread ->
  exists found,
    selected (fun e => occurs_ignoring_case (Str.strip line) (name_of e))
      employees found /\
    (Forall full_record found ->
     prompt_search employees w
     = Plain (Ok (tt, read_and_written w unread
                        ("Enter name to search (partial allowed): " ::
                         match found with
                         | [] => [IO.line "No matches."]
                         | _ =>
                             IO.line ("Found " +:+
                                      Str.of_int (Z.of_nat (length found)) +:+ ":")
                             :: map (fun e => IO.line (found_text e)) found
                         end)))).
Proof.
  intros Hnamed Hin.
  destruct (find_by_name_selected employees (Str.strip line) Hnamed)
    as (found & Hfind & Hsel).
  rewrite strip_idem in Hsel. exists found. split; [exact Hsel|].
  intros Hfull. destruct w as [f i o]. cbn [stdin] in Hin. subst i.
  unfold prompt_search, mbind, P_bind, plain, IO.input, lift.
  cbn [stdin fs stdout]. rewrite Hfind.
  destruct found as [|e found].
  - unfold IO.print, read_and_written. cbn [stdin fs stdout].
    now rewrite <- app_assoc.
  - rewrite print_written, (print_found_full _ _ Hfull).
    unfold written, read_and_written. cbn [stdin fs stdout].
    now rewrite <- !app_assoc.
Qed.

Lemma prompt_search_prints_witness :
  let w := {| fs := ∅; stdin := [" ALI "; "5"]; stdout := [] |} in
  prompt_search [employee 1 "Alice" 30 "Eng"; employee 2 "Bob" 41 "Ops"] w
  = Plain (Ok (tt, read_and_written w ["5"]
                     ["Enter name to search (partial allowed): ";
                      IO.line "Found 1:";
                      IO.line "  id=1 name=Alice age=30 dept=Eng"])).
Proof.
  cbv zeta.
  destruct (prompt_search_prints
              [employee 1 "Alice" 30 "Eng"; employee 2 "Bob" 41 "Ops"]
              {| fs := ∅; stdin := [" ALI "; "5"]; stdout := [] |} " ALI " ["5"])
    as (found & Hsel & Hrun).
  - repeat constructor; eexists; (split; [reflexivity|]);
      intros v [=]; subst; eexists; reflexivity.
  - reflexivity.
  - assert (found = [employee 1 "Alice" 30 "Eng"]) as ->.
    { eapply selected_unique; [exact Hsel|].
      apply selected_keep; [exists EmptyString, "ce"; reflexivity|].
      apply selected_drop; [|constructor].
      intros Ho. apply contains_spec in Ho. discriminate. }
    apply Hrun. repeat constructor.
    exists [("id", VInt 1); ("name", VStr "Alice"); ("age", VInt 30);
            ("department", VStr "Eng")], 1, "Alice", 30, "Eng".
    repeat split.
Defined.

Lemma missing_key_none (d : list (string * value)) :
  missing_key (VDict d) = None ->
  exists v1 v2 v3 v4,
    Dict.get d "id" = Some v1 /\ Dict.get d "name" = Some v2 /\
    Dict.get d "age" = Some v3 /\ Dict.get d "department" = Some v4.
Proof.
  unfold missing_key, COLUMNS. cbn [List.find].
  destruct (Dict.get d "id") as [v1|]; [|discriminate].
  destruct (Dict.get d "name") as [v2|]; [|discriminate].
  destruct (Dict.get d "age") as [v3|]; [|discriminate].
  destruct (Dict.get d "department") as [v4|]; [|discriminate].
  intros _. now exists v1, v2, v3, v4.
Qed.

Lemma found_line_missing (d : list (string * value)) (k : string) (w : world) :
  missing_key (VDict d) = Some k -> found_line (VDict d) w = KeyError k.
Proof.
  unfold missing_key, COLUMNS. cbn [List.find].
  unfold found_line, subscript, mbind, P_bind.
  destruct (Dict.get d "id") as [v1|]; [|now intros [= <-]].
  destruct (Dict.get d "name") as [v2|]; [|now intros [= <-]].
  destruct (Dict.get d "age") as [v3|]; [|now intros [= <-]].
  destruct (Dict.get d "department") as [v4|]; [|now intros [= <-]].
  discriminate.
Qed.

(** X21. [prompt_search] raises [KeyError] when a record it found lacks
    one of the four keys, where [view_all] prints an empty field: the key
    is the first one that the first such record lacks. *)
Theorem prompt_search_key_error (employees : list value) (w : world)
    (line : string) (unread : list string) (pre post : list value) (e : value)
    (k : string) :
  Forall named employees -> stdin w = line :: unread ->
  selected (fun e => occurs_ignoring_case (Str.strip line) (name_of e))
    employees (pre ++ e :: post) ->
  Forall (fun x => missing_key x = None) pre -> missing_key e = Some k ->
  prompt_search employees w = KeyError k.
Proof.
  intros Hnamed Hin Hsel Hpre He.
  destruct (find_by_name_selected employees (Str.strip line) Hnamed)
    as (found & Hfind & Hsel').
  rewrite strip_idem in Hsel'.
  rewrite (selected_unique _ _ _ _ Hsel' Hsel) in Hfind. clear Hsel'.
  assert (Hd : Forall is_dict (pre ++ e :: post)).
  { apply Forall_forall. intros x Hx. apply list_elem_of_In in Hx.
    apply (selected_elem _ _ _ Hsel) in Hx as [Hx _].
    rewrite Forall_forall in Hnamed. apply list_elem_of_In in Hx.
    destruct (Hnamed x Hx) as (d & -> & _). eexists. reflexivity. }
  assert (Hrun : forall w0, print_found (pre ++ e :: post) w0 = KeyError k).
  { clear Hsel Hfind. apply Forall_app in Hd as [Hdpre Hdpost].
    apply Forall_cons in Hdpost as [[d ->] _].
    induction Hpre as [|x pre Hx _ IH]; intros w0; cbn [app print_found];
      unfold mbind, P_bind.
    - now rewrite (found_line_missing d k w0 He).
    - apply Forall_cons in Hdpre as [[dx ->] Hdpre].
      destruct (missing_key_none dx Hx) as (v1 & v2 & v3 & v4 & H1 & H2 & H3 & H4).
      unfold found_line, subscript, mbind, P_bind. rewrite H1, H2, H3, H4.
      unfold mret, P_ret, plain, IO.print. now apply IH. }
  destruct w as [f i o]. cbn [stdin] in Hin. subst i.
  unfold prompt_search, mbind, P_bind, plain, IO.input, lift.
  cbn [stdin fs stdout]. rewrite Hfind.
  destruct (pre ++ e :: post)%list eqn:Hl; [now destruct pre|].
  rewrite print_written. apply Hrun.
Qed.

Lemma prompt_search_key_error_witness :
  prompt_search [employee 1 "Bob" 30 "Eng";
                 VDict [("name", VStr "Zed"); ("id", VInt 3)]]
    {| fs := ∅; stdin := ["z"]; stdout := [] |}
  = KeyError "age".
Proof.
  apply (prompt_search_key_error
           [employee 1 "Bob" 30 "Eng"; VDict [("name", VStr "Zed"); ("id", VInt 3)]]
           {| fs := ∅; stdin := ["z"]; stdout := [] |} "z" [] [] []
           (VDict [("name", VStr "Zed"); ("id", VInt 3)]) "age").
  - repeat constructor; eexists; (split; [reflexivity|]);
      intros v [=]; subst; eexists; reflexivity.
  - reflexivity.
  - apply selected_drop.
    + intros Ho. apply contains_spec in Ho. discriminate.
    + apply selected_keep; [exists EmptyString, "ed"; reflexivity | constructor].
  - constructor.
  - reflexivity.
Defined.

(** ** The menu *)

Lemma follows_trans (w1 w2 w3 : world) :
  follows w1 w2 -> follows w2 w3 -> follows w1 w3.
Proof.
  intros ([r1 H1] & [o1 G1] & F1) ([r2 H2] & [o2 G2] & F2). repeat split.
  - exists (r1 ++ r2)%list. now rewrite H1, H2, app_assoc.
  - exists (o1 ++ o2)%list. now rewrite G2, G1, app_assoc.
  - intros path Hp. now rewrite F2, F1.
Qed.

Lemma follows_written (w : world) (out : list string) : follows w (written w out).
Proof.
  repeat split; [now exists [] | now exists out].
Qed.

Lemma follows_read (w : world) (line : string) (unread out : list string) :
  stdin w = line :: unread -> follows w (read_and_written w unread out).
Proof.
  intros H. repeat split; [now exists [line] | now exists out].
Qed.

Lemma print_rows_written (employees : list value) (w w' : world) :
  print_rows employees w = Ok (tt, w') -> exists out, w' = written w out.
Proof.
  revert w. induction employees as [|e es IH]; intros w H.
  - injection H as <-. exists []. now rewrite written_nil.
  - cbn [print_rows] in H. unfold mbind, M_bind, lift in H.
    destruct (table_row e) as [row| |]; try discriminate.
    rewrite print_written in H. apply IH in H as [out ->].
    rewrite written_written. eauto.
Qed.

Lemma view_all_written (employees : list value) (w w' : world) :
  view_all employees w = Ok (tt, w') -> exists out, w' = written w out.
Proof.
  unfold view_all. destruct employees as [|e es].
  - rewrite print_written. intros [= <-]. eauto.
  - unfold mbind, M_bind. rewrite !print_written. intros H.
    destruct (print_rows (e :: es) _) as [[[] w1]| |] eqn:Hrows; try discriminate.
    apply print_rows_written in Hrows as [out ->].
    rewrite print_written in H. injection H as <-.
    rewrite !written_written. eauto.
Qed.

Lemma print_found_written (found : list value) (w w' : world) :
  print_found found w = Plain (Ok (tt, w')) -> exists out, w' = written w out.
Proof.
  revert w. induction found as [|e found IH]; intros w H.
  - injection H as <-. exists []. now rewrite written_nil.
  - cbn [print_found] in H. unfold mbind, P_bind in H.
    destruct (found_line e w) as [[[line w1]| |]| |] eqn:Hline; try discriminate.
    assert (w1 = w) as ->.
    { unfold found_line, subscript, mbind, P_bind, mret, P_ret in Hline.
      destruct e; try discriminate.
      repeat match type of Hline with
      | context [Dict.get ?d ?k] => destruct (Dict.get d k); try discriminate
      end.
      now injection Hline as _ <-. }
    unfold plain in H. rewrite print_written in H.
    apply IH in H as [out ->]. rewrite written_written. eauto.
Qed.

Lemma prompt_search_returns (employees : list value) (w w' : world) :
  prompt_search employees w = Plain (Ok (tt, w')) ->
  exists line unread out,
    stdin w = line :: unread /\ w' = read_and_written w unread out.
Proof.
  destruct w as [f i o].
  unfold prompt_search, mbind, P_bind, plain, IO.input, lift.
  cbn [stdin fs stdout]. destruct i as [|line unread]; [discriminate|].
  destruct (find_by_name employees (Str.strip line)) as [found| |];
    try discriminate.
  intros H. exists line, unread. destruct found as [|e found].
  - rewrite print_written in H. injection H as <-.
    eexists. split; [reflexivity|]. unfold written, read_and_written.
    cbn [stdin fs stdout]. now rewrite <- app_assoc.
  - rewrite print_written in H. apply print_found_written in H as [out ->].
    rewrite written_written. eexists. split; [reflexivity|].
    unfold written, read_and_written. cbn [stdin fs stdout].
    now rewrite <- app_assoc.
Qed.

Lemma prompt_search_finishes (employees : list value) (w : world) :
  prompt_search employees w <> Unfinished.
Proof.
  assert (Hfound : forall found w0, print_found found w0 <> Unfinished).
  { induction found as [|e found IH]; intros w0; [discriminate|].
    cbn [print_found]. unfold mbind, P_bind.
    destruct (found_line e w0) as [[[line w1]| |]| |] eqn:Hline; try discriminate.
    - unfold plain. rewrite print_written. apply IH.
    - exfalso. unfold found_line, subscript, mbind, P_bind, mret, P_ret in Hline.
      destruct e; try discriminate.
      repeat match type of Hline with
      | context [Dict.get ?d ?k] => destruct (Dict.get d k); try discriminate
      end. }
  unfold prompt_search, mbind, P_bind, plain.
  destruct (IO.input _ w) as [[line w1]| |]; try discriminate.
  destruct (lift _ w1) as [[found w2]| |]; try discriminate.
  destruct found; [discriminate|].
  rewrite print_written. apply Hfound.
Qed.

Lemma follows_fields (f f' : gmap string node) (read unread o out : list string) :
  (forall path, path <> DATA_FILE -> f' !! path = f !! path) ->
  follows {| fs := f; stdin := read ++ unread; stdout := o |}
          {| fs := f'; stdin := unread; stdout := o ++ out |}.
Proof. intros H. repeat split; [now exists read | now exists out | exact H]. Qed.

Ltac frame read :=
  rewrite ?app_nil_r, <- ?app_assoc;
  apply (follows_fields _ _ read);
  first [ reflexivity | intros ? ?; now apply lookup_insert_ne ].

Lemma add_employee_effect (employees : list value) (w : world)
    (employees' : list value) (w' : world) :
  add_employee employees w = Ok (employees', w') ->
  follows w w' /\
  ((employees' = employees /\ fs w' = fs w) \/
   (exists id name age department,
      employees' = (employees ++ [employee id name age department])%list /\
      fs w' = <[DATA_FILE := File (saved employees')]> (fs w))).
Proof.
  intros H. destruct w as [f i o].
  unfold add_employee, mbind, M_bind, IO.input, IO.print, lift, mret, M_ret in H.
  cbn [stdin fs stdout] in H.
  destruct i as [|l1 i]; [discriminate|].
  destruct (validate_name (Str.strip l1)); cbn [negb stdin fs stdout] in H.
  2:{ injection H as <- <-. split; [frame [l1] | now left]. }
  destruct i as [|l2 i]; [discriminate|].
  destruct (validate_age (Str.strip l2)) as [[age|]| |]; try discriminate.
  2:{ injection H as <- <-. split; [frame [l1; l2] | now left]. }
  cbn [stdin fs stdout] in H.
  destruct i as [|l3 i]; [discriminate|].
  destruct (next_id employees) as [id| |]; try discriminate.
  unfold save_data, IO.write_text in H. cbn [stdin fs stdout] in H.
  assert (Hw : Ok (employees', w')
          = Ok ((employees ++ [employee id (Str.strip l1) age
                                (if String.eqb (Str.strip l3) EmptyString
                                 then "General" else Str.strip l3)])%list,
                {| fs := <[DATA_FILE := File (saved (employees ++
                            [employee id (Str.strip l1) age
                               (if String.eqb (Str.strip l3) EmptyString
                                then "General" else Str.strip l3)]))]> f;
                   stdin := i;
                   stdout := o ++ ["Enter name: "; "Enter age (15-100): ";
                                   "Enter department: ";
                                   IO.line ("Added employee " +:+ Str.strip l1 +:+
                                            " (id=" +:+ Str.of_int id +:+ ").")] |})).
  { rewrite <- H. destruct (f !! DATA_FILE) as [[]|]; try discriminate;
      cbn [stdin fs stdout]; rewrite <- !app_assoc; reflexivity. }
  injection Hw as -> ->. split; [frame [l1; l2; l3]|].
  right. eauto 10.
Qed.

Lemma prompt_delete_effect (employees : list value) (w : world)
    (employees' : list value) (w' : world) :
  prompt_delete employees w = Ok (employees', w') ->
  follows w w' /\
  ((employees' = employees /\ fs w' = fs w) \/
   (exists j,
      employees' = delete j employees /\
      fs w' = <[DATA_FILE := File (saved employees')]> (fs w))).
Proof.
  intros H. destruct w as [f i o].
  unfold prompt_delete, mbind, M_bind, IO.input, IO.print, mret, M_ret in H.
  cbn [stdin fs stdout] in H.
  destruct i as [|line i]; [discriminate|].
  destruct (int_returns_or_value_error (Str.strip line)) as [[target Hint] | Hint];
    rewrite Hint in H.
  - unfold delete_by_id in H.
    destruct (delete_loop _ _ _ _ _) as [[[es1 b] w1]| |] eqn:Hdel;
      try discriminate.
    destruct (delete_loop_inv employees [] target _ _ _ _ Hdel)
      as [(-> & -> & -> & _)
         | (-> & pre & x & post & -> & _ & _ & _ & _ & -> & _ & ->)];
      cbn [stdin fs stdout app] in H; injection H as <- <-.
    + split; [frame [line] | now left].
    + split; [unfold after; cbn [stdin fs stdout]; frame [line]|].
      right. exists (length pre). split; [|reflexivity].
      clear. induction pre as [|y pre IH]; [reflexivity|].
      cbn. f_equal. exact IH.
  - cbn [stdin fs stdout] in H. injection H as <- <-.
    split; [frame [line] | now left].
Qed.

Lemma print_menu_written (dash : string) (w : world) :
  print_menu dash w = Ok (tt, written w (menu_text dash)).
Proof.
  unfold print_menu, mbind, M_bind. rewrite !print_written, !written_written.
  reflexivity.
Qed.

Lemma main_loop_eof (dash : string) (fuel : nat) (employees : list value)
    (w : world) :
  stdin w = [] -> main_loop dash (S fuel) employees w = Plain (Raise EOFError).
Proof.
  intros Hin. cbn [main_loop]. unfold mbind, P_bind, plain.
  rewrite print_menu_written. unfold IO.input. cbn [stdin written].
  now rewrite Hin.
Qed.

Lemma main_loop_choice (dash : string) (fuel : nat) (employees : list value)
    (w : world) (line : string) (unread : list string) :
  stdin w = line :: unread ->
  main_loop dash (S fuel) employees w
  = (let choice := Str.strip line in
     if String.eqb choice "1" then
       plain (add_employee employees) ≫= main_loop dash fuel
     else if String.eqb choice "2" then
       plain (view_all employees) ≫= fun _ => main_loop dash fuel employees
     else if String.eqb choice "3" then
       prompt_search employees ≫= fun _ => main_loop dash fuel employees
     else if String.eqb choice "4" then
       plain (prompt_delete employees) ≫= main_loop dash fuel
     else if String.eqb choice "5" then
       plain (IO.print "Exiting. Goodbye.") ≫= fun _ => mret employees
     else
       plain (IO.print "Invalid choice. Enter 1-5.") ≫=
       fun _ => main_loop dash fuel employees)
      (asked dash w unread).
Proof.
  intros Hin. cbn [main_loop]. unfold mbind at 1, P_bind at 1, plain at 1.
  rewrite print_menu_written.
  unfold mbind at 1, P_bind at 1, plain at 1, IO.input.
  cbn [stdin fs stdout written]. rewrite Hin.
  assert (Hw : {| fs := fs w; stdin := unread;
                  stdout := (stdout w ++ menu_text dash) ++ ["Choice: "] |}
               = asked dash w unread).
  { unfold asked, read_and_written. now rewrite <- app_assoc. }
  now rewrite Hw.
Qed.

(** A turn of the loop, case by case. *)
Lemma main_loop_cases (dash : string) (fuel : nat) (employees : list value)
    (w : world) :
  (stdin w = [] /\ main_loop dash (S fuel) employees w = Plain (Raise EOFError)) \/
  (exists line unread,
     stdin w = line :: unread /\ chooses "5" line /\
     main_loop dash (S fuel) employees w
     = Plain (Ok (employees,
                  written (asked dash w unread) [IO.line "Exiting. Goodbye."]))) \/
  (exists employees' w',
     turn dash employees w employees' w' /\
     main_loop dash (S fuel) employees w = main_loop dash fuel employees' w') \/
  (stdin w <> [] /\ failed (main_loop dash (S fuel) employees w)).
Proof.
  destruct (stdin w) as [|line unread] eqn:Hin;
    [left; split; [reflexivity | now apply main_loop_eof]|].
  right. rewrite (main_loop_choice dash fuel employees w line unread Hin).
  cbv zeta.
  destruct (String.eqb (Str.strip line) "1") eqn:H1.
  { apply String.eqb_eq in H1. right.
    unfold mbind, P_bind, plain.
    destruct (add_employee employees (asked dash w unread)) as [[es' w']| |] eqn:Hrun.
    - left. exists es', w'. split; [|reflexivity]. eapply turn_add; eauto.
    - right. split; [discriminate | exact I].
    - right. split; [discriminate | exact I]. }
  destruct (String.eqb (Str.strip line) "2") eqn:H2.
  { apply String.eqb_eq in H2. right.
    unfold mbind, P_bind, plain.
    destruct (view_all employees (asked dash w unread)) as [[[] w']| |] eqn:Hrun.
    - left. exists employees, w'. split; [|reflexivity]. eapply turn_view; eauto.
    - right. split; [discriminate | exact I].
    - right. split; [discriminate | exact I]. }
  destruct (String.eqb (Str.strip line) "3") eqn:H3.
  { apply String.eqb_eq in H3. right.
    unfold mbind, P_bind.
    destruct (prompt_search employees (asked dash w unread))
      as [[[[] w']| |]| |] eqn:Hrun.
    - left. exists employees, w'. split; [|reflexivity]. eapply turn_search; eauto.
    - right. split; [discriminate | exact I].
    - right. split; [discriminate | exact I].
    - right. split; [discriminate | exact I].
    - now destruct (prompt_search_finishes _ _ Hrun). }
  destruct (String.eqb (Str.strip line) "4") eqn:H4.
  { apply String.eqb_eq in H4. right.
    unfold mbind, P_bind, plain.
    destruct (prompt_delete employees (asked dash w unread)) as [[es' w']| |] eqn:Hrun.
    - left. exists es', w'. split; [|reflexivity]. eapply turn_delete; eauto.
    - right. split; [discriminate | exact I].
    - right. split; [discriminate | exact I]. }
  destruct (String.eqb (Str.strip line) "5") eqn:H5.
  { apply String.eqb_eq in H5. left. exists line, unread.
    split; [reflexivity|]. split; [exact H5|].
    unfold mbind, P_bind, plain. rewrite print_written. reflexivity. }
  right. left. eexists. eexists. split.
  - apply (turn_invalid dash employees w line unread Hin).
    apply String.eqb_neq in H1, H2, H3, H4, H5.
    intros [H | [H | [H | [H | [H | []]]]]]; congruence.
  - unfold mbind, P_bind, plain. rewrite print_written. reflexivity.
Qed.

Lemma follows_asked (dash : string) (w : world) (line : string)
    (unread : list string) :
  stdin w = line :: unread -> follows w (asked dash w unread).
Proof. apply follows_read. Qed.

(** What a turn does: it reads the line of the choice at least, it leaves
    the roster and the files as they were or saves the new roster, which
    has one record more or one record less. *)
Lemma turn_effect (dash : string) (employees : list value) (w : world)
    (employees' : list value) (w' : world) :
  turn dash employees w employees' w' ->
  (exists line read,
     stdin w = (line :: read ++ stdin w')%list /\
     ((employees' = employees /\ fs w' = fs w) \/
      (fs w' = <[DATA_FILE := File (saved employees')]> (fs w) /\
       ((chooses "1" line /\
         exists id name age department,
           employees' = (employees ++ [employee id name age department])%list) \/
        (chooses "4" line /\ exists j, employees' = delete j employees))))) /\
  (exists out, stdout w' = (stdout w ++ out)%list) /\
  (forall path, path <> DATA_FILE -> fs w' !! path = fs w !! path).
Proof.
  assert (Hsplit : forall line unread w1,
            stdin w = line :: unread -> follows (asked dash w unread) w1 ->
            (exists read, stdin w = (line :: read ++ stdin w1)%list) /\
            (exists out, stdout w1 = (stdout w ++ out)%list) /\
            (forall path, path <> DATA_FILE -> fs w1 !! path = fs w !! path)).
  { intros line unread w1 Hin ([read Hr] & [out Ho] & Hf). cbn in Hr, Ho, Hf.
    repeat split.
    - exists read. now rewrite Hin, Hr.
    - eexists. rewrite Ho, <- app_assoc. reflexivity.
    - exact Hf. }
  intros [line unread es' w1 Hin Hc Hrun | line unread w1 Hin Hc Hrun
         | line unread w1 Hin Hc Hrun | line unread es' w1 Hin Hc Hrun
         | line unread Hin Hc].
  - apply add_employee_effect in Hrun as [Hfol Hcase].
    destruct (Hsplit line unread w1 Hin Hfol) as ([read Hr] & Ho & Hf).
    split; [|now split]. exists line, read. split; [exact Hr|].
    destruct Hcase as [[-> Hfs] | (id & name & age & dept & -> & Hfs)].
    + now left.
    + right. split; [exact Hfs|]. left. split; [exact Hc|]. eauto.
  - apply view_all_written in Hrun as [out ->].
    destruct (Hsplit line unread _ Hin (follows_written _ out))
      as ([read Hr] & Ho & Hf).
    split; [|now split]. exists line, read. split; [exact Hr | now left].
  - apply prompt_search_returns in Hrun as (l & unread' & out & Hin' & ->).
    destruct (Hsplit line unread _ Hin (follows_read _ l unread' out Hin'))
      as ([read Hr] & Ho & Hf).
    split; [|now split]. exists line, read. split; [exact Hr | now left].
  - apply prompt_delete_effect in Hrun as [Hfol Hcase].
    destruct (Hsplit line unread w1 Hin Hfol) as ([read Hr] & Ho & Hf).
    split; [|now split]. exists line, read. split; [exact Hr|].
    destruct Hcase as [[-> Hfs] | (j & -> & Hfs)].
    + now left.
    + right. split; [exact Hfs|]. right. split; [exact Hc|]. eauto.
  - destruct (Hsplit line unread _ Hin
                (follows_written (asked dash w unread)
                   [IO.line "Invalid choice. Enter 1-5."]))
      as ([read Hr] & Ho & Hf).
    split; [|now split]. exists line, read. split; [exact Hr | now left].
Qed.

Lemma turn_follows (dash : string) (employees : list value) (w : world)
    (employees' : list value) (w' : world) :
  turn dash employees w employees' w' -> follows w w'.
Proof.
  intros H. apply turn_effect in H as ((line & read & Hr & _) & Ho & Hf).
  repeat split; [|exact Ho | exact Hf].
  exists (line :: read). exact Hr.
Qed.

Lemma main_loop_finishes (dash : string) (fuel : nat) (employees : list value)
    (w : world) :
  (length (stdin w) < fuel)%nat -> main_loop dash fuel employees w <> Unfinished.
Proof.
  revert employees w. induction fuel as [|fuel IH]; intros es w Hlen; [lia|].
  destruct (main_loop_cases dash fuel es w)
    as [[_ ->] | [(line & unread & _ & _ & ->) | [(es' & w' & Hturn & ->) | [_ Hf]]]];
    try discriminate.
  - apply IH. apply turn_effect in Hturn as ((line & read & Hr & _) & _).
    rewrite Hr in Hlen. cbn [length] in Hlen. rewrite length_app in Hlen. lia.
  - intros H. rewrite H in Hf. exact Hf.
Qed.

Lemma main_loop_returns (dash : string) (fuel : nat) (employees : list value)
    (w : world) (employees' : list value) (w' : world) :
  main_loop dash fuel employees w = Plain (Ok (employees', w')) ->
  follows w w' /\
  (exists line, In line (stdin w) /\ chooses "5" line) /\
  (exists out, stdout w' = (stdout w ++ out ++ [IO.line "Exiting. Goodbye."])%list).
Proof.
  revert employees w. induction fuel as [|fuel IH]; intros es w H; [discriminate|].
  destruct (main_loop_cases dash fuel es w)
    as [[_ Heq] | [(line & unread & Hin & Hc & Heq)
                  | [(es1 & w1 & Hturn & Heq) | [_ Hf]]]];
    rewrite ?Heq in H; try discriminate.
  - injection H as <- <-. split; [|split].
    + eapply follows_trans; [now apply (follows_asked dash w line unread)|].
      apply follows_written.
    + exists line. split; [rewrite Hin; now left | exact Hc].
    + exists (menu_text dash ++ ["Choice: "])%list.
      unfold written, asked, read_and_written. cbn [stdout].
      now rewrite <- !app_assoc.
  - destruct (IH _ _ H) as (Hfol & (l & Hl & Hc) & (out & Ho)).
    pose proof (turn_follows _ _ _ _ _ Hturn) as Hfol1.
    split; [exact (follows_trans _ _ _ Hfol1 Hfol)|]. split.
    + exists l. split; [|exact Hc].
      destruct Hfol1 as ([read Hr] & _). rewrite Hr. apply in_app_iff. now right.
    + destruct Hfol1 as (_ & [out1 Ho1] & _). exists (out1 ++ out)%list.
      now rewrite Ho, Ho1, <- !app_assoc.
  - rewrite H in Hf. destruct Hf.
Qed.

Lemma main_loads (dash : string) (w : world) (o : outcome (unit * world)) :
  main dash w = o ->
  (exists employees,
     load_data DATA_FILE w = Ok (employees, w) /\
     o = (main_loop dash (S (length (stdin w))) employees ≫= fun _ => mret tt) w) \/
  failed o.
Proof.
  intros H. unfold main in H. unfold mbind at 1, P_bind at 1, plain in H.
  destruct (load_data_total DATA_FILE w) as [[l Hl] | [Hl | Hl]];
    rewrite Hl in H; subst o; [left | now right | now right].
  exists l. split; [exact Hl | reflexivity].
Qed.

(** X22. [main] ends on every input: the bound on the number of turns is
    never reached.  It returns only after a line that reads 5 once
    trimmed, and the last thing it has written is then the farewell. *)
Theorem main_ends (dash : string) (w : world) :
  main dash w <> Unfinished /\
  forall w',
    main dash w = Plain (Ok (tt, w')) ->
    (exists line, In line (stdin w) /\ chooses "5" line) /\
    (exists out,
       stdout w' = (stdout w ++ out ++ [IO.line "Exiting. Goodbye."])%list).
Proof.
  split.
  - intros H. destruct (main_loads dash w _ H) as [(es & _ & Hrun) | []].
    unfold mbind, P_bind in Hrun.
    destruct (main_loop dash _ es w) as [[[es' w1]| |]| |] eqn:Hloop;
      try discriminate.
    apply (main_loop_finishes dash _ es w) in Hloop; [exact Hloop | lia].
  - intros w' H. destruct (main_loads dash w _ H) as [(es & _ & Hrun) | []].
    unfold mbind, P_bind in Hrun.
    destruct (main_loop dash _ es w) as [[[es' w1]| |]| |] eqn:Hloop;
      try discriminate.
    injection Hrun as ->.
    now apply main_loop_returns in Hloop as (_ & H1 & H2).
Qed.

(** X23. A run of [main] that returns has changed no file but the data
    file. *)
Theorem main_keeps_other_files (dash : string) (w w' : world) (path : string) :
  main dash w = Plain (Ok (tt, w')) -> path <> DATA_FILE ->
  fs w' !! path = fs w !! path.
Proof.
  intros H Hp. destruct (main_loads dash w _ H) as [(es & _ & Hrun) | []].
  unfold mbind, P_bind in Hrun.
  destruct (main_loop dash _ es w) as [[[es' w1]| |]| |] eqn:Hloop;
    try discriminate.
  injection Hrun as ->.
  apply main_loop_returns in Hloop as ((_ & _ & Hf) & _). now apply Hf.
Qed.

Lemma main_keeps_other_files_witness :
  let w := {| fs := {["notes.txt" := File [x68; x69]]};
              stdin := ["1"; "Bob"; "30"; "Eng"; "5"]; stdout := [] |} in
  let w1 := after (asked "--" w ["Bob"; "30"; "Eng"; "5"]) DATA_FILE
              (saved [employee 1 "Bob" 30 "Eng"]) ["5"]
              ["Enter name: "; "Enter age (15-100): "; "Enter department: ";
               IO.line "Added employee Bob (id=1)."] in
  let w' := written (asked "--" w1 []) [IO.line "Exiting. Goodbye."] in
  main "--" w = Plain (Ok (tt, w')) /\
  fs w' !! "notes.txt" = fs w !! "notes.txt".
Proof.
  cbv zeta. split; [vm_compute; reflexivity|].
  apply (main_keeps_other_files "--").
  - vm_compute. reflexivity.
  - discriminate.
Defined.

Lemma main_loop_read_only (dash : string) (fuel : nat) (employees : list value)
    (w : world) (employees' : list value) (w' : world) :
  Forall (fun line => ~ chooses "1" line /\ ~ chooses "4" line) (stdin w) ->
  main_loop dash fuel employees w = Plain (Ok (employees', w')) ->
  employees' = employees /\ fs w' = fs w.
Proof.
  revert employees w. induction fuel as [|fuel IH]; intros es w Hall H;
    [discriminate|].
  destruct (main_loop_cases dash fuel es w)
    as [[_ Heq] | [(line & unread & Hin & Hc & Heq)
                  | [(es1 & w1 & Hturn & Heq) | [_ Hf]]]];
    rewrite ?Heq in H; try discriminate.
  - now injection H as <- <-.
  - apply turn_effect in Hturn as ((line & read & Hr & Hcase) & _).
    rewrite Hr in Hall. apply Forall_cons in Hall as [[Hn1 Hn4] Hall].
    apply Forall_app in Hall as [_ Hall].
    destruct Hcase as [[-> Hfs] | (_ & [[Hc _] | [Hc _]])];
      [| contradiction | contradiction].
    destruct (IH _ _ Hall H) as [-> ->]. now split.
  - rewrite H in Hf. destruct Hf.
Qed.

(** X24. A run of [main] that returns, and in which no line reads 1 or 4
    once trimmed, leaves every file as it was, the data file included:
    only additions and deletions write. *)
Theorem main_read_only (dash : string) (w w' : world) :
  Forall (fun line => ~ chooses "1" line /\ ~ chooses "4" line) (stdin w) ->
  main dash w = Plain (Ok (tt, w')) ->
  fs w' = fs w.
Proof.
  intros Hall H. destruct (main_loads dash w _ H) as [(es & _ & Hrun) | []].
  unfold mbind, P_bind in Hrun.
  destruct (main_loop dash _ es w) as [[[es' w1]| |]| |] eqn:Hloop;
    try discriminate.
  injection Hrun as ->.
  now apply (main_loop_read_only dash _ es w _ _ Hall) in Hloop as [_ ->].
Qed.

Lemma main_read_only_witness :
  let w := {| fs := ∅; stdin := [" 2"; "9"; "5 "]; stdout := [] |} in
  let w1 := written (asked "--" w ["9"; "5 "]) [IO.line "No employees."] in
  let w2 := written (asked "--" w1 ["5 "]) [IO.line "Invalid choice. Enter 1-5."] in
  let w' := written (asked "--" w2 []) [IO.line "Exiting. Goodbye."] in
  main "--" w = Plain (Ok (tt, w')) /\ fs w' = fs w.
Proof.
  cbv zeta. split; [vm_compute; reflexivity|].
  apply (main_read_only "--").
  - repeat constructor; discriminate.
  - vm_compute. reflexivity.
Defined.

Lemma load_data_same_files (filename : string) (w w' : world) (l : list value) :
  fs w' = fs w -> load_data filename w = Ok (l, w) ->
  load_data filename w' = Ok (l, w').
Proof.
  intros Hfs. rewrite !load_data_outcomes, Hfs.
  destruct (fs w !! filename) as [[bs|]|];
    [| now intros [= <-] | now intros [= <-]].
  destruct (Utf8.decode bs) as [text|e|]; [| | discriminate].
  - destruct (Json.loads (IO.universal_newlines text)) as [[]|e|];
      try discriminate; try (now intros [= <-]).
    destruct (load_caught e); [now intros [= <-] | discriminate].
  - destruct (load_caught e); [now intros [= <-] | discriminate].
Qed.

Lemma main_loop_persists (dash : string) (fuel : nat) (employees : list value)
    (w : world) (employees' : list value) (w' : world) :
  load_data DATA_FILE w = Ok (employees, w) ->
  main_loop dash fuel employees w = Plain (Ok (employees', w')) ->
  load_data DATA_FILE w' = Ok (employees', w').
Proof.
  revert employees w. induction fuel as [|fuel IH]; intros es w Hload H;
    [discriminate|].
  destruct (main_loop_cases dash fuel es w)
    as [[_ Heq] | [(line & unread & Hin & Hc & Heq)
                  | [(es1 & w1 & Hturn & Heq) | [_ Hf]]]];
    rewrite ?Heq in H; try discriminate.
  - injection H as <- <-. now apply (load_data_same_files _ w).
  - apply (IH es1 w1); [|exact H].
    destruct (load_data_valid _ _ _ _ Hload) as [_ Hv].
    apply turn_effect in Hturn as ((line & read & _ & Hcase) & _).
    destruct Hcase as [[-> Hfs] | (Hfs & Hnew)].
    + now apply (load_data_same_files _ w).
    + apply load_data_saved; [|rewrite Hfs; apply lookup_insert_eq].
      destruct Hnew as [(_ & id & name & age & dept & ->) | (_ & j & ->)].
      * apply Forall_app. split; [exact Hv|].
        constructor; [apply employee_valid | constructor].
      * now apply Forall_delete.
  - rewrite H in Hf. destruct Hf.
Qed.

(** X25. When [main] returns, the data file holds the roster the loop
    ended with: [load_data] in the world [main] leaves returns this roster,
    so the next run starts from it.  This holds whatever the run did, and
    whatever the data file held at the start. *)
Theorem main_persists (dash : string) (w w' : world) :
  main dash w = Plain (Ok (tt, w')) ->
  exists employees employees',
    load_data DATA_FILE w = Ok (employees, w) /\
    main_loop dash (S (length (stdin w))) employees w
    = Plain (Ok (employees', w')) /\
    load_data DATA_FILE w' = Ok (employees', w').
Proof.
  intros H. destruct (main_loads dash w _ H) as [(es & Hload & Hrun) | []].
  unfold mbind, P_bind in Hrun.
  destruct (main_loop dash _ es w) as [[[es' w1]| |]| |] eqn:Hloop;
    try discriminate.
  injection Hrun as ->. exists es, es'. split; [exact Hload|].
  split; [exact Hloop|]. exact (main_loop_persists dash _ es w _ _ Hload Hloop).
Qed.

Lemma main_persists_witness :
  let w := {| fs := ∅; stdin := ["1"; "Bob"; "30"; "Eng"; "5"]; stdout := [] |} in
  let w1 := after (asked "--" w ["Bob"; "30"; "Eng"; "5"]) DATA_FILE
              (saved [employee 1 "Bob" 30 "Eng"]) ["5"]
              ["Enter name: "; "Enter age (15-100): "; "Enter department: ";
               IO.line "Added employee Bob (id=1)."] in
  let w' := written (asked "--" w1 []) [IO.line "Exiting. Goodbye."] in
  exists employees employees',
    load_data DATA_FILE w = Ok (employees, w) /\
    main_loop "--" (S (length (stdin w))) employees w
    = Plain (Ok (employees', w')) /\
    load_data DATA_FILE w' = Ok (employees', w').
Proof.
  cbv zeta. apply (main_persists "--"). vm_compute. reflexivity.
Defined.

(** X26. When [load_data] returns the empty roster (there is no data
    file, or it holds no JSON array), an addition that is accepted,
    followed by the exit, leaves a data file that holds the new record
    alone, with the identifier 1: what the file held before is
    replaced. *)
Theorem main_first_addition (dash : string) (w : world)
    (choice name_line age_line dept_line exit : string) (age : Z)
    (unread : list string) :
  load_data DATA_FILE w = Ok ([], w) ->
  fs w !! DATA_FILE <> Some Directory ->
  stdin w = choice :: name_line :: age_line :: dept_line :: exit :: unread ->
  chooses "1" choice -> chooses "5" exit ->
  Str.strip name_line <> EmptyString ->
  Str.int (Str.strip age_line) = Ok age -> 15 <= age <= 100 ->
  exists w',
    main dash w = Plain (Ok (tt, w')) /\
    stdin w' = unread /\
    fs w'
    = <[DATA_FILE :=
          File (saved [employee 1 (Str.strip name_line) age
                         (if String.eqb (Str.strip dept_line) EmptyString
                          then "General" else Str.strip dept_line)])]> (fs w).
Proof.
  intros Hload Hfs Hin Hc1 Hc5 Hname Hint Hage.
  unfold main. unfold mbind at 1, P_bind at 1, plain. rewrite Hload.
  rewrite Hin. cbn [length].
  unfold mbind, P_bind.
  rewrite (main_loop_choice dash _ [] w choice _ Hin). cbv zeta.
  rewrite Hc1. cbn [String.eqb Ascii.eqb Bool.eqb].
  unfold mbind, P_bind, plain.
  destruct (add_employee_returns [] [] name_line age_line dept_line age
              (asked dash w (name_line :: age_line :: dept_line :: exit :: unread))
              (exit :: unread) (Forall2_nil_2 _ _ _) Hname Hint Hage eq_refl Hfs)
    as (m & Hm & Hadd).
  cbn in Hm. subst m. cbv zeta in Hadd. cbn [app] in Hadd. rewrite Hadd.
  erewrite main_loop_choice by reflexivity. cbv zeta.
  rewrite Hc5. cbn [String.eqb Ascii.eqb Bool.eqb].
  unfold mbind, P_bind, plain. rewrite print_written.
  eexists. split; [reflexivity|]. split; reflexivity.
Qed.

Lemma main_first_addition_witness :
  let w := {| fs := {[DATA_FILE := File [x6f; x6f; x70; x73]]};
              stdin := [" 1"; " Bob "; "30"; ""; "5"; "left"]; stdout := [] |} in
  exists w',
    main "--" w = Plain (Ok (tt, w')) /\
    stdin w' = ["left"] /\
    fs w' = <[DATA_FILE := File (saved [employee 1 "Bob" 30 "General"])]> (fs w).
Proof.
  cbv zeta.
  apply (main_first_addition "--"
           {| fs := {[DATA_FILE := File [x6f; x6f; x70; x73]]};
              stdin := [" 1"; " Bob "; "30"; ""; "5"; "left"]; stdout := [] |}
           " 1" " Bob " "30" "" "5" 30 ["left"]).
  - vm_compute. reflexivity.
  - vm_compute. discriminate.
  - reflexivity.
  - reflexivity.
  - reflexivity.
  - discriminate.
  - reflexivity.
  - lia.
Defined.

Lemma view_all_rendered (employees : list value) (w : world) :
  Forall partial_record employees ->
  view_all employees w
  = Ok (tt, written w match employees with
                      | [] => [IO.line "No employees."]
                      | _ => rendered_table employees
                      end).
Proof.
  intros H. destruct employees as [|e es]; [reflexivity|].
  unfold view_all, mbind, M_bind. rewrite !print_written.
  rewrite (print_rows_rendered _ _ H), print_written, !written_written.
  reflexivity.
Qed.

(** X27. [main] lists what the data file holds: when the file holds a
    saved roster of records of the data model (any field may be missing),
    the choice 2 followed by the choice 5 prints the menu, the table of
    the roster (or "No employees."), the menu again and the farewell. *)
Theorem main_lists_saved_roster (dash : string) (employees : list value)
    (w : world) (view exit : string) (unread : list string) :
  Forall valid employees -> Forall partial_record employees ->
  fs w !! DATA_FILE = Some (File (saved employees)) ->
  stdin w = view :: exit :: unread -> chooses "2" view -> chooses "5" exit ->
  main dash w
  = Plain (Ok (tt, read_and_written w unread
                     (menu_text dash ++ ["Choice: "] ++
                      match employees with
                      | [] => [IO.line "No employees."]
                      | _ => rendered_table employees
                      end ++
                      menu_text dash ++
                      ["Choice: "; IO.line "Exiting. Goodbye."]))).
Proof.
  intros Hv Hp Hf Hin Hc2 Hc5.
  unfold main. unfold mbind at 1, P_bind at 1, plain.
  rewrite (load_data_saved employees DATA_FILE w Hv Hf).
  rewrite Hin. cbn [length]. unfold mbind, P_bind.
  rewrite (main_loop_choice dash _ employees w view _ Hin). cbv zeta.
  rewrite Hc2. cbn [String.eqb Ascii.eqb Bool.eqb].
  unfold mbind, P_bind, plain. rewrite (view_all_rendered _ _ Hp).
  erewrite main_loop_choice by reflexivity. cbv zeta.
  rewrite Hc5. cbn [String.eqb Ascii.eqb Bool.eqb].
  unfold mbind, P_bind, plain. rewrite print_written.
  unfold mret, P_ret, written, asked, read_and_written. cbn [fs stdin stdout].
  rewrite <- !app_assoc. reflexivity.
Qed.

Lemma main_lists_saved_roster_witness :
  let w := {| fs := {[DATA_FILE := File (saved [employee 1 "Bob" 30 "Eng"])]};
              stdin := ["2"; "5"]; stdout := [] |} in
  main "--" w
  = Plain (Ok (tt, read_and_written w []
                     (menu_text "--" ++ ["Choice: "] ++
                      rendered_table [employee 1 "Bob" 30 "Eng"] ++
                      menu_text "--" ++
                      ["Choice: "; IO.line "Exiting. Goodbye."]))).
Proof.
  apply (main_lists_saved_roster "--" [employee 1 "Bob" 30 "Eng"]
           {| fs := {[DATA_FILE := File (saved [employee 1 "Bob" 30 "Eng"])]};
              stdin := ["2"; "5"]; stdout := [] |} "2" "5" []).
  - constructor; [apply employee_valid | constructor].
  - repeat constructor. eexists. split; [reflexivity|].
    repeat split; intros v [=]; subst; eexists; reflexivity.
  - reflexivity.
  - reflexivity.
  - reflexivity.
  - reflexivity.
Defined.
